(** * GUI.for.SingBox: the scheduled-task form and the code editor wrapper

    A shallow embedding of two Vue components:

    - [ScheduledTaskForm.vue]: the reactive task record, [handleUse],
      [handleSubmit], the setup code that loads a stored task, and the
      [disabled] expression of the submit button;
    - the CodeMirror wrapper: [formatDoc], the [watch(model)] callback, the
      update listener and the debounced [onChange].

    Handlers are modelled as state transformers that run to completion: an
    [await] is a call to an external collaborator whose outcome (resolved or
    rejected) is supplied by the environment, and no other handler is
    interleaved while one is suspended.  Calls to collaborators and to the
    notification utility are recorded, in order, in a log. *)

From Stdlib Require Import ZArith.
From stdpp Require Import gmap strings list pretty.

Local Open Scope Z_scope.

(** ** JavaScript values and array primitives *)

Module Js.

(** What a rejected promise or a [throw] carries: an [Error] object with
    its [message], or a bare string. *)
Inductive value :=
| VString (s : string)
| VError (message : string).

(** Outcome of an awaited call (or of a call that may throw). *)
Inductive outcome (A : Type) :=
| Resolved (a : A)
| Rejected (error : value).
Arguments Resolved {A} a.
Arguments Rejected {A} error.

(** Truthiness of a string: only [''] is falsy. *)
Definition truthy (s : string) : bool := negb (String.eqb s "").

(** Truthiness of an optional string ([undefined] is falsy). *)
Definition truthy_opt (o : option string) : bool :=
  match o with
  | Some s => truthy s
  | None => false
  end.

(** [error.message || error] *)
Definition message_or_self (error : value) : value :=
  match error with
  | VError m => if truthy m then VString m else VError m
  | VString s => VString s
  end.

(** [Array.prototype.findIndex]: index of the first element satisfying
    [p], [-1] when there is none. *)
Fixpoint findIndex_from {A} (p : A -> bool) (l : list A) (i : Z) : Z :=
  match l with
  | [] => -1
  | v :: l' => if p v then i else findIndex_from p l' (i + 1)
  end.

Definition findIndex {A} (p : A -> bool) (l : list A) : Z :=
  findIndex_from p l 0.

(** [Array.prototype.splice(start, deleteCount)] without inserted items:
    a negative [start] counts from the end, both arguments are clamped to
    the array. *)
Definition splice {A} (l : list A) (start deleteCount : Z) : list A :=
  let len := Z.of_nat (length l) in
  let from := if start <? 0 then Z.max (len + start) 0 else Z.min start len in
  let count := Z.min (Z.max deleteCount 0) (len - from) in
  take (Z.to_nat from) l ++ drop (Z.to_nat (from + count)) l.

(** [Array.prototype.push] *)
Definition push {A} (l : list A) (v : A) : list A := l ++ [v].

(** [Array.prototype.find] *)
Fixpoint find {A} (p : A -> bool) (l : list A) : option A :=
  match l with
  | [] => None
  | v :: l' => if p v then Some v else find p l'
  end.

(** [Array.prototype.filter] with a callback whose result is used for its
    truthiness: an object is truthy, [undefined] is falsy. *)
Fixpoint filter_truthy {A B} (f : A -> option B) (l : list A) : list A :=
  match l with
  | [] => []
  | v :: l' =>
      match f v with
      | Some _ => v :: filter_truthy f l'
      | None => filter_truthy f l'
      end
  end.

End Js.

(** ** The task record and the stores the form reads *)

(** [ScheduledTasksType] of [@/enums/app], with the members the form uses. *)
Inductive ScheduledTasksType :=
| RunScript
| UpdateSubscription
| UpdateRuleset
| UpdatePlugin
| RunPlugin.

Module ScheduledTask.
Record t := mk {
  id : string;
  name : string;
  type : ScheduledTasksType;
  subscriptions : list string;
  rulesets : list string;
  plugins : list string;
  script : string;
  cron : string;
  notification : bool;
  disabled : bool;
  lastTime : Z
}.
End ScheduledTask.

Module Store.

(** Entries of the three collections, with the fields the template reads. *)
Record Subscription := { sub_id : string; sub_name : string; sub_type : string }.
Record Ruleset := { rs_id : string; rs_tag : string; rs_type : string }.
Record Plugin :=
  { pl_id : string; pl_name : string; pl_type : string; pl_description : string }.

Record t := {
  subscribes : list Subscription;
  rulesets : list Ruleset;
  plugins : list Plugin;
  scheduledtasks : list ScheduledTask.t
}.

(** Modelled from the spec: the stores' lookups by id ([getSubscribeById],
    [getRulesetById], [getPluginById], [getScheduledTaskById]) live in
    [@/stores]; each returns the entry of its collection that carries the
    id, or [undefined]. *)
Definition getSubscribeById (s : t) (id : string) : option Subscription :=
  Js.find (fun v => String.eqb (sub_id v) id) (subscribes s).

Definition getRulesetById (s : t) (id : string) : option Ruleset :=
  Js.find (fun v => String.eqb (rs_id v) id) (rulesets s).

Definition getPluginById (s : t) (id : string) : option Plugin :=
  Js.find (fun v => String.eqb (pl_id v) id) (plugins s).

Definition getScheduledTaskById (s : t) (id : string) : option ScheduledTask.t :=
  Js.find (fun v => String.eqb (ScheduledTask.id v) id) (scheduledtasks s).

End Store.

(** ** ScheduledTaskForm.vue *)

Module Form.

(** The component's props: [id?: string]. *)
Record Props := { props_id : option string }.

(** The collaborators of the component.  [ValidateCron] is the bridge
    call, [addScheduledTask] and [editScheduledTask] belong to the
    scheduled-tasks store, [handleCancel] is the injected ['cancel']
    function (a call to it may throw), and [sampleID] is the value the
    one call [sampleID()] of the setup code returns. *)
Record Externals := {
  ValidateCron : string -> Js.outcome unit;
  addScheduledTask : ScheduledTask.t -> Js.outcome unit;
  editScheduledTask : string -> ScheduledTask.t -> Js.outcome unit;
  handleCancel : Js.outcome unit;
  sampleID : string
}.

(** What the component does to the outside, in order. *)
Inductive event :=
| CallValidateCron (cron : string)
| CallAddScheduledTask (task : ScheduledTask.t)
| CallEditScheduledTask (id : string) (task : ScheduledTask.t)
| CallHandleCancel
| ConsoleError (error : Js.value)
| MessageError (error : Js.value).

(** The refs of the component ([task], [loading]) and the log. *)
Record state := {
  task : ScheduledTask.t;
  loading : bool;
  log : list event
}.

(** *** A state monad for the handlers *)

Definition M (A : Type) : Type := state -> A * state.

Definition ret {A} (a : A) : M A := fun st => (a, st).

Definition bind {A B} (m : M A) (k : A -> M B) : M B :=
  fun st => let (a, st') := m st in k a st'.

Notation "'let*' x ':=' m 'in' k" := (bind m (fun x => k))
  (at level 10, x name, m at level 100, k at level 200).
Notation "m ;; k" := (bind m (fun _ => k))
  (at level 100, k at level 200, right associativity).

Definition get_task : M ScheduledTask.t := fun st => (task st, st).

Definition set_task (t : ScheduledTask.t) : M unit :=
  fun st => (tt, {| task := t; loading := loading st; log := log st |}).

Definition set_loading (b : bool) : M unit :=
  fun st => (tt, {| task := task st; loading := b; log := log st |}).

Definition emit (e : event) : M unit :=
  fun st => (tt, {| task := task st; loading := loading st; log := log st ++ [e] |}).

Definition message_error (error : Js.value) : M unit := emit (MessageError error).
Definition console_error (error : Js.value) : M unit := emit (ConsoleError error).

(** *** Field updates of the task record *)

Definition set_name (v : string) (t : ScheduledTask.t) : ScheduledTask.t :=
  ScheduledTask.mk (ScheduledTask.id t) v (ScheduledTask.type t)
    (ScheduledTask.subscriptions t) (ScheduledTask.rulesets t) (ScheduledTask.plugins t)
    (ScheduledTask.script t) (ScheduledTask.cron t) (ScheduledTask.notification t)
    (ScheduledTask.disabled t) (ScheduledTask.lastTime t).

Definition set_type (v : ScheduledTasksType) (t : ScheduledTask.t) : ScheduledTask.t :=
  ScheduledTask.mk (ScheduledTask.id t) (ScheduledTask.name t) v
    (ScheduledTask.subscriptions t) (ScheduledTask.rulesets t) (ScheduledTask.plugins t)
    (ScheduledTask.script t) (ScheduledTask.cron t) (ScheduledTask.notification t)
    (ScheduledTask.disabled t) (ScheduledTask.lastTime t).

Definition set_subscriptions (v : list string) (t : ScheduledTask.t) : ScheduledTask.t :=
  ScheduledTask.mk (ScheduledTask.id t) (ScheduledTask.name t) (ScheduledTask.type t)
    v (ScheduledTask.rulesets t) (ScheduledTask.plugins t)
    (ScheduledTask.script t) (ScheduledTask.cron t) (ScheduledTask.notification t)
    (ScheduledTask.disabled t) (ScheduledTask.lastTime t).

Definition set_rulesets (v : list string) (t : ScheduledTask.t) : ScheduledTask.t :=
  ScheduledTask.mk (ScheduledTask.id t) (ScheduledTask.name t) (ScheduledTask.type t)
    (ScheduledTask.subscriptions t) v (ScheduledTask.plugins t)
    (ScheduledTask.script t) (ScheduledTask.cron t) (ScheduledTask.notification t)
    (ScheduledTask.disabled t) (ScheduledTask.lastTime t).

Definition set_plugins (v : list string) (t : ScheduledTask.t) : ScheduledTask.t :=
  ScheduledTask.mk (ScheduledTask.id t) (ScheduledTask.name t) (ScheduledTask.type t)
    (ScheduledTask.subscriptions t) (ScheduledTask.rulesets t) v
    (ScheduledTask.script t) (ScheduledTask.cron t) (ScheduledTask.notification t)
    (ScheduledTask.disabled t) (ScheduledTask.lastTime t).

Definition set_script (v : string) (t : ScheduledTask.t) : ScheduledTask.t :=
  ScheduledTask.mk (ScheduledTask.id t) (ScheduledTask.name t) (ScheduledTask.type t)
    (ScheduledTask.subscriptions t) (ScheduledTask.rulesets t) (ScheduledTask.plugins t)
    v (ScheduledTask.cron t) (ScheduledTask.notification t)
    (ScheduledTask.disabled t) (ScheduledTask.lastTime t).

Definition set_cron (v : string) (t : ScheduledTask.t) : ScheduledTask.t :=
  ScheduledTask.mk (ScheduledTask.id t) (ScheduledTask.name t) (ScheduledTask.type t)
    (ScheduledTask.subscriptions t) (ScheduledTask.rulesets t) (ScheduledTask.plugins t)
    (ScheduledTask.script t) v (ScheduledTask.notification t)
    (ScheduledTask.disabled t) (ScheduledTask.lastTime t).

Definition set_notification (v : bool) (t : ScheduledTask.t) : ScheduledTask.t :=
  ScheduledTask.mk (ScheduledTask.id t) (ScheduledTask.name t) (ScheduledTask.type t)
    (ScheduledTask.subscriptions t) (ScheduledTask.rulesets t) (ScheduledTask.plugins t)
    (ScheduledTask.script t) (ScheduledTask.cron t) v
    (ScheduledTask.disabled t) (ScheduledTask.lastTime t).

(** *** handleSubmit *)

(** The [switch (task.value.type)] of [handleSubmit]: the list selected by
    the type is replaced by its filtered copy; [RunScript] matches no
    case. *)
Definition filter_references (store : Store.t) (t : ScheduledTask.t) : ScheduledTask.t :=
  match ScheduledTask.type t with
  | UpdateSubscription =>
      set_subscriptions
        (Js.filter_truthy (Store.getSubscribeById store) (ScheduledTask.subscriptions t)) t
  | UpdateRuleset =>
      set_rulesets
        (Js.filter_truthy (Store.getRulesetById store) (ScheduledTask.rulesets t)) t
  | UpdatePlugin | RunPlugin =>
      set_plugins
        (Js.filter_truthy (Store.getPluginById store) (ScheduledTask.plugins t)) t
  | RunScript => t
  end.

Definition await_ValidateCron (ext : Externals) (cron : string) : M (Js.outcome unit) :=
  emit (CallValidateCron cron) ;; ret (ValidateCron ext cron).

Definition await_addScheduledTask (ext : Externals) (t : ScheduledTask.t)
  : M (Js.outcome unit) :=
  emit (CallAddScheduledTask t) ;; ret (addScheduledTask ext t).

Definition await_editScheduledTask (ext : Externals) (id : string) (t : ScheduledTask.t)
  : M (Js.outcome unit) :=
  emit (CallEditScheduledTask id t) ;; ret (editScheduledTask ext id t).

Definition call_handleCancel (ext : Externals) : M (Js.outcome unit) :=
  emit CallHandleCancel ;; ret (handleCancel ext).

(** The body of the second [try]: the branch on [props.id] (by
    truthiness), then [handleCancel()].  The result says whether control
    reaches the [catch]. *)
Definition try_persist (ext : Externals) (props : Props) : M (Js.outcome unit) :=
  let* t := get_task in
  let* saved :=
    match props_id props with
    | Some id =>
        if Js.truthy id then await_editScheduledTask ext id t
        else await_addScheduledTask ext t
    | None => await_addScheduledTask ext t
    end in
  match saved with
  | Js.Resolved _ => call_handleCancel ext
  | Js.Rejected error => ret (Js.Rejected error)
  end.

Definition handleSubmit (ext : Externals) (props : Props) (store : Store.t) : M unit :=
  let* t := get_task in
  let* validated := await_ValidateCron ext (ScheduledTask.cron t) in
  match validated with
  | Js.Rejected error => message_error error
  | Js.Resolved _ =>
      set_loading true ;;
      (let* t := get_task in set_task (filter_references store t)) ;;
      (let* r := try_persist ext props in
       match r with
       | Js.Resolved _ => ret tt
       | Js.Rejected error => console_error error ;; message_error error
       end) ;;
      set_loading false
  end.

(** *** handleUse *)

Definition handleUse (list : list string) (id : string) : Datatypes.list string :=
  let idx := Js.findIndex (fun v => String.eqb v id) list in
  if negb (idx =? -1) then Js.splice list idx 1 else Js.push list id.

(** *** Setup *)

(** The initial value of the [task] ref. *)
Definition initial_task (ext : Externals) : ScheduledTask.t :=
  {| ScheduledTask.id := sampleID ext;
     ScheduledTask.name := "";
     ScheduledTask.type := RunScript;
     ScheduledTask.subscriptions := [];
     ScheduledTask.rulesets := [];
     ScheduledTask.plugins := [];
     ScheduledTask.script := "";
     ScheduledTask.cron := "";
     ScheduledTask.notification := false;
     ScheduledTask.disabled := false;
     ScheduledTask.lastTime := 0 |}.

(** Modelled from the spec: [deepClone] of [@/utils] returns a copy that
    is equal to its argument as a value.  (That the copy shares no object
    with the original is the subject of the heap model further down.) *)
Definition deepClone (s : ScheduledTask.t) : ScheduledTask.t := s.

(** The state after the setup code of the component has run. *)
Definition setup (ext : Externals) (props : Props) (store : Store.t) : state :=
  let task0 := initial_task ext in
  let task1 :=
    match props_id props with
    | Some id =>
        if Js.truthy id then
          match Store.getScheduledTaskById store id with
          | Some s => deepClone s
          | None => task0
          end
        else task0
    | None => task0
    end in
  {| task := task1; loading := false; log := [] |}.

(** *** The buttons *)

(** [disabled: !task.value.name || !task.value.cron] *)
Definition submit_disabled (st : state) : bool :=
  negb (Js.truthy (ScheduledTask.name (task st)))
  || negb (Js.truthy (ScheduledTask.cron (task st))).

(** [disabled: loading.value] of the cancel button. *)
Definition cancel_disabled (st : state) : bool := loading st.

(** Modelled from the spec: the [Button] component is not part of the
    sources; a disabled button does not call its [onClick]. *)
Definition click_submit (ext : Externals) (props : Props) (store : Store.t) : M unit :=
  fun st => if submit_disabled st then (tt, st) else handleSubmit ext props store st.

(** *** Everything that changes the task record *)

Inductive list_field := Subscriptions | Rulesets | Plugins.

(** The [v-model] bindings of the template, the three [handleUse] click
    handlers, and the filtering done by [handleSubmit]. *)
Inductive mutation :=
| EditName (v : string)
| EditCron (v : string)
| EditType (v : ScheduledTasksType)
| EditNotification (v : bool)
| EditScript (v : string)
| Toggle (f : list_field) (id : string)
| FilterReferences.

Definition mutate (store : Store.t) (m : mutation) (t : ScheduledTask.t) : ScheduledTask.t :=
  match m with
  | EditName v => set_name v t
  | EditCron v => set_cron v t
  | EditType v => set_type v t
  | EditNotification v => set_notification v t
  | EditScript v => set_script v t
  | Toggle Subscriptions id =>
      set_subscriptions (handleUse (ScheduledTask.subscriptions t) id) t
  | Toggle Rulesets id => set_rulesets (handleUse (ScheduledTask.rulesets t) id) t
  | Toggle Plugins id => set_plugins (handleUse (ScheduledTask.plugins t) id) t
  | FilterReferences => filter_references store t
  end.

(** *** Reading the log *)

Definition is_persist (e : event) : bool :=
  match e with
  | CallAddScheduledTask _ | CallEditScheduledTask _ _ => true
  | _ => false
  end.

Definition is_cancel (e : event) : bool :=
  match e with
  | CallHandleCancel => true
  | _ => false
  end.

(** The task records handed to the store, in order. *)
Fixpoint persisted (l : list event) : list ScheduledTask.t :=
  match l with
  | [] => []
  | CallAddScheduledTask t :: l' => t :: persisted l'
  | CallEditScheduledTask _ t :: l' => t :: persisted l'
  | _ :: l' => persisted l'
  end.

Definition count (p : event -> bool) (l : list event) : nat :=
  length (List.filter p l).

(** The events a handler adds to the log when run from [st]. *)
Definition new_events (m : M unit) (st : state) : list event :=
  drop (length (log st)) (log (snd (m st))).

End Form.

(** ** Objects and references

    The task record of the form and the records of the scheduled-tasks store
    are JavaScript objects, and their three id lists are arrays that
    [handleUse] changes in place.  This model keeps the objects in a heap so
    that sharing between the form and the store can be expressed. *)

Module Heap.

Definition loc := positive.

(** A task object: scalar fields by value, the three arrays by reference. *)
Record task_object := {
  o_id : string;
  o_name : string;
  o_type : ScheduledTasksType;
  o_subscriptions : loc;
  o_rulesets : loc;
  o_plugins : loc;
  o_script : string;
  o_cron : string;
  o_notification : bool;
  o_disabled : bool;
  o_lastTime : Z
}.

Inductive object :=
| ObjTask (o : task_object)
| ObjArray (elements : list string).

Abbreviation heap := (gmap loc object).

Definition read_object (h : heap) (p : loc) : option task_object :=
  match h !! p with
  | Some (ObjTask o) => Some o
  | _ => None
  end.

Definition read_array (h : heap) (a : loc) : option (list string) :=
  match h !! a with
  | Some (ObjArray l) => Some l
  | _ => None
  end.

(** The value a task object stands for. *)
Definition read_task (h : heap) (p : loc) : option ScheduledTask.t :=
  o ← read_object h p;
  subs ← read_array h (o_subscriptions o);
  rules ← read_array h (o_rulesets o);
  plugs ← read_array h (o_plugins o);
  Some (ScheduledTask.mk (o_id o) (o_name o) (o_type o) subs rules plugs
          (o_script o) (o_cron o) (o_notification o) (o_disabled o) (o_lastTime o)).

(** A new object gets a location that is not in use. *)
Definition alloc (h : heap) (v : object) : loc * heap :=
  let l := fresh (dom h) in (l, <[l := v]> h).

Definition with_arrays (subs rules plugs : loc) (o : task_object) : task_object :=
  {| o_id := o_id o; o_name := o_name o; o_type := o_type o;
     o_subscriptions := subs; o_rulesets := rules; o_plugins := plugs;
     o_script := o_script o; o_cron := o_cron o; o_notification := o_notification o;
     o_disabled := o_disabled o; o_lastTime := o_lastTime o |}.

Definition with_scalars (v : ScheduledTask.t) (o : task_object) : task_object :=
  {| o_id := ScheduledTask.id v; o_name := ScheduledTask.name v;
     o_type := ScheduledTask.type v;
     o_subscriptions := o_subscriptions o; o_rulesets := o_rulesets o;
     o_plugins := o_plugins o;
     o_script := ScheduledTask.script v; o_cron := ScheduledTask.cron v;
     o_notification := ScheduledTask.notification v;
     o_disabled := ScheduledTask.disabled v; o_lastTime := ScheduledTask.lastTime v |}.

(** Modelled from the spec: [deepClone] of [@/utils] is not part of the
    sources.  A deep clone copies the object and, recursively, every
    object it refers to: here the task object and its three arrays, each
    into a new location. *)
Definition deepClone (h : heap) (p : loc) : option (loc * heap) :=
  o ← read_object h p;
  subs ← read_array h (o_subscriptions o);
  rules ← read_array h (o_rulesets o);
  plugs ← read_array h (o_plugins o);
  let '(a1, h1) := alloc h (ObjArray subs) in
  let '(a2, h2) := alloc h1 (ObjArray rules) in
  let '(a3, h3) := alloc h2 (ObjArray plugs) in
  Some (alloc h3 (ObjTask (with_arrays a1 a2 a3 o))).

(** A copy of the object alone, as [{ ...s }] would make it: the arrays
    stay shared.  Not what the component does; kept for comparison. *)
Definition shallowClone (h : heap) (p : loc) : option (loc * heap) :=
  o ← read_object h p;
  Some (alloc h (ObjTask o)).

(** Modelled from the spec: [getScheduledTaskById] of the scheduled-tasks
    store returns (a reference to) the stored record with the given id. *)
Fixpoint getScheduledTaskById (h : heap) (scheduledtasks : list loc) (id : string)
  : option loc :=
  match scheduledtasks with
  | [] => None
  | s :: rest =>
      match read_object h s with
      | Some o =>
          if String.eqb (o_id o) id then Some s
          else getScheduledTaskById h rest id
      | None => getScheduledTaskById h rest id
      end
  end.

(** Lines 99-104 of the component: the object the [task] ref points to
    once a stored task has been found for [props.id]. *)
Definition load_task (h : heap) (scheduledtasks : list loc) (props : Form.Props)
  : option (loc * heap) :=
  match Form.props_id props with
  | Some id =>
      if Js.truthy id then
        s ← getScheduledTaskById h scheduledtasks id;
        deepClone h s
      else None
  | None => None
  end.

Definition field_loc (f : Form.list_field) (o : task_object) : loc :=
  match f with
  | Form.Subscriptions => o_subscriptions o
  | Form.Rulesets => o_rulesets o
  | Form.Plugins => o_plugins o
  end.

Definition set_field_loc (f : Form.list_field) (a : loc) (o : task_object) : task_object :=
  match f with
  | Form.Subscriptions => with_arrays a (o_rulesets o) (o_plugins o) o
  | Form.Rulesets => with_arrays (o_subscriptions o) a (o_plugins o) o
  | Form.Plugins => with_arrays (o_subscriptions o) (o_rulesets o) a o
  end.

(** An assignment to a scalar field of the object at [p]. *)
Definition assign (h : heap) (p : loc) (f : ScheduledTask.t -> ScheduledTask.t)
  : option heap :=
  o ← read_object h p;
  v ← read_task h p;
  Some (<[p := ObjTask (with_scalars (f v) o)]> h).

(** [handleUse(task.<f>, id)]: [splice] and [push] change the array that
    the field refers to. *)
Definition handleUse (h : heap) (p : loc) (f : Form.list_field) (id : string)
  : option heap :=
  o ← read_object h p;
  l ← read_array h (field_loc f o);
  Some (<[field_loc f o := ObjArray (Form.handleUse l id)]> h).

(** [task.<f> = task.<f>.filter(...)]: [filter] builds a new array, the
    field is then pointed at it. *)
Definition refilter {B} (h : heap) (p : loc) (f : Form.list_field)
    (lookup : string -> option B) : option heap :=
  o ← read_object h p;
  l ← read_array h (field_loc f o);
  let '(a, h1) := alloc h (ObjArray (Js.filter_truthy lookup l)) in
  Some (<[p := ObjTask (set_field_loc f a o)]> h1).

Definition filter_references (store : Store.t) (h : heap) (p : loc) : option heap :=
  o ← read_object h p;
  match o_type o with
  | UpdateSubscription => refilter h p Form.Subscriptions (Store.getSubscribeById store)
  | UpdateRuleset => refilter h p Form.Rulesets (Store.getRulesetById store)
  | UpdatePlugin | RunPlugin => refilter h p Form.Plugins (Store.getPluginById store)
  | RunScript => Some h
  end.

(** One change of the form's task state, on the object [p] the [task] ref
    points to. *)
Definition mutate (store : Store.t) (p : loc) (m : Form.mutation) (h : heap)
  : option heap :=
  match m with
  | Form.EditName v => assign h p (Form.set_name v)
  | Form.EditCron v => assign h p (Form.set_cron v)
  | Form.EditType v => assign h p (Form.set_type v)
  | Form.EditNotification v => assign h p (Form.set_notification v)
  | Form.EditScript v => assign h p (Form.set_script v)
  | Form.Toggle f id => handleUse h p f id
  | Form.FilterReferences => filter_references store h p
  end.

Fixpoint mutate_all (store : Store.t) (p : loc) (ms : list Form.mutation) (h : heap)
  : option heap :=
  match ms with
  | [] => Some h
  | m :: ms' => h' ← mutate store p m h; mutate_all store p ms' h'
  end.

End Heap.

(** ** The code editor wrapper *)

Module CodeViewer.

Local Open Scope nat_scope.

Inductive Lang := javascript | yaml | json.
Inductive Mode := editor | diff.

(** Props with their defaults applied ([lang: 'json'], [mode: 'editor'],
    [placeholder: '']). *)
Record Props := {
  editable : bool;
  lang : Lang;
  mode : Mode;
  placeholder : string
}.

(** *** CodeMirror: documents, selections, transactions *)

Record range := { anchor : nat; head : nat }.

Definition range_from (r : range) : nat := Nat.min (anchor r) (head r).
Definition range_to (r : range) : nat := Nat.max (anchor r) (head r).

(** The state of one [EditorView]: [state.doc] as text and
    [state.selection.ranges], which is never empty. *)
Record EditorView := {
  doc : string;
  ranges0 : range;
  ranges_rest : list range
}.

Record change := { from : nat; to : nat; insert : string }.

(** A selection as a transaction spells it out: [anchor] and [head] are
    JavaScript numbers and may lie anywhere. *)
Record SelectionSpec := { sel_anchor : Z; sel_head : Z }.

Record TransactionSpec := {
  changes : option change;
  selection : option SelectionSpec
}.

Definition carriage_return : Ascii.ascii := Ascii.ascii_of_nat 13.
Definition line_feed : Ascii.ascii := Ascii.ascii_of_nat 10.

(** Text that enters a document is split at [\r\n], [\r] and [\n] and
    joined with [\n]: what [doc.toString()] returns has no carriage
    return. *)
Fixpoint normalise (s : string) : string :=
  match s with
  | EmptyString => EmptyString
  | String c s' =>
      if Ascii.eqb c carriage_return then
        match s' with
        | String c' s'' =>
            if Ascii.eqb c' line_feed then String line_feed (normalise s'')
            else String line_feed (normalise s')
        | EmptyString => String line_feed EmptyString
        end
      else String c (normalise s')
  end.

(** Replacing the text between [from] and [to]. *)
Definition apply_change (c : change) (d : string) : string :=
  String.append (String.substring 0 (from c) d)
    (String.append (normalise (insert c))
       (String.substring (to c) (String.length d - to c) d)).

(** A change set is empty when it deletes nothing and inserts nothing;
    [update.docChanged] is its negation. *)
Definition docChanged (tr : TransactionSpec) : bool :=
  match changes tr with
  | Some c => negb ((from c =? to c) && String.eqb (insert c) "")
  | None => false
  end.

(** Which view a handler acts on. *)
Inductive view_ref := TheEditor | MergeA | MergeB.

Record MergeView := { a : EditorView; b : EditorView }.

(** *** Prettier *)

Inductive plugin := parserBabel | estreePlugin | parserYaml.

Record FormatOptions := {
  cursorOffset : nat;
  parser : string;
  plugins : list plugin;
  semi : bool;
  tabWidth : nat;
  singleQuote : bool;
  printWidth : nat;
  trailingComma : string
}.

(** The answer of [formatWithCursor]; Prettier reports [-1] when it has no
    cursor position to give. *)
Record Formatted := { formatted : string; formatted_cursorOffset : Z }.

(** The third-party code the component calls.  [formatWithCursor] is
    Prettier's; [mapRange] is how CodeMirror carries a selection range
    across a change when the transaction gives no selection. *)
Record Externals := {
  formatWithCursor : string -> FormatOptions -> Js.outcome Formatted;
  mapRange : change -> range -> range
}.

(** *** The component *)

Inductive event :=
| Dispatch (v : view_ref) (tr : TransactionSpec)
| EmitChange (content : string)
| MessageError (error : Js.value).

(** [model], the two view variables, the call the debounced [onChange] is
    holding back until its timer fires, and the log. *)
Record state := {
  model : string;
  editorView : option EditorView;
  mergeView : option MergeView;
  pending : option string;
  log : list event
}.

Definition get_view (st : state) (v : view_ref) : option EditorView :=
  match v with
  | TheEditor => editorView st
  | MergeA => option_map a (mergeView st)
  | MergeB => option_map b (mergeView st)
  end.

Definition put_view (st : state) (v : view_ref) (view : EditorView) : state :=
  match v with
  | TheEditor =>
      {| model := model st; editorView := Some view; mergeView := mergeView st;
         pending := pending st; log := log st |}
  | MergeA =>
      {| model := model st; editorView := editorView st;
         mergeView := option_map (fun m => {| a := view; b := b m |}) (mergeView st);
         pending := pending st; log := log st |}
  | MergeB =>
      {| model := model st; editorView := editorView st;
         mergeView := option_map (fun m => {| a := a m; b := view |}) (mergeView st);
         pending := pending st; log := log st |}
  end.

Definition emit (e : event) (st : state) : state :=
  {| model := model st; editorView := editorView st; mergeView := mergeView st;
     pending := pending st; log := log st ++ [e] |}.

Definition set_pending (p : option string) (st : state) : state :=
  {| model := model st; editorView := editorView st; mergeView := mergeView st;
     pending := p; log := log st |}.

Definition set_model (content : string) (st : state) : state :=
  {| model := content; editorView := editorView st; mergeView := mergeView st;
     pending := pending st; log := log st |}.

(** [message.error(...)] *)
Definition message_error (error : Js.value) (st : state) : state :=
  emit (MessageError error) st.

(** The message of the [RangeError] for a change outside the document. *)
Definition invalid_change_range (c : change) (d : string) : string :=
  String.append "Invalid change range "
    (String.append (pretty (from c))
       (String.append " to "
          (String.append (pretty (to c))
             (String.append " (in doc of length "
                (String.append (pretty (String.length d)) ")"))))).

(** What a transaction does to a view.  CodeMirror throws a [RangeError]
    when the change lies outside the document or the new selection lies
    outside the new document; the view is then as it was. *)
Definition transact (ext : Externals) (tr : TransactionSpec) (view : EditorView)
  : Js.outcome EditorView :=
  let checked :=
    match changes tr with
    | Some c =>
        if (from c <=? to c) && (to c <=? String.length (doc view))
        then Js.Resolved (apply_change c (doc view))
        else Js.Rejected (Js.VError (invalid_change_range c (doc view)))
    | None => Js.Resolved (doc view)
    end in
  match checked with
  | Js.Rejected error => Js.Rejected error
  | Js.Resolved d =>
      match selection tr with
      | Some s =>
          if (0 <=? Z.min (sel_anchor s) (sel_head s))%Z
             && (Z.max (sel_anchor s) (sel_head s) <=? Z.of_nat (String.length d))%Z
          then Js.Resolved {| doc := d;
                              ranges0 := {| anchor := Z.to_nat (sel_anchor s);
                                            head := Z.to_nat (sel_head s) |};
                              ranges_rest := [] |}
          else Js.Rejected (Js.VError "Selection points outside of document")
      | None =>
          match changes tr with
          | Some c =>
              Js.Resolved {| doc := d; ranges0 := mapRange ext c (ranges0 view);
                             ranges_rest := List.map (mapRange ext c) (ranges_rest view) |}
          | None => Js.Resolved {| doc := d; ranges0 := ranges0 view;
                                   ranges_rest := ranges_rest view |}
          end
      end
  end.

(** A call of the debounced [onChange]: the call is held until the timer
    fires and replaces a call that is still waiting. *)
Definition onChange (content : string) (st : state) : state :=
  set_pending (Some content) st.

(** The update listener every view is created with:
    [if (update.docChanged) onChange(update.state.doc.toString())]. *)
Definition updateListener (tr : TransactionSpec) (view : EditorView) (st : state) : state :=
  if docChanged tr then onChange (doc view) st else st.

(** [view.dispatch(tr)]: an accepted transaction is logged, updates the
    view and runs its update listener; a refused one throws and leaves the
    component as it was. *)
Definition dispatch (ext : Externals) (v : view_ref) (tr : TransactionSpec) (st : state)
  : Js.outcome state :=
  match get_view st v with
  | None => Js.Rejected (Js.VError "Cannot read properties of undefined")
  | Some view =>
      match transact ext tr view with
      | Js.Rejected error => Js.Rejected error
      | Js.Resolved view' =>
          Js.Resolved (updateListener tr view' (put_view (emit (Dispatch v tr) st) v view'))
      end
  end.

(** The [parser] and [plugins] tables of [formatDoc], indexed by
    [props.lang]. *)
Definition parser_of (l : Lang) : string :=
  match l with
  | javascript => "babel"
  | yaml => "yaml"
  | json => "json"
  end.

Definition plugins_of (l : Lang) : list plugin :=
  match l with
  | javascript => [parserBabel; estreePlugin]
  | yaml => [parserYaml]
  | json => [parserBabel; estreePlugin]
  end.

Definition format_options (props : Props) (cursor : nat) : FormatOptions :=
  {| cursorOffset := cursor;
     parser := parser_of (lang props);
     plugins := plugins_of (lang props);
     semi := false;
     tabWidth := 2;
     singleQuote := true;
     printWidth := 160;
     trailingComma := "none" |}.

(** The transaction [formatDoc] dispatches. *)
Definition format_transaction (content : string) (r : Formatted) : TransactionSpec :=
  {| changes := Some {| from := 0; to := String.length content; insert := formatted r |};
     selection := Some {| sel_anchor := formatted_cursorOffset r;
                          sel_head := formatted_cursorOffset r |} |}.

(** What [formatDoc] does once the promise of Prettier has settled, on the
    component as it is at that moment: the rest of the [try] and the
    [catch].  [content] and [cursor] are the values read before the
    [await]; a rejection of Prettier and a throw of [dispatch] both end in
    the [catch]. *)
Definition formatDoc_resume (ext : Externals) (props : Props) (v : view_ref)
    (content : string) (cursor : nat) (st : state) : state :=
  let attempt :=
    match formatWithCursor ext content (format_options props cursor) with
    | Js.Rejected error => Js.Rejected error
    | Js.Resolved r =>
        if negb (String.eqb content (formatted r))
        then dispatch ext v (format_transaction content r) st
        else Js.Resolved st
    end in
  match attempt with
  | Js.Resolved st' => st'
  | Js.Rejected error => message_error (Js.message_or_self error) st
  end.

(** [formatDoc(view)], with [v] naming the view the key binding ran in:
    the document and the cursor are read, then the call waits for
    Prettier.  [meanwhile] is what other handlers do to the component
    during the wait. *)
Definition formatDoc_during (ext : Externals) (props : Props) (v : view_ref)
    (meanwhile : state -> state) (st : state) : state :=
  match get_view st v with
  | None => st
  | Some view =>
      formatDoc_resume ext props v (doc view) (range_from (ranges0 view)) (meanwhile st)
  end.

(** [formatDoc(view)] when nothing else happens during the wait. *)
Definition formatDoc (ext : Externals) (props : Props) (v : view_ref) (st : state) : state :=
  formatDoc_during ext props v (fun st' => st') st.

(** [editorView || mergeView?.b] *)
Definition watched_view (st : state) : option view_ref :=
  match editorView st with
  | Some _ => Some TheEditor
  | None =>
      match mergeView st with
      | Some _ => Some MergeB
      | None => None
      end
  end.

(** The transaction the model watcher dispatches. *)
Definition model_transaction (view : EditorView) (content : string) : TransactionSpec :=
  {| changes := Some {| from := 0; to := String.length (doc view); insert := content |};
     selection := None |}.

(** The callback of [watch(model, ...)].  An exception of [dispatch]
    would leave the callback without further effect. *)
Definition watch_model (ext : Externals) (content : string) (st : state) : state :=
  match watched_view st with
  | Some v =>
      match get_view st v with
      | Some view =>
          if negb (String.eqb content (doc view))
          then
            match dispatch ext v (model_transaction view content) st with
            | Js.Resolved st' => st'
            | Js.Rejected _ => st
            end
          else st
      | None => st
      end
  | None => st
  end.

(** An assignment to [model.value], from the parent or from [onChange]:
    Vue runs the watcher only when the value has changed. *)
Definition assign_model (ext : Externals) (content : string) (st : state) : state :=
  if String.eqb content (model st) then st
  else watch_model ext content (set_model content st).

(** The timer of the debounced [onChange] fires and the function it wraps
    runs: [model.value = content; emit('change', content)]; the watcher,
    if triggered, runs after the handler. *)
Definition timer_fires (ext : Externals) (st : state) : state :=
  match pending st with
  | None => st
  | Some content =>
      let st1 := set_pending None st in
      let changed := negb (String.eqb content (model st1)) in
      let st2 := emit (EmitChange content) (set_model content st1) in
      if changed then watch_model ext content st2 else st2
  end.

(** A change made inside the editor (typing, pasting, undo): CodeMirror
    dispatches the transaction itself; a rejected one changes nothing. *)
Definition editor_change (ext : Externals) (v : view_ref) (tr : TransactionSpec)
    (st : state) : state :=
  match dispatch ext v tr st with
  | Js.Resolved st' => st'
  | Js.Rejected _ => st
  end.

Fixpoint timer_fires_n (ext : Externals) (n : nat) (st : state) : state :=
  match n with
  | O => st
  | S n' => timer_fires_n ext n' (timer_fires ext st)
  end.

Definition is_dispatch (e : event) : bool :=
  match e with
  | Dispatch _ _ => true
  | _ => false
  end.

Definition dispatches (st : state) : list event := List.filter is_dispatch (log st).

End CodeViewer.

(** ** Reference definitions *)

Module Reference.

(** Removal of the first occurrence of [id], by recursion on the list. *)
Fixpoint remove_first (id : string) (l : list string) : list string :=
  match l with
  | [] => []
  | v :: l' => if String.eqb v id then l' else v :: remove_first id l'
  end.

(** The elements of [l] other than [id], in order. *)
Definition others (id : string) (l : list string) : list string :=
  List.filter (fun v => negb (String.eqb v id)) l.

(** An id refers to an entry that exists in its collection. *)
Definition existing_subscription (store : Store.t) (id : string) : Prop :=
  id ∈ List.map Store.sub_id (Store.subscribes store).

Definition existing_ruleset (store : Store.t) (id : string) : Prop :=
  id ∈ List.map Store.rs_id (Store.rulesets store).

Definition existing_plugin (store : Store.t) (id : string) : Prop :=
  id ∈ List.map Store.pl_id (Store.plugins store).

(** Each of the three id lists of [t] holds ids of existing entries only. *)
Definition all_references_exist (store : Store.t) (t : ScheduledTask.t) : Prop :=
  Forall (existing_subscription store) (ScheduledTask.subscriptions t)
  ∧ Forall (existing_ruleset store) (ScheduledTask.rulesets t)
  ∧ Forall (existing_plugin store) (ScheduledTask.plugins t).

(** The id list that belongs to the type of [t] holds ids of existing
    entries only; a task that runs a script has no such list. *)
Definition selected_references_exist (store : Store.t) (t : ScheduledTask.t) : Prop :=
  match ScheduledTask.type t with
  | UpdateSubscription =>
      Forall (existing_subscription store) (ScheduledTask.subscriptions t)
  | UpdateRuleset => Forall (existing_ruleset store) (ScheduledTask.rulesets t)
  | UpdatePlugin | RunPlugin => Forall (existing_plugin store) (ScheduledTask.plugins t)
  | RunScript => True
  end.

(** The lists that do not belong to the type of the task are the same in
    [t'] as in [t]. *)
Definition other_references_kept (t t' : ScheduledTask.t) : Prop :=
  match ScheduledTask.type t with
  | UpdateSubscription =>
      ScheduledTask.rulesets t' = ScheduledTask.rulesets t
      ∧ ScheduledTask.plugins t' = ScheduledTask.plugins t
  | UpdateRuleset =>
      ScheduledTask.subscriptions t' = ScheduledTask.subscriptions t
      ∧ ScheduledTask.plugins t' = ScheduledTask.plugins t
  | UpdatePlugin | RunPlugin =>
      ScheduledTask.subscriptions t' = ScheduledTask.subscriptions t
      ∧ ScheduledTask.rulesets t' = ScheduledTask.rulesets t
  | RunScript => t' = t
  end.

(** The answer of the scheduled-tasks store to the call the form makes
    for [t]: [editScheduledTask] for a truthy [props.id], else
    [addScheduledTask]. *)
Definition store_outcome (ext : Form.Externals) (props : Form.Props) (t : ScheduledTask.t)
  : Js.outcome unit :=
  match Form.props_id props with
  | Some id =>
      if Js.truthy id then Form.editScheduledTask ext id t
      else Form.addScheduledTask ext t
  | None => Form.addScheduledTask ext t
  end.

(** The call that goes with it. *)
Definition store_call (props : Form.Props) (t : ScheduledTask.t) : Form.event :=
  match Form.props_id props with
  | Some id =>
      if Js.truthy id then Form.CallEditScheduledTask id t
      else Form.CallAddScheduledTask t
  | None => Form.CallAddScheduledTask t
  end.

(** What follows a call of [handleCancel()]: nothing, or the [catch]
    block if the call threw. *)
Definition after_cancel (ext : Form.Externals) : list Form.event :=
  match Form.handleCancel ext with
  | Js.Resolved _ => []
  | Js.Rejected error => [Form.ConsoleError error; Form.MessageError error]
  end.

(** The form's task object [p] in heap [h] is separate from everything
    that existed in [h0]: the objects of [h0] are as they were, and
    neither [p] nor one of its three arrays is an object of [h0]; the
    three arrays are distinct objects. *)
Definition isolated (h0 h : Heap.heap) (p : Heap.loc) : Prop :=
  (∀ l, l ∈ dom h0 → h !! l = h0 !! l)
  ∧ (p ∉ dom h0)
  ∧ ∃ o, Heap.read_object h p = Some o
         ∧ (Heap.o_subscriptions o ∉ dom h0)
         ∧ (Heap.o_rulesets o ∉ dom h0)
         ∧ (Heap.o_plugins o ∉ dom h0)
         ∧ NoDup [Heap.o_subscriptions o; Heap.o_rulesets o; Heap.o_plugins o].

(** Assignments to scalar fields leave the three lists alone. *)
Definition keeps_lists (f : ScheduledTask.t → ScheduledTask.t) : Prop :=
  ∀ v, ScheduledTask.subscriptions (f v) = ScheduledTask.subscriptions v
       ∧ ScheduledTask.rulesets (f v) = ScheduledTask.rulesets v
       ∧ ScheduledTask.plugins (f v) = ScheduledTask.plugins v.

(** The value-level counterpart of writing a list field. *)
Definition set_list (f : Form.list_field) (l : list string) (v : ScheduledTask.t)
  : ScheduledTask.t :=
  match f with
  | Form.Subscriptions => Form.set_subscriptions l v
  | Form.Rulesets => Form.set_rulesets l v
  | Form.Plugins => Form.set_plugins l v
  end.

Definition get_list (f : Form.list_field) (v : ScheduledTask.t) : list string :=
  match f with
  | Form.Subscriptions => ScheduledTask.subscriptions v
  | Form.Rulesets => ScheduledTask.rulesets v
  | Form.Plugins => ScheduledTask.plugins v
  end.

(** The editor has nothing new for the watcher: no [onChange] call is
    waiting, or the waiting call carries the text of the watched view. *)
Definition settled (st : CodeViewer.state) : Prop :=
  match CodeViewer.pending st with
  | None => True
  | Some content =>
      ∀ v view,
        CodeViewer.watched_view st = Some v →
        CodeViewer.get_view st v = Some view →
        CodeViewer.doc view = content
  end.

(** Running a list of changes on a task value. *)
Definition mutate_all (store : Store.t) (ms : list Form.mutation) (t : ScheduledTask.t)
  : ScheduledTask.t :=
  fold_left (fun t m => Form.mutate store m t) ms t.

End Reference.

(** ** Concrete stores, tasks and collaborators *)

Module Sample.

Definition store : Store.t :=
  {| Store.subscribes :=
       [ {| Store.sub_id := "s1"; Store.sub_name := "main"; Store.sub_type := "Http" |} ];
     Store.rulesets :=
       [ {| Store.rs_id := "r1"; Store.rs_tag := "ads"; Store.rs_type := "Http" |} ];
     Store.plugins :=
       [ {| Store.pl_id := "p1"; Store.pl_name := "sync"; Store.pl_type := "Http";
            Store.pl_description := "keeps things in sync" |} ];
     Store.scheduledtasks := [] |}.

(** A subscription task that still refers to a deleted subscription. *)
Definition update_task : ScheduledTask.t :=
  {| ScheduledTask.id := "t1"; ScheduledTask.name := "nightly";
     ScheduledTask.type := UpdateSubscription;
     ScheduledTask.subscriptions := ["s1"; "gone"];
     ScheduledTask.rulesets := []; ScheduledTask.plugins := [];
     ScheduledTask.script := ""; ScheduledTask.cron := "0 0 3 * * *";
     ScheduledTask.notification := false; ScheduledTask.disabled := false;
     ScheduledTask.lastTime := 0 |}.

(** A script task whose subscription list was filled while the task had
    another type. *)
Definition script_task : ScheduledTask.t :=
  {| ScheduledTask.id := "t2"; ScheduledTask.name := "cleanup";
     ScheduledTask.type := RunScript;
     ScheduledTask.subscriptions := ["gone"];
     ScheduledTask.rulesets := []; ScheduledTask.plugins := [];
     ScheduledTask.script := "return 1"; ScheduledTask.cron := "0 0 3 * * *";
     ScheduledTask.notification := false; ScheduledTask.disabled := false;
     ScheduledTask.lastTime := 0 |}.

Definition form (t : ScheduledTask.t) : Form.state :=
  {| Form.task := t; Form.loading := false; Form.log := [] |}.

(** Every collaborator succeeds. *)
Definition accepting : Form.Externals :=
  {| Form.ValidateCron := fun _ => Js.Resolved tt;
     Form.addScheduledTask := fun _ => Js.Resolved tt;
     Form.editScheduledTask := fun _ _ => Js.Resolved tt;
     Form.handleCancel := Js.Resolved tt;
     Form.sampleID := "ID_k3x9q2" |}.

(** The bridge rejects the cron expression. *)
Definition bad_cron : Form.Externals :=
  {| Form.ValidateCron := fun _ => Js.Rejected (Js.VString "invalid cron expression");
     Form.addScheduledTask := fun _ => Js.Resolved tt;
     Form.editScheduledTask := fun _ _ => Js.Resolved tt;
     Form.handleCancel := Js.Resolved tt;
     Form.sampleID := "ID_k3x9q2" |}.

(** The store cannot write the tasks file. *)
Definition failing_store : Form.Externals :=
  {| Form.ValidateCron := fun _ => Js.Resolved tt;
     Form.addScheduledTask := fun _ => Js.Rejected (Js.VString "write failed");
     Form.editScheduledTask := fun _ _ => Js.Rejected (Js.VString "write failed");
     Form.handleCancel := Js.Resolved tt;
     Form.sampleID := "ID_k3x9q2" |}.

(** A heap with one stored task, [update_task], and its three arrays. *)
Definition stored_object : Heap.task_object :=
  {| Heap.o_id := "t1"; Heap.o_name := "nightly"; Heap.o_type := UpdateSubscription;
     Heap.o_subscriptions := 2%positive; Heap.o_rulesets := 3%positive;
     Heap.o_plugins := 4%positive;
     Heap.o_script := ""; Heap.o_cron := "0 0 3 * * *";
     Heap.o_notification := false; Heap.o_disabled := false; Heap.o_lastTime := 0 |}.

Definition heap : Heap.heap :=
  <[1%positive := Heap.ObjTask stored_object]>
    (<[2%positive := Heap.ObjArray ["s1"; "gone"]%string]>
       (<[3%positive := Heap.ObjArray []]>
          (<[4%positive := Heap.ObjArray []]> ∅))).

Definition scheduledtasks : list Heap.loc := [1%positive].

(** An editor on a YAML document, with a formatter that knows two
    documents and rejects every other text. *)
Definition yaml_props : CodeViewer.Props :=
  {| CodeViewer.editable := true; CodeViewer.lang := CodeViewer.yaml;
     CodeViewer.mode := CodeViewer.editor; CodeViewer.placeholder := "" |}.

Definition prettier : CodeViewer.Externals :=
  {| CodeViewer.formatWithCursor := fun content _ =>
       if String.eqb content "a:   1"
       then Js.Resolved {| CodeViewer.formatted := "a: 1";
                           CodeViewer.formatted_cursorOffset := 2 |}
       else if String.eqb content "a: 1"
       then Js.Resolved {| CodeViewer.formatted := "a: 1";
                           CodeViewer.formatted_cursorOffset := 0 |}
       else Js.Rejected (Js.VError "Nested mappings are not allowed");
     CodeViewer.mapRange := fun _ r => r |}.

Definition view_of (d : string) : CodeViewer.EditorView :=
  {| CodeViewer.doc := d;
     CodeViewer.ranges0 := {| CodeViewer.anchor := 0; CodeViewer.head := 0 |};
     CodeViewer.ranges_rest := [] |}.

Definition editor_on (model d : string) : CodeViewer.state :=
  {| CodeViewer.model := model;
     CodeViewer.editorView := Some (view_of d);
     CodeViewer.mergeView := None;
     CodeViewer.pending := None;
     CodeViewer.log := [] |}.

Definition no_id : Form.Props := {| Form.props_id := None |}.
Definition with_id (id : string) : Form.Props := {| Form.props_id := Some id |}.

End Sample.

(** ** The template of ScheduledTaskForm.vue *)

Module Template.

(** [Array.prototype.includes] on an array of strings. *)
Fixpoint includes (l : list string) (id : string) : bool :=
  match l with
  | [] => false
  | v :: l' => String.eqb v id || includes l' id
  end.

(** The blocks of the [v-if] / [v-else-if] chain on [task.type]. *)
Inductive section :=
| SubscriptionsSection
| RulesetsSection
| UpdatePluginsSection
| RunPluginsSection
| ScriptSection.

Definition visible_section (type : ScheduledTasksType) : section :=
  match type with
  | UpdateSubscription => SubscriptionsSection
  | UpdateRuleset => RulesetsSection
  | UpdatePlugin => UpdatePluginsSection
  | RunPlugin => RunPluginsSection
  | RunScript => ScriptSection
  end.

(** The list of the task that the cards of a section show and toggle. *)
Definition section_field (s : section) : option Form.list_field :=
  match s with
  | SubscriptionsSection => Some Form.Subscriptions
  | RulesetsSection => Some Form.Rulesets
  | UpdatePluginsSection | RunPluginsSection => Some Form.Plugins
  | ScriptSection => None
  end.

Definition field_list (f : Form.list_field) (t : ScheduledTask.t) : list string :=
  match f with
  | Form.Subscriptions => ScheduledTask.subscriptions t
  | Form.Rulesets => ScheduledTask.rulesets t
  | Form.Plugins => ScheduledTask.plugins t
  end.

(** One [Card] of a [v-for]. *)
Record Card := {
  key : string;
  title : string;
  selected : bool;
  text : string
}.

(** The cards of the visible section: one per entry of the store
    collection, selected when the task's list includes the entry's id. *)
Definition cards (store : Store.t) (t : ScheduledTask.t) : list Card :=
  match visible_section (ScheduledTask.type t) with
  | SubscriptionsSection =>
      List.map (fun s => {| key := Store.sub_id s; title := Store.sub_name s;
                            selected := includes (ScheduledTask.subscriptions t)
                                          (Store.sub_id s);
                            text := Store.sub_type s |})
        (Store.subscribes store)
  | RulesetsSection =>
      List.map (fun r => {| key := Store.rs_id r; title := Store.rs_tag r;
                            selected := includes (ScheduledTask.rulesets t) (Store.rs_id r);
                            text := Store.rs_type r |})
        (Store.rulesets store)
  | UpdatePluginsSection =>
      List.map (fun p => {| key := Store.pl_id p; title := Store.pl_name p;
                            selected := includes (ScheduledTask.plugins t) (Store.pl_id p);
                            text := Store.pl_type p |})
        (Store.plugins store)
  | RunPluginsSection =>
      List.map (fun p => {| key := Store.pl_id p; title := Store.pl_name p;
                            selected := includes (ScheduledTask.plugins t) (Store.pl_id p);
                            text := Store.pl_description p |})
        (Store.plugins store)
  | ScriptSection => []
  end.

(** [<Empty v-if="... .length === 0" />] of the visible section. *)
Definition shows_empty (store : Store.t) (t : ScheduledTask.t) : bool :=
  match visible_section (ScheduledTask.type t) with
  | SubscriptionsSection => (length (Store.subscribes store) =? 0)%nat
  | RulesetsSection => (length (Store.rulesets store) =? 0)%nat
  | UpdatePluginsSection | RunPluginsSection => (length (Store.plugins store) =? 0)%nat
  | ScriptSection => false
  end.

(** What the user can do in the form: type into the two inputs, pick a
    type, flip the notification switch, edit the script (the editor is
    rendered in the script section only) and click a card. *)
Inductive action :=
| InputName (v : string)
| InputCron (v : string)
| PickType (v : ScheduledTasksType)
| SwitchNotification (v : bool)
| InputScript (v : string)
| ClickCard (key : string).

(** The [@click] of the card with the given key, if the visible section
    has such a card: [handleUse] on the list of that section. *)
Definition click_card (store : Store.t) (k : string) (t : ScheduledTask.t)
  : ScheduledTask.t :=
  if includes (List.map key (cards store t)) k then
    match section_field (visible_section (ScheduledTask.type t)) with
    | Some f => Form.mutate store (Form.Toggle f k) t
    | None => t
    end
  else t.

Definition act (store : Store.t) (a : action) (t : ScheduledTask.t) : ScheduledTask.t :=
  match a with
  | InputName v => Form.mutate store (Form.EditName v) t
  | InputCron v => Form.mutate store (Form.EditCron v) t
  | PickType v => Form.mutate store (Form.EditType v) t
  | SwitchNotification v => Form.mutate store (Form.EditNotification v) t
  | InputScript v =>
      match visible_section (ScheduledTask.type t) with
      | ScriptSection => Form.mutate store (Form.EditScript v) t
      | _ => t
      end
  | ClickCard k => click_card store k t
  end.

Definition act_all (store : Store.t) (actions : list action) (t : ScheduledTask.t)
  : ScheduledTask.t :=
  fold_left (fun t a => act store a t) actions t.

(** A task whose three lists are free of duplicates and hold ids of
    existing entries only. *)
Definition tidy (store : Store.t) (t : ScheduledTask.t) : Prop :=
  Reference.all_references_exist store t
  ∧ NoDup (ScheduledTask.subscriptions t)
  ∧ NoDup (ScheduledTask.rulesets t)
  ∧ NoDup (ScheduledTask.plugins t).

End Template.

(** ** Mounting the editor and following the application theme *)

Module Lifecycle.

(** The extensions a view is created with. *)
Inductive extension :=
| BasicSetup
| Keymap
| LineWrapping
| PlaceholderText (text : string)
| ThemeCompartment (dark : bool)
| Autocompletion
| JsonLinter
| Language (l : CodeViewer.Lang)
| UpdateListener
| Editable (b : bool).

(** The [extensions] array of [initEditor].  [dark] stands for
    [appSettings.themeMode === Theme.Dark]; the key map holds
    [indentWithTab] and the binding of Shift-Alt-f to [formatDoc]. *)
Definition extensions (props : CodeViewer.Props) (dark : bool) : list extension :=
  [BasicSetup; Keymap; LineWrapping;
   PlaceholderText (CodeViewer.placeholder props);
   ThemeCompartment dark]
  ++ match CodeViewer.lang props with
     | CodeViewer.javascript => [Autocompletion]
     | _ => []
     end
  ++ match CodeViewer.lang props with
     | CodeViewer.json => [JsonLinter]
     | _ => []
     end
  ++ [Language (CodeViewer.lang props)]
  ++ [UpdateListener].

(** The component together with the theme of the application and the
    extensions each view runs with. *)
Record state := {
  component : CodeViewer.state;
  themeMode_dark : bool;
  config_editor : option (list extension);
  config_a : option (list extension);
  config_b : option (list extension)
}.

Definition config (st : state) (v : CodeViewer.view_ref) : option (list extension) :=
  match v with
  | CodeViewer.TheEditor => config_editor st
  | CodeViewer.MergeA => config_a st
  | CodeViewer.MergeB => config_b st
  end.

Definition with_component (c : CodeViewer.state) (st : state) : state :=
  {| component := c; themeMode_dark := themeMode_dark st;
     config_editor := config_editor st; config_a := config_a st;
     config_b := config_b st |}.

(** A view as [new EditorView({ doc })] creates it: the document is the
    text with its line breaks normalised, the cursor is at its start. *)
Definition new_view (d : string) : CodeViewer.EditorView :=
  {| CodeViewer.doc := CodeViewer.normalise d;
     CodeViewer.ranges0 := {| CodeViewer.anchor := 0; CodeViewer.head := 0 |};
     CodeViewer.ranges_rest := [] |}.

(** [initEditor]: one editable view in editor mode, a merge view with a
    read-only side [a] in diff mode; every document is [model.value]. *)
Definition initEditor (props : CodeViewer.Props) (st : state) : state :=
  let exts := extensions props (themeMode_dark st) in
  let c := component st in
  match CodeViewer.mode props with
  | CodeViewer.editor =>
      {| component :=
           {| CodeViewer.model := CodeViewer.model c;
              CodeViewer.editorView := Some (new_view (CodeViewer.model c));
              CodeViewer.mergeView := CodeViewer.mergeView c;
              CodeViewer.pending := CodeViewer.pending c;
              CodeViewer.log := CodeViewer.log c |};
         themeMode_dark := themeMode_dark st;
         config_editor := Some (exts ++ [Editable (CodeViewer.editable props)]);
         config_a := config_a st;
         config_b := config_b st |}
  | CodeViewer.diff =>
      {| component :=
           {| CodeViewer.model := CodeViewer.model c;
              CodeViewer.editorView := CodeViewer.editorView c;
              CodeViewer.mergeView :=
                Some {| CodeViewer.a := new_view (CodeViewer.model c);
                        CodeViewer.b := new_view (CodeViewer.model c) |};
              CodeViewer.pending := CodeViewer.pending c;
              CodeViewer.log := CodeViewer.log c |};
         themeMode_dark := themeMode_dark st;
         config_editor := config_editor st;
         config_a := Some (exts ++ [Editable false]);
         config_b := Some (exts ++ [Editable (CodeViewer.editable props)]) |}
  end.

(** [themeCompartment.reconfigure(...)] applied to the extensions of a
    view. *)
Definition reconfigure (dark : bool) (exts : list extension) : list extension :=
  List.map (fun e => match e with
                     | ThemeCompartment _ => ThemeCompartment dark
                     | _ => e
                     end) exts.

(** The transaction of the theme watcher changes no text and no
    selection; it carries the reconfiguration as an effect. *)
Definition theme_transaction : CodeViewer.TransactionSpec :=
  {| CodeViewer.changes := None; CodeViewer.selection := None |}.

Definition reconfigure_view (ext : CodeViewer.Externals) (dark : bool)
    (v : CodeViewer.view_ref) (st : state) : Js.outcome state :=
  match CodeViewer.dispatch ext v theme_transaction (component st) with
  | Js.Rejected error => Js.Rejected error
  | Js.Resolved c =>
      Js.Resolved
        match v with
        | CodeViewer.TheEditor =>
            {| component := c; themeMode_dark := themeMode_dark st;
               config_editor := option_map (reconfigure dark) (config_editor st);
               config_a := config_a st; config_b := config_b st |}
        | CodeViewer.MergeA =>
            {| component := c; themeMode_dark := themeMode_dark st;
               config_editor := config_editor st;
               config_a := option_map (reconfigure dark) (config_a st);
               config_b := config_b st |}
        | CodeViewer.MergeB =>
            {| component := c; themeMode_dark := themeMode_dark st;
               config_editor := config_editor st; config_a := config_a st;
               config_b := option_map (reconfigure dark) (config_b st) |}
        end
  end.

(** The callback of [watch(() => appSettings.themeMode, ...)]:
    [editorView ? [editorView] : [mergeView.a, mergeView.b]], then a
    dispatch to each view.  With neither view created, reading
    [mergeView.a] throws. *)
Definition watch_theme (ext : CodeViewer.Externals) (dark : bool) (st : state)
  : Js.outcome state :=
  match CodeViewer.editorView (component st) with
  | Some _ => reconfigure_view ext dark CodeViewer.TheEditor st
  | None =>
      match CodeViewer.mergeView (component st) with
      | None => Js.Rejected (Js.VError "Cannot read properties of undefined")
      | Some _ =>
          match reconfigure_view ext dark CodeViewer.MergeA st with
          | Js.Rejected error => Js.Rejected error
          | Js.Resolved st1 => reconfigure_view ext dark CodeViewer.MergeB st1
          end
      end
  end.

(** The theme of the application changes: the watcher runs when the value
    is a new one; an exception ends the callback. *)
Definition themeMode_changes (ext : CodeViewer.Externals) (dark : bool) (st : state)
  : state :=
  if Bool.eqb dark (themeMode_dark st) then st
  else
    let st1 := {| component := component st; themeMode_dark := dark;
                  config_editor := config_editor st; config_a := config_a st;
                  config_b := config_b st |} in
    match watch_theme ext dark st1 with
    | Js.Resolved st' => st'
    | Js.Rejected _ => st1
    end.

(** What happens to a component during its life. *)
Inductive step :=
| Mounted
| ThemeModeChanges (dark : bool)
| ModelAssigned (content : string)
| TimerFires
| EditorChange (v : CodeViewer.view_ref) (tr : CodeViewer.TransactionSpec)
| FormatKey (v : CodeViewer.view_ref).

Definition run_step (ext : CodeViewer.Externals) (props : CodeViewer.Props)
    (s : step) (st : state) : state :=
  match s with
  | Mounted => initEditor props st
  | ThemeModeChanges dark => themeMode_changes ext dark st
  | ModelAssigned content =>
      with_component (CodeViewer.assign_model ext content (component st)) st
  | TimerFires => with_component (CodeViewer.timer_fires ext (component st)) st
  | EditorChange v tr =>
      with_component (CodeViewer.editor_change ext v tr (component st)) st
  | FormatKey v => with_component (CodeViewer.formatDoc ext props v (component st)) st
  end.

Definition run (ext : CodeViewer.Externals) (props : CodeViewer.Props)
    (steps : list step) (st : state) : state :=
  fold_left (fun st s => run_step ext props s st) steps st.

(** The component before [initEditor] has run. *)
Definition unmounted (model : string) (dark : bool) : state :=
  {| component :=
       {| CodeViewer.model := model; CodeViewer.editorView := None;
          CodeViewer.mergeView := None; CodeViewer.pending := None;
          CodeViewer.log := [] |};
     themeMode_dark := dark;
     config_editor := None; config_a := None; config_b := None |}.

(** Which of the two view variables are set. *)
Definition shape (c : CodeViewer.state) : bool * bool :=
  (match CodeViewer.editorView c with Some _ => true | None => false end,
   match CodeViewer.mergeView c with Some _ => true | None => false end).

(** The theme flags among the extensions of a view. *)
Fixpoint theme_flags (exts : list extension) : list bool :=
  match exts with
  | [] => []
  | ThemeCompartment dark :: rest => dark :: theme_flags rest
  | _ :: rest => theme_flags rest
  end.

(** The [EditorView.editable] settings among the extensions of a view. *)
Fixpoint editable_flags (exts : list extension) : list bool :=
  match exts with
  | [] => []
  | Editable b :: rest => b :: editable_flags rest
  | _ :: rest => editable_flags rest
  end.

(** Side [a] of a diff is read-only; the other views follow
    [props.editable]. *)
Definition expected_editable (props : CodeViewer.Props) (v : CodeViewer.view_ref) : bool :=
  match v with
  | CodeViewer.MergeA => false
  | _ => CodeViewer.editable props
  end.

(** Views and configurations go together, only the views of the mode
    exist, and every view runs with the theme of the application. *)
Definition coherent (props : CodeViewer.Props) (st : state) : Prop :=
  (∀ v, is_Some (config st v) ↔ is_Some (CodeViewer.get_view (component st) v))
  ∧ match CodeViewer.mode props with
    | CodeViewer.editor => CodeViewer.mergeView (component st) = None
    | CodeViewer.diff => CodeViewer.editorView (component st) = None
    end
  ∧ ∀ v exts, config st v = Some exts → theme_flags exts = [themeMode_dark st].

End Lifecycle.

(** ** A store that holds scheduled tasks *)

Module Fixture.

Definition stored_task : ScheduledTask.t :=
  Form.set_subscriptions ["s1"%string] Sample.update_task.

Definition store : Store.t :=
  {| Store.subscribes := Store.subscribes Sample.store;
     Store.rulesets := Store.rulesets Sample.store;
     Store.plugins := Store.plugins Sample.store;
     Store.scheduledtasks := [stored_task; Sample.script_task] |}.




(** Two lines separated by a carriage return and a line feed. *)
Definition windows_lines : string :=
  String.append "a"
    (String CodeViewer.carriage_return (String CodeViewer.line_feed "b")).


End Fixture.

(** * Properties of the scheduled-task form *)

(** ** handleUse *)

Section HandleUse.

Implicit Types (l : list string) (id : string).

Lemma findIndex_from_found id l1 l2 i :
  id ∉ l1 →
  Js.findIndex_from (fun v => String.eqb v id) (l1 ++ id :: l2) i
  = i + Z.of_nat (length l1).
Proof.
  revert i. induction l1 as [|v l1 IH]; intros i Hnot; simpl.
  - rewrite String.eqb_refl. lia.
  - apply not_elem_of_cons in Hnot as [Hne Hnot].
    destruct (String.eqb_spec v id) as [->|_]; [done|].
    rewrite IH by done. lia.
Qed.

Lemma findIndex_from_missing id l i :
  id ∉ l → Js.findIndex_from (fun v => String.eqb v id) l i = -1.
Proof.
  revert i. induction l as [|v l IH]; intros i Hnot; simpl; [done|].
  apply not_elem_of_cons in Hnot as [Hne Hnot].
  destruct (String.eqb_spec v id) as [->|_]; [done|]. by apply IH.
Qed.

(** [splice(idx, 1)] at a valid index drops exactly that element. *)
Lemma splice_one {A} (xs ys : list A) (v : A) :
  Js.splice (xs ++ v :: ys) (Z.of_nat (length xs)) 1 = xs ++ ys.
Proof.
  unfold Js.splice. rewrite length_app. simpl length.
  destruct (Z.ltb_spec (Z.of_nat (length xs)) 0) as [?|_]; [lia|].
  rewrite Z.min_l by lia.
  replace (Z.min (Z.max 1 0) _) with 1 by lia.
  rewrite Nat2Z.id.
  replace (Z.to_nat (Z.of_nat (length xs) + 1)) with (length xs + 1)%nat by lia.
  rewrite take_app_length. f_equal.
  rewrite <- drop_drop, drop_app_length. done.
Qed.

Lemma remove_first_split id l1 l2 :
  id ∉ l1 → Reference.remove_first id (l1 ++ id :: l2) = l1 ++ l2.
Proof.
  induction l1 as [|v l1 IH]; intros Hnot; simpl.
  - by rewrite String.eqb_refl.
  - apply not_elem_of_cons in Hnot as [Hne Hnot].
    destruct (String.eqb_spec v id) as [->|_]; [done|]. by rewrite IH.
Qed.

(** Every list containing [id] splits at the first occurrence. *)
Lemma first_occurrence id l :
  id ∈ l → ∃ l1 l2, l = l1 ++ id :: l2 ∧ id ∉ l1.
Proof.
  induction l as [|v l IH]; intros Hin; [by apply elem_of_nil in Hin|].
  destruct (decide (v = id)) as [->|Hne].
  - exists [], l. split; [done|]. apply not_elem_of_nil.
  - apply elem_of_cons in Hin as [->|Hin]; [done|].
    destruct (IH Hin) as (l1 & l2 & -> & Hnot).
    exists (v :: l1), l2. split; [done|].
    apply not_elem_of_cons. split; [congruence|done].
Qed.

Lemma handleUse_present id l1 l2 :
  id ∉ l1 → Form.handleUse (l1 ++ id :: l2) id = l1 ++ l2.
Proof.
  intros Hnot. unfold Form.handleUse, Js.findIndex.
  rewrite findIndex_from_found by done.
  destruct (Z.eqb_spec (0 + Z.of_nat (length l1)) (-1)) as [?|_]; [lia|]. simpl.
  rewrite Z.add_0_l. apply splice_one.
Qed.

Lemma handleUse_absent id l :
  id ∉ l → Form.handleUse l id = l ++ [id].
Proof.
  intros Hnot. unfold Form.handleUse, Js.findIndex.
  by rewrite findIndex_from_missing.
Qed.

Lemma others_app id l1 l2 :
  Reference.others id (l1 ++ l2) = Reference.others id l1 ++ Reference.others id l2.
Proof. apply List.filter_app. Qed.

Lemma others_self id l :
  Reference.others id (id :: l) = Reference.others id l.
Proof. unfold Reference.others. simpl. by rewrite String.eqb_refl. Qed.

End HandleUse.

(** Toggling an id that is absent, twice, gives back the very same list. *)
Lemma handleUse_twice_absent (l : list string) (id : string) :
  id ∉ l → Form.handleUse (Form.handleUse l id) id = l.
Proof.
  intros Hnot. rewrite (handleUse_absent id l Hnot).
  rewrite (handleUse_present id l [] Hnot). apply app_nil_r.
Qed.

(** C9: [handleUse] toggles membership.  If the id occurs in the list its
    first occurrence is removed, otherwise the id is appended at the end.
    On a duplicate-free list two applications with the same id restore the
    membership of the list, and one application leaves the elements other
    than the id as they were, in number and in order. *)
Theorem handleUse_toggles (l : list string) (id : string) :
  (id ∈ l → Form.handleUse l id = Reference.remove_first id l) ∧
  (id ∉ l → Form.handleUse l id = l ++ [id]) ∧
  (NoDup l → ∀ x, x ∈ Form.handleUse (Form.handleUse l id) id ↔ x ∈ l) ∧
  Reference.others id (Form.handleUse l id) = Reference.others id l.
Proof.
  destruct (decide (id ∈ l)) as [Hin|Hnot].
  - destruct (first_occurrence id l Hin) as (l1 & l2 & -> & Hnot1).
    rewrite (handleUse_present id l1 l2 Hnot1).
    split; [|split; [|split]].
    + intros _. symmetry. by apply remove_first_split.
    + intros Hnot. by destruct Hnot.
    + intros Hnd x.
      apply NoDup_app in Hnd as (_ & Hcross & Hnd2).
      apply NoDup_cons in Hnd2 as [Hnot2 _].
      assert (id ∉ l1 ++ l2) as Hnot.
      { rewrite elem_of_app. tauto. }
      rewrite (handleUse_absent id (l1 ++ l2) Hnot).
      rewrite !elem_of_app, !elem_of_cons, elem_of_nil. tauto.
    + rewrite !others_app, others_self. done.
  - rewrite (handleUse_absent id l Hnot).
    split; [|split; [|split]].
    + intros Hin. by destruct Hnot.
    + done.
    + intros _ x. rewrite <- (handleUse_absent id l Hnot).
      by rewrite handleUse_twice_absent.
    + rewrite others_app, others_self. simpl. apply app_nil_r.
Qed.

Lemma handleUse_toggles_witness :
  Form.handleUse ["a"; "b"; "c"]%string "b" = ["a"; "c"]%string
  ∧ Form.handleUse ["a"; "c"]%string "b" = ["a"; "c"; "b"]%string
  ∧ ∀ x, x ∈ Form.handleUse (Form.handleUse ["a"; "b"; "c"]%string "b") "b"
         ↔ x ∈ ["a"; "b"; "c"]%string.
Proof.
  split; [|split].
  - destruct (handleUse_toggles ["a"; "b"; "c"]%string "b") as (Hrm & _).
    rewrite Hrm; [reflexivity|]. apply (bool_decide_unpack _). vm_compute. reflexivity.
  - destruct (handleUse_toggles ["a"; "c"]%string "b") as (_ & Happ & _).
    apply Happ. apply (bool_decide_unpack _). vm_compute. reflexivity.
  - destruct (handleUse_toggles ["a"; "b"; "c"]%string "b") as (_ & _ & Hmem & _).
    apply Hmem. apply (bool_decide_unpack _). vm_compute. reflexivity.
Defined.

(** ** handleSubmit *)

Section HandleSubmit.

Variables (ext : Form.Externals) (props : Form.Props) (store : Store.t).

Implicit Types (st : Form.state) (t : ScheduledTask.t).

Ltac run_handler :=
  unfold Form.handleSubmit, Form.try_persist, Form.await_ValidateCron,
    Form.await_addScheduledTask, Form.await_editScheduledTask,
    Form.call_handleCancel, Form.message_error, Form.console_error,
    Form.bind, Form.ret, Form.emit, Form.get_task, Form.set_task, Form.set_loading;
  simpl.

(** The state [handleSubmit] ends in when the bridge rejects the cron
    expression. *)
Lemma handleSubmit_rejected st error :
  Form.ValidateCron ext (ScheduledTask.cron (Form.task st)) = Js.Rejected error →
  Form.handleSubmit ext props store st
  = (tt, {| Form.task := Form.task st;
            Form.loading := Form.loading st;
            Form.log := Form.log st
                        ++ [Form.CallValidateCron (ScheduledTask.cron (Form.task st));
                            Form.MessageError error] |}).
Proof.
  intros Hrej. run_handler. rewrite Hrej. simpl.
  by rewrite <- app_assoc.
Qed.

(** The state [handleSubmit] ends in when the bridge accepts the cron
    expression. *)
Lemma handleSubmit_validated st :
  Form.ValidateCron ext (ScheduledTask.cron (Form.task st)) = Js.Resolved tt →
  let t := Form.filter_references store (Form.task st) in
  Form.handleSubmit ext props store st
  = (tt, {| Form.task := t;
            Form.loading := false;
            Form.log :=
              Form.log st
              ++ Form.CallValidateCron (ScheduledTask.cron (Form.task st))
                 :: Reference.store_call props t
                 :: match Reference.store_outcome ext props t with
                    | Js.Resolved _ => Form.CallHandleCancel :: Reference.after_cancel ext
                    | Js.Rejected error =>
                        [Form.ConsoleError error; Form.MessageError error]
                    end |}).
Proof.
  intros Hok t. run_handler. rewrite Hok. simpl. fold t.
  unfold Reference.store_call, Reference.store_outcome, Reference.after_cancel.
  destruct (Form.props_id props) as [id|]; [destruct (Js.truthy id)|]; simpl.
  all: match goal with
       | |- context [match ?o with Js.Resolved _ => _ | Js.Rejected _ => _ end] =>
           destruct o as [[]|e] eqn:Hsave
       end; simpl.
  all: try (destruct (Form.handleCancel ext) as [[]|e']; simpl).
  all: by rewrite <- ?app_assoc.
Qed.

Lemma new_events_app (m : Form.M unit) st (es : list Form.event) :
  Form.log (snd (m st)) = Form.log st ++ es → Form.new_events m st = es.
Proof. unfold Form.new_events. intros ->. apply drop_app_length. Qed.

(** Membership of the ids that survive the filter. *)
Lemma find_some {A} (p : A → bool) (xs : list A) (v : A) :
  Js.find p xs = Some v → v ∈ xs ∧ p v = true.
Proof.
  induction xs as [|x xs IH]; simpl; [done|].
  destruct (p x) eqn:Hp.
  - intros [= ->]. split; [apply list_elem_of_here|done].
  - intros Hf. destruct (IH Hf). split; [by apply list_elem_of_further|done].
Qed.

Lemma filter_truthy_Forall {A B} (f : A → option B) (P : A → Prop) (xs : list A) :
  (∀ x b, f x = Some b → P x) → Forall P (Js.filter_truthy f xs).
Proof.
  intros Hf. induction xs as [|x xs IH]; simpl; [constructor|].
  destruct (f x) eqn:Hx; [constructor; eauto|done].
Qed.

Lemma getSubscribeById_existing id v :
  Store.getSubscribeById store id = Some v → Reference.existing_subscription store id.
Proof.
  intros Hf. apply find_some in Hf as [Hin Heq].
  apply String.eqb_eq in Heq. subst id.
  unfold Reference.existing_subscription. apply list_elem_of_In, in_map.
  by apply list_elem_of_In.
Qed.

Lemma getRulesetById_existing id v :
  Store.getRulesetById store id = Some v → Reference.existing_ruleset store id.
Proof.
  intros Hf. apply find_some in Hf as [Hin Heq].
  apply String.eqb_eq in Heq. subst id.
  unfold Reference.existing_ruleset. apply list_elem_of_In, in_map.
  by apply list_elem_of_In.
Qed.

Lemma getPluginById_existing id v :
  Store.getPluginById store id = Some v → Reference.existing_plugin store id.
Proof.
  intros Hf. apply find_some in Hf as [Hin Heq].
  apply String.eqb_eq in Heq. subst id.
  unfold Reference.existing_plugin. apply list_elem_of_In, in_map.
  by apply list_elem_of_In.
Qed.

Lemma filter_references_selected t :
  Reference.selected_references_exist store (Form.filter_references store t).
Proof.
  unfold Reference.selected_references_exist, Form.filter_references.
  destruct (ScheduledTask.type t) eqn:Hty; simpl; rewrite ?Hty; try done.
  - apply filter_truthy_Forall. apply getSubscribeById_existing.
  - apply filter_truthy_Forall. apply getRulesetById_existing.
  - apply filter_truthy_Forall. apply getPluginById_existing.
  - apply filter_truthy_Forall. apply getPluginById_existing.
Qed.

Lemma filter_references_kept t :
  Reference.other_references_kept t (Form.filter_references store t).
Proof.
  unfold Reference.other_references_kept, Form.filter_references.
  by destruct (ScheduledTask.type t).
Qed.

(** The only task record [handleSubmit] hands to the store is the filtered
    record of the form. *)
Lemma handleSubmit_persisted st t :
  t ∈ Form.persisted (Form.new_events (Form.handleSubmit ext props store) st) →
  t = Form.filter_references store (Form.task st).
Proof.
  destruct (Form.ValidateCron ext (ScheduledTask.cron (Form.task st))) as [[]|e] eqn:Hv.
  - rewrite (new_events_app _ st _ (f_equal (fun r => Form.log (snd r))
                                      (handleSubmit_validated st Hv))).
    simpl. unfold Reference.store_call.
    set (t' := Form.filter_references store (Form.task st)).
    assert (∀ es, Form.persisted es = [] → t ∈ t' :: Form.persisted es → t = t') as Hone.
    { intros es ->. by intros ->%list_elem_of_singleton. }
    assert (Form.persisted
              match Reference.store_outcome ext props t' with
              | Js.Resolved _ => Form.CallHandleCancel :: Reference.after_cancel ext
              | Js.Rejected error => [Form.ConsoleError error; Form.MessageError error]
              end = []) as Hnone.
    { unfold Reference.after_cancel.
      destruct (Reference.store_outcome ext props t'); [|done].
      by destruct (Form.handleCancel ext). }
    destruct (Form.props_id props) as [id|]; [destruct (Js.truthy id)|]; simpl;
      by apply Hone.
  - rewrite (new_events_app _ st _ (f_equal (fun r => Form.log (snd r))
                                      (handleSubmit_rejected st e Hv))).
    simpl. by intros ?%elem_of_nil.
Qed.

End HandleSubmit.

(** C1, as stated, fails: a task that runs a script keeps the subscription
    ids it collected under another type, and [handleSubmit] hands them to
    the store although the subscription no longer exists. *)
Lemma handleSubmit_keeps_unselected_references :
  Form.persisted
    (Form.new_events (Form.handleSubmit Sample.accepting Sample.no_id Sample.store)
       (Sample.form Sample.script_task))
  = [Sample.script_task]
  ∧ ¬ Reference.all_references_exist Sample.store Sample.script_task.
Proof.
  split; [reflexivity|].
  intros (Hsubs & _). apply Forall_cons in Hsubs as [Hgone _].
  unfold Reference.existing_subscription in Hgone. simpl in Hgone.
  apply list_elem_of_singleton in Hgone. discriminate.
Qed.

(** C1, amended: every task record [handleSubmit] hands to the store (by
    [addScheduledTask] or [editScheduledTask]) has been filtered according
    to its type: for [UpdateSubscription] the subscription list, for
    [UpdateRuleset] the ruleset list, for [UpdatePlugin] and [RunPlugin] the
    plugin list contains only ids of entries that exist in the store; the
    lists that do not belong to the type are handed over as the form holds
    them, and a [RunScript] task is handed over unfiltered. *)
Theorem handleSubmit_filters_selected_references
    (ext : Form.Externals) (props : Form.Props) (store : Store.t)
    (st : Form.state) (t : ScheduledTask.t) :
  t ∈ Form.persisted (Form.new_events (Form.handleSubmit ext props store) st) →
  Reference.selected_references_exist store t
  ∧ Reference.other_references_kept (Form.task st) t.
Proof.
  intros ->%handleSubmit_persisted. split.
  - apply filter_references_selected.
  - apply filter_references_kept.
Qed.

Lemma handleSubmit_filters_selected_references_witness :
  Reference.selected_references_exist Sample.store
    (Form.set_subscriptions ["s1"%string] Sample.update_task)
  ∧ Reference.other_references_kept Sample.update_task
      (Form.set_subscriptions ["s1"%string] Sample.update_task).
Proof.
  apply (handleSubmit_filters_selected_references
           Sample.accepting Sample.no_id Sample.store (Sample.form Sample.update_task)).
  vm_compute. apply list_elem_of_here.
Defined.

(** C2: when [ValidateCron] rejects the cron string of the task,
    [handleSubmit] returns without a call of [addScheduledTask] or
    [editScheduledTask], the task record of the form (and the loading flag)
    is as before, and the error has been passed to [message.error]. *)
Theorem handleSubmit_invalid_cron
    (ext : Form.Externals) (props : Form.Props) (store : Store.t)
    (st : Form.state) (error : Js.value) :
  Form.ValidateCron ext (ScheduledTask.cron (Form.task st)) = Js.Rejected error →
  Form.new_events (Form.handleSubmit ext props store) st
  = [Form.CallValidateCron (ScheduledTask.cron (Form.task st)); Form.MessageError error]
  ∧ Form.count Form.is_persist
      (Form.new_events (Form.handleSubmit ext props store) st) = 0%nat
  ∧ Form.task (snd (Form.handleSubmit ext props store st)) = Form.task st
  ∧ Form.loading (snd (Form.handleSubmit ext props store st)) = Form.loading st.
Proof.
  intros Hrej.
  pose proof (handleSubmit_rejected ext props store st error Hrej) as Hrun.
  assert (Form.new_events (Form.handleSubmit ext props store) st
          = [Form.CallValidateCron (ScheduledTask.cron (Form.task st));
             Form.MessageError error]) as Hev.
  { apply new_events_app. by rewrite Hrun. }
  rewrite Hev, Hrun. done.
Qed.

Lemma handleSubmit_invalid_cron_witness :
  Form.new_events (Form.handleSubmit Sample.bad_cron Sample.no_id Sample.store)
    (Sample.form Sample.update_task)
  = [Form.CallValidateCron "0 0 3 * * *";
     Form.MessageError (Js.VString "invalid cron expression")]
  ∧ Form.task (snd (Form.handleSubmit Sample.bad_cron Sample.no_id Sample.store
                      (Sample.form Sample.update_task)))
    = Sample.update_task.
Proof.
  destruct (handleSubmit_invalid_cron Sample.bad_cron Sample.no_id Sample.store
              (Sample.form Sample.update_task) (Js.VString "invalid cron expression"))
    as (Hev & _ & Htask & _); [reflexivity|].
  split; [exact Hev|exact Htask].
Defined.

(** C3: when the cron string is accepted and the persistence call
    ([addScheduledTask] or [editScheduledTask]) rejects, the error is
    caught and passed to [message.error] (after [console.error]),
    [handleCancel] is not called, and the loading flag is [false] when
    [handleSubmit] completes. *)
Theorem handleSubmit_store_failure
    (ext : Form.Externals) (props : Form.Props) (store : Store.t)
    (st : Form.state) (error : Js.value) :
  Form.ValidateCron ext (ScheduledTask.cron (Form.task st)) = Js.Resolved tt →
  Reference.store_outcome ext props (Form.filter_references store (Form.task st))
  = Js.Rejected error →
  Form.new_events (Form.handleSubmit ext props store) st
  = [Form.CallValidateCron (ScheduledTask.cron (Form.task st));
     Reference.store_call props (Form.filter_references store (Form.task st));
     Form.ConsoleError error;
     Form.MessageError error]
  ∧ Form.count Form.is_cancel
      (Form.new_events (Form.handleSubmit ext props store) st) = 0%nat
  ∧ Form.loading (snd (Form.handleSubmit ext props store st)) = false.
Proof.
  intros Hok Hfail.
  pose proof (handleSubmit_validated ext props store st Hok) as Hrun.
  simpl in Hrun. rewrite Hfail in Hrun.
  assert (Form.new_events (Form.handleSubmit ext props store) st
          = [Form.CallValidateCron (ScheduledTask.cron (Form.task st));
             Reference.store_call props (Form.filter_references store (Form.task st));
             Form.ConsoleError error;
             Form.MessageError error]) as Hev.
  { apply new_events_app. by rewrite Hrun. }
  rewrite Hev, Hrun. split; [done|]. split; [|done].
  unfold Reference.store_call.
  by destruct (Form.props_id props) as [id|]; [destruct (Js.truthy id)|].
Qed.

Lemma handleSubmit_store_failure_witness :
  Form.new_events (Form.handleSubmit Sample.failing_store (Sample.with_id "t1") Sample.store)
    (Sample.form Sample.update_task)
  = [Form.CallValidateCron "0 0 3 * * *";
     Form.CallEditScheduledTask "t1"
       (Form.set_subscriptions ["s1"%string] Sample.update_task);
     Form.ConsoleError (Js.VString "write failed");
     Form.MessageError (Js.VString "write failed")]
  ∧ Form.loading (snd (Form.handleSubmit Sample.failing_store (Sample.with_id "t1")
                         Sample.store (Sample.form Sample.update_task))) = false.
Proof.
  destruct (handleSubmit_store_failure Sample.failing_store (Sample.with_id "t1")
              Sample.store (Sample.form Sample.update_task) (Js.VString "write failed"))
    as (Hev & _ & Hload); [reflexivity|reflexivity|].
  split; [exact Hev|exact Hload].
Defined.

(** C4, as stated, fails: [props.id] is tested for truthiness, so a form
    opened with the empty string as its id prop saves through
    [addScheduledTask]. *)
Lemma handleSubmit_empty_id_adds :
  Form.props_id (Sample.with_id "") = Some ""%string
  ∧ Form.new_events (Form.handleSubmit Sample.accepting (Sample.with_id "") Sample.store)
      (Sample.form Sample.script_task)
    = [Form.CallValidateCron "0 0 3 * * *";
       Form.CallAddScheduledTask Sample.script_task;
       Form.CallHandleCancel].
Proof. split; reflexivity. Qed.

(** C4, amended: in every successful submission, if the form was opened
    with a non-empty id prop the task is persisted by [editScheduledTask]
    with that id, otherwise (no id prop, or the empty string) by
    [addScheduledTask]; in both cases exactly one persistence call is made
    and [handleCancel] is called after it. *)
Theorem handleSubmit_success
    (ext : Form.Externals) (props : Form.Props) (store : Store.t) (st : Form.state) :
  Form.ValidateCron ext (ScheduledTask.cron (Form.task st)) = Js.Resolved tt →
  Reference.store_outcome ext props (Form.filter_references store (Form.task st))
  = Js.Resolved tt →
  Form.new_events (Form.handleSubmit ext props store) st
  = Form.CallValidateCron (ScheduledTask.cron (Form.task st))
    :: Reference.store_call props (Form.filter_references store (Form.task st))
    :: Form.CallHandleCancel
    :: Reference.after_cancel ext
  ∧ Form.count Form.is_persist
      (Form.new_events (Form.handleSubmit ext props store) st) = 1%nat
  ∧ (∀ id, Form.props_id props = Some id → id ≠ ""%string →
       Reference.store_call props (Form.filter_references store (Form.task st))
       = Form.CallEditScheduledTask id (Form.filter_references store (Form.task st)))
  ∧ (Form.props_id props = None ∨ Form.props_id props = Some ""%string →
       Reference.store_call props (Form.filter_references store (Form.task st))
       = Form.CallAddScheduledTask (Form.filter_references store (Form.task st))).
Proof.
  intros Hok Hsaved.
  pose proof (handleSubmit_validated ext props store st Hok) as Hrun.
  simpl in Hrun. rewrite Hsaved in Hrun.
  set (t := Form.filter_references store (Form.task st)) in *.
  assert (Form.new_events (Form.handleSubmit ext props store) st
          = Form.CallValidateCron (ScheduledTask.cron (Form.task st))
            :: Reference.store_call props t
            :: Form.CallHandleCancel
            :: Reference.after_cancel ext) as Hev.
  { apply new_events_app. by rewrite Hrun. }
  rewrite Hev. split; [done|]. split; [|split].
  - unfold Reference.store_call, Reference.after_cancel.
    destruct (Form.handleCancel ext);
      by destruct (Form.props_id props) as [id|]; [destruct (Js.truthy id)|].
  - intros id Hid Hne. unfold Reference.store_call. rewrite Hid.
    unfold Js.truthy. by destruct (String.eqb_spec id "").
  - intros [Hid|Hid]; unfold Reference.store_call; by rewrite Hid.
Qed.

Lemma handleSubmit_success_witness :
  Form.new_events (Form.handleSubmit Sample.accepting (Sample.with_id "t1") Sample.store)
    (Sample.form Sample.update_task)
  = [Form.CallValidateCron "0 0 3 * * *";
     Form.CallEditScheduledTask "t1"
       (Form.set_subscriptions ["s1"%string] Sample.update_task);
     Form.CallHandleCancel].
Proof.
  destruct (handleSubmit_success Sample.accepting (Sample.with_id "t1") Sample.store
              (Sample.form Sample.update_task))
    as (Hev & _ & Hedit & _); [reflexivity|reflexivity|].
  rewrite Hev. rewrite (Hedit "t1"%string); [reflexivity|reflexivity|discriminate].
Defined.

(** ** The submit button and the initial record *)

Lemma truthy_false (s : string) : Js.truthy s = false ↔ s = ""%string.
Proof.
  unfold Js.truthy. destruct (String.eqb_spec s ""); simpl; split; congruence.
Qed.

(** C5: the submit control is disabled exactly when the name of the task
    is empty or its cron string is empty; a click on the disabled control
    does nothing, so [handleSubmit] runs only when both are non-empty. *)
Theorem submit_requires_name_and_cron
    (ext : Form.Externals) (props : Form.Props) (store : Store.t) (st : Form.state) :
  (Form.submit_disabled st = true
   ↔ ScheduledTask.name (Form.task st) = ""%string
     ∨ ScheduledTask.cron (Form.task st) = ""%string)
  ∧ (Form.submit_disabled st = true → Form.click_submit ext props store st = (tt, st))
  ∧ (Form.submit_disabled st = false →
     Form.click_submit ext props store st = Form.handleSubmit ext props store st
     ∧ ScheduledTask.name (Form.task st) ≠ ""%string
     ∧ ScheduledTask.cron (Form.task st) ≠ ""%string).
Proof.
  assert (Form.submit_disabled st = true
          ↔ ScheduledTask.name (Form.task st) = ""%string
            ∨ ScheduledTask.cron (Form.task st) = ""%string) as Hiff.
  { unfold Form.submit_disabled.
    rewrite orb_true_iff, !negb_true_iff, !truthy_false. done. }
  split; [exact Hiff|]. unfold Form.click_submit.
  destruct (Form.submit_disabled st) eqn:Hdis.
  - split; [done|]. intros Hne. discriminate.
  - split; [done|]. intros _. split; [done|].
    split; intros Hempty; apply (eq_true_false_abs _ (proj2 Hiff ltac:(tauto)) eq_refl).
Qed.

Lemma submit_requires_name_and_cron_witness :
  Form.click_submit Sample.accepting Sample.no_id Sample.store
    (Sample.form (Form.set_cron "" Sample.update_task))
  = (tt, Sample.form (Form.set_cron "" Sample.update_task))
  ∧ Form.click_submit Sample.accepting Sample.no_id Sample.store
      (Sample.form Sample.update_task)
    = Form.handleSubmit Sample.accepting Sample.no_id Sample.store
        (Sample.form Sample.update_task).
Proof.
  split.
  - destruct (submit_requires_name_and_cron Sample.accepting Sample.no_id Sample.store
                (Sample.form (Form.set_cron "" Sample.update_task))) as (_ & Hoff & _).
    apply Hoff. reflexivity.
  - destruct (submit_requires_name_and_cron Sample.accepting Sample.no_id Sample.store
                (Sample.form Sample.update_task)) as (_ & _ & Hon).
    apply Hon. reflexivity.
Defined.

(** C6: when the form is opened without an id prop, the initial task record
    has the fields id, name, type, subscriptions, rulesets, plugins, script,
    cron, notification, disabled and lastTime, with the id that [sampleID()]
    generated, an empty name, type [RunScript], empty subscription, ruleset
    and plugin lists, empty script and cron strings, notification and
    disabled both [false], and [lastTime] 0. *)
Theorem setup_without_id_defaults
    (ext : Form.Externals) (props : Form.Props) (store : Store.t) :
  Form.props_id props = None →
  Form.task (Form.setup ext props store)
  = {| ScheduledTask.id := Form.sampleID ext;
       ScheduledTask.name := "";
       ScheduledTask.type := RunScript;
       ScheduledTask.subscriptions := [];
       ScheduledTask.rulesets := [];
       ScheduledTask.plugins := [];
       ScheduledTask.script := "";
       ScheduledTask.cron := "";
       ScheduledTask.notification := false;
       ScheduledTask.disabled := false;
       ScheduledTask.lastTime := 0 |}.
Proof. intros Hnone. unfold Form.setup. by rewrite Hnone. Qed.

Lemma setup_without_id_defaults_witness :
  ScheduledTask.id (Form.task (Form.setup Sample.accepting Sample.no_id Sample.store))
  = "ID_k3x9q2"%string
  ∧ ScheduledTask.type (Form.task (Form.setup Sample.accepting Sample.no_id Sample.store))
    = RunScript.
Proof.
  rewrite (setup_without_id_defaults Sample.accepting Sample.no_id Sample.store eq_refl).
  split; reflexivity.
Defined.

(** ** The form works on its own copy of a stored task *)

Section DeepClone.

Import Heap.

Implicit Types (h : heap) (p s a : loc) (o : task_object) (v : ScheduledTask.t).

Lemma read_object_Some h p o : read_object h p = Some o ↔ h !! p = Some (ObjTask o).
Proof.
  unfold read_object. destruct (h !! p) as [[o'|l]|]; split; intros; simplify_eq; done.
Qed.

Lemma read_array_Some h a (l : list string) :
  read_array h a = Some l ↔ h !! a = Some (ObjArray l).
Proof.
  unfold read_array. destruct (h !! a) as [[o'|l']|]; split; intros; simplify_eq; done.
Qed.

(** A task object is readable exactly when it and its arrays are there. *)
Lemma read_task_Some h p v :
  read_task h p = Some v ↔
  ∃ o subs rules plugs,
    h !! p = Some (ObjTask o)
    ∧ h !! o_subscriptions o = Some (ObjArray subs)
    ∧ h !! o_rulesets o = Some (ObjArray rules)
    ∧ h !! o_plugins o = Some (ObjArray plugs)
    ∧ v = ScheduledTask.mk (o_id o) (o_name o) (o_type o) subs rules plugs
            (o_script o) (o_cron o) (o_notification o) (o_disabled o) (o_lastTime o).
Proof.
  unfold read_task. split.
  - intros Hread.
    destruct (read_object h p) as [o|] eqn:Ho; [|done]. simpl in Hread.
    destruct (read_array h (o_subscriptions o)) as [subs|] eqn:H1; [|done].
    destruct (read_array h (o_rulesets o)) as [rules|] eqn:H2; [|done].
    destruct (read_array h (o_plugins o)) as [plugs|] eqn:H3; [|done].
    simpl in Hread. injection Hread as <-.
    exists o, subs, rules, plugs.
    by rewrite <- read_object_Some, <- !read_array_Some.
  - intros (o & subs & rules & plugs & Ho & H1 & H2 & H3 & ->).
    apply read_object_Some in Ho. apply read_array_Some in H1, H2, H3.
    rewrite Ho. simpl. rewrite H1. simpl. rewrite H2. simpl. rewrite H3. done.
Qed.

(** Reading a task depends only on its object and its three arrays. *)
Lemma read_task_frame h h' p v :
  read_task h p = Some v →
  (∀ l, l ∈ dom h → h' !! l = h !! l) →
  read_task h' p = Some v.
Proof.
  intros (o & subs & rules & plugs & Ho & H1 & H2 & H3 & ->)%read_task_Some Hsame.
  apply read_task_Some. exists o, subs, rules, plugs.
  rewrite !Hsame by (apply elem_of_dom; eauto). done.
Qed.

Lemma NoDup_three (x y z : loc) : NoDup [x; y; z] → x ≠ y ∧ x ≠ z ∧ y ≠ z.
Proof.
  intros Hnd. apply NoDup_cons in Hnd as [Hx Hnd]. apply NoDup_cons in Hnd as [Hy _].
  rewrite !not_elem_of_cons in Hx. rewrite not_elem_of_cons in Hy. tauto.
Qed.

Lemma three_NoDup (x y z : loc) : x ≠ y → x ≠ z → y ≠ z → NoDup [x; y; z].
Proof.
  intros Hxy Hxz Hyz.
  apply NoDup_cons. split; [rewrite !not_elem_of_cons; split_and!; auto using not_elem_of_nil|].
  apply NoDup_cons. split; [rewrite !not_elem_of_cons; split_and!; auto using not_elem_of_nil|].
  apply NoDup_singleton.
Qed.

(** What an isolated, readable task object looks like in the heap. *)
Lemma isolated_shape h0 h p v :
  Reference.isolated h0 h p →
  read_task h p = Some v →
  ∃ o subs rules plugs,
    h !! p = Some (ObjTask o)
    ∧ h !! o_subscriptions o = Some (ObjArray subs)
    ∧ h !! o_rulesets o = Some (ObjArray rules)
    ∧ h !! o_plugins o = Some (ObjArray plugs)
    ∧ v = ScheduledTask.mk (o_id o) (o_name o) (o_type o) subs rules plugs
            (o_script o) (o_cron o) (o_notification o) (o_disabled o) (o_lastTime o)
    ∧ (∀ l, l ∈ dom h0 → h !! l = h0 !! l)
    ∧ (∀ l, l ∈ dom h0 →
         l ≠ p ∧ l ≠ o_subscriptions o ∧ l ≠ o_rulesets o ∧ l ≠ o_plugins o)
    ∧ (p ≠ o_subscriptions o ∧ p ≠ o_rulesets o ∧ p ≠ o_plugins o)
    ∧ (o_subscriptions o ≠ o_rulesets o ∧ o_subscriptions o ≠ o_plugins o
       ∧ o_rulesets o ≠ o_plugins o).
Proof.
  intros (Hframe & Hp & o' & Ho' & F1 & F2 & F3 & Hnd) Hread.
  apply read_task_Some in Hread as (o & subs & rules & plugs & Ho & H1 & H2 & H3 & ->).
  apply read_object_Some in Ho'. rewrite Ho in Ho'. injection Ho' as <-.
  exists o, subs, rules, plugs. split_and!; try done.
  - intros l Hl. split_and!; intros ->; done.
  - intros Heq. rewrite Heq in Ho. congruence.
  - intros Heq. rewrite Heq in Ho. congruence.
  - intros Heq. rewrite Heq in Ho. congruence.
  - by apply NoDup_three in Hnd as (? & ? & ?).
  - by apply NoDup_three in Hnd as (? & ? & ?).
  - by apply NoDup_three in Hnd as (? & ? & ?).
Qed.

Lemma isolated_intro h0 h p o :
  (∀ l, l ∈ dom h0 → h !! l = h0 !! l) →
  h !! p = Some (ObjTask o) →
  (∀ l, l ∈ dom h0 →
     l ≠ p ∧ l ≠ o_subscriptions o ∧ l ≠ o_rulesets o ∧ l ≠ o_plugins o) →
  (o_subscriptions o ≠ o_rulesets o ∧ o_subscriptions o ≠ o_plugins o
   ∧ o_rulesets o ≠ o_plugins o) →
  Reference.isolated h0 h p.
Proof.
  intros Hframe Ho Hout (N12 & N13 & N23).
  split; [done|]. split; [intros Hl; by destruct (Hout p Hl) as (? & _)|].
  exists o. split; [by apply read_object_Some|].
  split_and!.
  - intros Hl. by destruct (Hout _ Hl) as (_ & ? & _).
  - intros Hl. by destruct (Hout _ Hl) as (_ & _ & ? & _).
  - intros Hl. by destruct (Hout _ Hl) as (_ & _ & _ & ?).
  - by apply three_NoDup.
Qed.

(** The copy [deepClone] makes is readable as the same value and shares
    no object with the heap it was made in. *)
Lemma deepClone_isolated h0 s v :
  read_task h0 s = Some v →
  ∃ p h1, deepClone h0 s = Some (p, h1)
          ∧ Reference.isolated h0 h1 p
          ∧ read_task h1 p = Some v.
Proof.
  intros (o & subs & rules & plugs & Ho & H1 & H2 & H3 & ->)%read_task_Some.
  unfold deepClone.
  rewrite (proj2 (read_object_Some _ _ _) Ho). simpl.
  rewrite (proj2 (read_array_Some _ _ _) H1). simpl.
  rewrite (proj2 (read_array_Some _ _ _) H2). simpl.
  rewrite (proj2 (read_array_Some _ _ _) H3). simpl.
  unfold alloc.
  set (a1 := fresh (dom h0)).
  set (h1 := <[a1 := ObjArray subs]> h0).
  set (a2 := fresh (dom h1)).
  set (h2 := <[a2 := ObjArray rules]> h1).
  set (a3 := fresh (dom h2)).
  set (h3 := <[a3 := ObjArray plugs]> h2).
  set (p := fresh (dom h3)).
  pose proof (is_fresh (dom h0)) as F1. fold a1 in F1.
  pose proof (is_fresh (dom h1)) as F2. fold a2 in F2.
  pose proof (is_fresh (dom h2)) as F3. fold a3 in F3.
  pose proof (is_fresh (dom h3)) as F4. fold p in F4.
  subst h1 h2 h3.
  rewrite !dom_insert_L, !not_elem_of_union, !not_elem_of_singleton in F2.
  rewrite !dom_insert_L, !not_elem_of_union, !not_elem_of_singleton in F3.
  rewrite !dom_insert_L, !not_elem_of_union, !not_elem_of_singleton in F4.
  destruct F2 as (N21 & F2).
  destruct F3 as (N32 & N31 & F3).
  destruct F4 as (Np3 & Np2 & Np1 & F4).
  eexists _, _. split; [reflexivity|]. split.
  - apply (isolated_intro h0 _ p (with_arrays a1 a2 a3 o)); simpl.
    + intros l Hl.
      rewrite !lookup_insert_ne; [done|intros ->; done..].
    + apply lookup_insert_eq.
    + intros l Hl. split_and!; intros ->; done.
    + split_and!; congruence.
  - apply read_task_Some. exists (with_arrays a1 a2 a3 o), subs, rules, plugs. simpl.
    split; [apply lookup_insert_eq|].
    split; [by rewrite !lookup_insert_ne, lookup_insert_eq by done|].
    split; [by rewrite !lookup_insert_ne, lookup_insert_eq by done|].
    split; [by rewrite !lookup_insert_ne, lookup_insert_eq by done|done].
Qed.

Lemma assign_isolated h0 h p v f :
  Reference.keeps_lists f →
  Reference.isolated h0 h p →
  read_task h p = Some v →
  ∃ h', assign h p f = Some h'
        ∧ Reference.isolated h0 h' p
        ∧ read_task h' p = Some (f v).
Proof.
  intros Hkeep Hiso Hread.
  destruct (isolated_shape h0 h p v Hiso Hread)
    as (o & subs & rules & plugs & Ho & H1 & H2 & H3 & Hv & Hframe & Hout
        & (Np1 & Np2 & Np3) & Hdist).
  unfold assign. rewrite (proj2 (read_object_Some _ _ _) Ho), Hread. simpl.
  eexists. split; [reflexivity|]. split.
  - apply (isolated_intro h0 _ p (with_scalars (f v) o)); simpl; try done.
    + intros l Hl. destruct (Hout l Hl) as (? & _).
      rewrite lookup_insert_ne by done. by apply Hframe.
    + apply lookup_insert_eq.
  - apply read_task_Some.
    exists (with_scalars (f v) o), subs, rules, plugs. simpl.
    rewrite lookup_insert_eq, !lookup_insert_ne by done.
    split_and!; try done.
    destruct (Hkeep v) as (K1 & K2 & K3). clear Hread. subst v. simpl in K1, K2, K3.
    destruct (f _); simpl in *. by subst.
Qed.

Lemma handleUse_isolated h0 h p v f id :
  Reference.isolated h0 h p →
  read_task h p = Some v →
  ∃ h', handleUse h p f id = Some h'
        ∧ Reference.isolated h0 h' p
        ∧ read_task h' p = Some (Reference.set_list f (Form.handleUse (Reference.get_list f v) id) v).
Proof.
  intros Hiso Hread.
  destruct (isolated_shape h0 h p v Hiso Hread)
    as (o & subs & rules & plugs & Ho & H1 & H2 & H3 & -> & Hframe & Hout
        & (Np1 & Np2 & Np3) & (N12 & N13 & N23)).
  unfold handleUse. rewrite (proj2 (read_object_Some _ _ _) Ho). simpl.
  assert (h !! field_loc f o = Some (ObjArray (Reference.get_list f
            (ScheduledTask.mk (o_id o) (o_name o) (o_type o) subs rules plugs
               (o_script o) (o_cron o) (o_notification o) (o_disabled o)
               (o_lastTime o))))) as Hf by (by destruct f).
  rewrite (proj2 (read_array_Some _ _ _) Hf). simpl.
  assert (p ≠ field_loc f o) as Npf by (by destruct f).
  eexists. split; [reflexivity|]. split.
  - apply (isolated_intro h0 _ p o); try done.
    + intros l Hl. destruct (Hout l Hl) as (? & ? & ? & ?).
      rewrite lookup_insert_ne by (by destruct f). by apply Hframe.
    + by rewrite lookup_insert_ne.
  - apply read_task_Some. destruct f; simpl.
    + exists o, (Form.handleUse subs id), rules, plugs.
      rewrite lookup_insert_eq, !lookup_insert_ne by done. done.
    + exists o, subs, (Form.handleUse rules id), plugs.
      rewrite lookup_insert_eq, !lookup_insert_ne by done. done.
    + exists o, subs, rules, (Form.handleUse plugs id).
      rewrite lookup_insert_eq, !lookup_insert_ne by done. done.
Qed.

Lemma refilter_isolated {B} h0 h p v f (lookup : string → option B) :
  Reference.isolated h0 h p →
  read_task h p = Some v →
  ∃ h', refilter h p f lookup = Some h'
        ∧ Reference.isolated h0 h' p
        ∧ read_task h' p = Some (Reference.set_list f (Js.filter_truthy lookup (Reference.get_list f v)) v).
Proof.
  intros Hiso Hread.
  destruct (isolated_shape h0 h p v Hiso Hread)
    as (o & subs & rules & plugs & Ho & H1 & H2 & H3 & -> & Hframe & Hout
        & (Np1 & Np2 & Np3) & (N12 & N13 & N23)).
  unfold refilter. rewrite (proj2 (read_object_Some _ _ _) Ho). simpl.
  assert (h !! field_loc f o = Some (ObjArray (Reference.get_list f
            (ScheduledTask.mk (o_id o) (o_name o) (o_type o) subs rules plugs
               (o_script o) (o_cron o) (o_notification o) (o_disabled o)
               (o_lastTime o))))) as Hf by (by destruct f).
  rewrite (proj2 (read_array_Some _ _ _) Hf). simpl.
  unfold alloc. set (a := fresh (dom h)).
  assert (∀ l x, h !! l = Some x → l ≠ a) as Hnew.
  { intros l x Hl ->. apply (is_fresh (dom h)). apply elem_of_dom. by exists x. }
  pose proof (Hnew _ _ Ho) as Na. pose proof (Hnew _ _ H1) as Na1.
  pose proof (Hnew _ _ H2) as Na2. pose proof (Hnew _ _ H3) as Na3.
  eexists. split; [reflexivity|]. split.
  - apply (isolated_intro h0 _ p (set_field_loc f a o)).
    + intros l Hl. destruct (Hout l Hl) as (? & ? & ? & ?).
      assert (l ≠ a) as Nla.
      { apply elem_of_dom in Hl as [x Hl]. rewrite <- Hframe in Hl by (apply elem_of_dom; eauto).
        by apply (Hnew _ x). }
      rewrite !lookup_insert_ne by done. by apply Hframe.
    + apply lookup_insert_eq.
    + intros l Hl. destruct (Hout l Hl) as (? & ? & ? & ?).
      assert (l ≠ a) as Nla.
      { apply elem_of_dom in Hl as [x Hl]. rewrite <- Hframe in Hl by (apply elem_of_dom; eauto).
        by apply (Hnew _ x). }
      by destruct f.
    + destruct f; simpl; split_and!; congruence.
  - apply read_task_Some. destruct f; simpl.
    + exists (set_field_loc Form.Subscriptions a o),
        (Js.filter_truthy lookup subs), rules, plugs. simpl.
      rewrite lookup_insert_eq.
      rewrite (lookup_insert_ne _ p a) by done. rewrite lookup_insert_eq.
      rewrite !lookup_insert_ne by done. done.
    + exists (set_field_loc Form.Rulesets a o),
        subs, (Js.filter_truthy lookup rules), plugs. simpl.
      rewrite lookup_insert_eq.
      rewrite (lookup_insert_ne _ p a) by done. rewrite lookup_insert_eq.
      rewrite !lookup_insert_ne by done. done.
    + exists (set_field_loc Form.Plugins a o),
        subs, rules, (Js.filter_truthy lookup plugs). simpl.
      rewrite lookup_insert_eq.
      rewrite (lookup_insert_ne _ p a) by done. rewrite lookup_insert_eq.
      rewrite !lookup_insert_ne by done. done.
Qed.

Lemma filter_references_isolated store h0 h p v :
  Reference.isolated h0 h p →
  read_task h p = Some v →
  ∃ h', filter_references store h p = Some h'
        ∧ Reference.isolated h0 h' p
        ∧ read_task h' p = Some (Form.filter_references store v).
Proof.
  intros Hiso Hread.
  pose proof (isolated_shape h0 h p v Hiso Hread)
    as (o & subs & rules & plugs & Ho & _ & _ & _ & Hv & _).
  unfold filter_references, Form.filter_references.
  rewrite (proj2 (read_object_Some _ _ _) Ho). simpl.
  assert (ScheduledTask.type v = o_type o) as -> by (by subst v).
  destruct (o_type o).
  - eauto.
  - apply (refilter_isolated h0 h p v Form.Subscriptions); done.
  - apply (refilter_isolated h0 h p v Form.Rulesets); done.
  - apply (refilter_isolated h0 h p v Form.Plugins); done.
  - apply (refilter_isolated h0 h p v Form.Plugins); done.
Qed.

(** One change of the form's task state: it succeeds, keeps the form's
    object isolated, and is the change [Form.mutate] describes. *)
Lemma mutate_isolated store h0 h p v m :
  Reference.isolated h0 h p →
  read_task h p = Some v →
  ∃ h', mutate store p m h = Some h'
        ∧ Reference.isolated h0 h' p
        ∧ read_task h' p = Some (Form.mutate store m v).
Proof.
  intros Hiso Hread. destruct m as [x|x|x|x|x|f id|]; simpl.
  - apply (assign_isolated h0 h p v); [by intros []|done..].
  - apply (assign_isolated h0 h p v); [by intros []|done..].
  - apply (assign_isolated h0 h p v); [by intros []|done..].
  - apply (assign_isolated h0 h p v); [by intros []|done..].
  - apply (assign_isolated h0 h p v); [by intros []|done..].
  - destruct (handleUse_isolated h0 h p v f id Hiso Hread) as (h' & ? & ? & ?).
    exists h'. by destruct f.
  - by apply filter_references_isolated.
Qed.

Lemma mutate_all_isolated store h0 p ms : ∀ h v,
  Reference.isolated h0 h p →
  read_task h p = Some v →
  ∃ h', mutate_all store p ms h = Some h'
        ∧ Reference.isolated h0 h' p
        ∧ read_task h' p = Some (Reference.mutate_all store ms v).
Proof.
  induction ms as [|m ms IH]; intros h v Hiso Hread; simpl.
  - eauto.
  - destruct (mutate_isolated store h0 h p v m Hiso Hread) as (h1 & -> & Hiso1 & Hread1).
    simpl. by apply IH.
Qed.

Lemma load_task_found h (scheduledtasks : list loc) props id s :
  Form.props_id props = Some id →
  Js.truthy id = true →
  getScheduledTaskById h scheduledtasks id = Some s →
  load_task h scheduledtasks props = deepClone h s.
Proof. intros Hid Htruthy Hfound. unfold load_task. by rewrite Hid, Htruthy, Hfound. Qed.

End DeepClone.

(** C8: when the form is opened with an id prop that resolves to a stored
    task, the [task] ref points to a deep clone of the stored record: the
    clone reads as the same value, and after any sequence of changes of the
    form's task state (field edits, toggles of an id list, the filtering of
    [handleSubmit]) the record held by the store, and every other object
    that existed before, is exactly as it was, while the form's record
    carries the changes. *)
Theorem form_edits_leave_stored_task
    (store : Store.t) (h0 : Heap.heap) (scheduledtasks : list Heap.loc)
    (props : Form.Props) (id : string) (s : Heap.loc) (v : ScheduledTask.t) :
  Form.props_id props = Some id →
  Js.truthy id = true →
  Heap.getScheduledTaskById h0 scheduledtasks id = Some s →
  Heap.read_task h0 s = Some v →
  ∃ p h1,
    Heap.load_task h0 scheduledtasks props = Some (p, h1)
    ∧ p ≠ s
    ∧ Heap.read_task h1 p = Some v
    ∧ Heap.read_task h1 s = Some v
    ∧ ∀ ms, ∃ h2,
        Heap.mutate_all store p ms h1 = Some h2
        ∧ Heap.read_task h2 p = Some (Reference.mutate_all store ms v)
        ∧ Heap.read_task h2 s = Some v
        ∧ ∀ l, l ∈ dom h0 → h2 !! l = h0 !! l.
Proof.
  intros Hid Htruthy Hfound Hstored.
  destruct (deepClone_isolated h0 s v Hstored) as (p & h1 & Hclone & Hiso & Hcopy).
  exists p, h1.
  rewrite (load_task_found h0 scheduledtasks props id s Hid Htruthy Hfound).
  split; [done|]. split.
  { intros ->. destruct Hiso as (_ & Hnew & _). apply Hnew.
    apply read_task_Some in Hstored as (o & ? & ? & ? & Ho & _).
    apply elem_of_dom. eauto. }
  split; [done|]. split.
  { apply (read_task_frame h0); [done|]. by destruct Hiso. }
  intros ms.
  destruct (mutate_all_isolated store h0 p ms h1 v Hiso Hcopy) as (h2 & Hrun & Hiso2 & Hread2).
  exists h2. split; [done|]. split; [done|].
  destruct Hiso2 as (Hframe & _).
  split; [|done]. by apply (read_task_frame h0).
Qed.

Lemma form_edits_leave_stored_task_witness :
  ∃ p h1,
    Heap.load_task Sample.heap Sample.scheduledtasks (Sample.with_id "t1") = Some (p, h1)
    ∧ ∃ h2,
        Heap.mutate_all Sample.store p
          [Form.Toggle Form.Subscriptions "s1"; Form.EditName "weekly"; Form.FilterReferences]
          h1 = Some h2
        ∧ Heap.read_task h2 p
          = Some (Form.set_name "weekly" (Form.set_subscriptions [] Sample.update_task))
        ∧ Heap.read_task h2 1%positive = Some Sample.update_task.
Proof.
  destruct (form_edits_leave_stored_task Sample.store Sample.heap Sample.scheduledtasks
              (Sample.with_id "t1") "t1" 1%positive Sample.update_task)
    as (p & h1 & Hload & _ & _ & _ & Hruns);
    [reflexivity|reflexivity|reflexivity|reflexivity|].
  exists p, h1. split; [exact Hload|].
  destruct (Hruns [Form.Toggle Form.Subscriptions "s1"; Form.EditName "weekly";
                   Form.FilterReferences]) as (h2 & Hrun & Hform & Hstore & _).
  exists h2. split; [exact Hrun|]. split; [exact Hform|exact Hstore].
Defined.

(** Without the clone the store would see the edits: had the [task] ref
    been pointed at the stored record itself, or at a copy of the object
    that still shares its arrays, a toggle in the form would change what
    the store holds. *)
Example toggle_on_stored_record_changes_store :
  (h ← Heap.handleUse Sample.heap 1%positive Form.Subscriptions "s1";
   Heap.read_task h 1%positive)
  = Some (Form.set_subscriptions ["gone"%string] Sample.update_task).
Proof. vm_compute. reflexivity. Qed.

Example toggle_on_shallow_copy_changes_store :
  ('(p, h1) ← Heap.shallowClone Sample.heap 1%positive;
   h2 ← Heap.handleUse h1 p Form.Subscriptions "s1";
   Heap.read_task h2 1%positive)
  = Some (Form.set_subscriptions ["gone"%string] Sample.update_task).
Proof. vm_compute. reflexivity. Qed.

Example toggle_on_deep_clone_keeps_store :
  ('(p, h1) ← Heap.load_task Sample.heap Sample.scheduledtasks (Sample.with_id "t1");
   h2 ← Heap.handleUse h1 p Form.Subscriptions "s1";
   Some (Heap.read_task h2 p, Heap.read_task h2 1%positive))
  = Some (Some (Form.set_subscriptions ["gone"%string] Sample.update_task),
          Some Sample.update_task).
Proof. vm_compute. reflexivity. Qed.

(** * Properties of the code editor wrapper *)

Section Editor.

Import CodeViewer.

Local Open Scope nat_scope.

Variable ext : Externals.

Implicit Types (st : state) (view : EditorView) (v : view_ref) (d content : string).

Lemma substring_end d : String.substring (String.length d) 0 d = ""%string.
Proof. induction d as [|c d IH]; simpl; [done|exact IH]. Qed.

Lemma substring_start d : String.substring 0 0 d = ""%string.
Proof. by destruct d. Qed.

Lemma append_empty d : String.append d "" = d.
Proof.
  induction d as [|c d IH]; [reflexivity|].
  change (String c (String.append d "") = String c d). by f_equal.
Qed.

(** Replacing the whole document gives the inserted text, with its line
    breaks normalised. *)
Lemma apply_change_all d content :
  apply_change {| from := 0; to := String.length d; insert := content |} d
  = normalise content.
Proof.
  unfold apply_change. simpl.
  rewrite Nat.sub_diag, substring_start, substring_end, append_empty.
  reflexivity.
Qed.

Lemma eqb_false_iff (x y : string) : String.eqb x y = false ↔ x ≠ y.
Proof. destruct (String.eqb_spec x y); split; congruence. Qed.

(** A replacement of the whole document by a different text counts as a
    change of the document. *)
Lemma docChanged_all d content sel :
  content ≠ d →
  docChanged {| changes := Some {| from := 0; to := String.length d; insert := content |};
                selection := sel |} = true.
Proof.
  intros Hne. unfold docChanged. simpl.
  destruct d as [|c d]; simpl; [|done].
  destruct (String.eqb_spec content ""); [done|done].
Qed.

(** The transaction of the model watcher is always accepted. *)
Lemma transact_model view content :
  transact ext (model_transaction view content) view
  = Js.Resolved {| doc := normalise content;
                   ranges0 := mapRange ext
                                {| from := 0; to := String.length (doc view);
                                   insert := content |} (ranges0 view);
                   ranges_rest := List.map
                                    (mapRange ext
                                       {| from := 0; to := String.length (doc view);
                                          insert := content |}) (ranges_rest view) |}.
Proof.
  unfold transact, model_transaction. simpl.
  rewrite Nat.leb_refl. simpl. by rewrite apply_change_all.
Qed.

(** The transaction of [formatDoc], sent to a view that still holds the
    content, is accepted exactly when the cursor offset lies inside the
    new document. *)
Lemma transact_format view r :
  transact ext (format_transaction (doc view) r) view
  = if (0 <=? formatted_cursorOffset r)%Z
       && (formatted_cursorOffset r
           <=? Z.of_nat (String.length (normalise (formatted r))))%Z
    then Js.Resolved {| doc := normalise (formatted r);
                        ranges0 := {| anchor := Z.to_nat (formatted_cursorOffset r);
                                      head := Z.to_nat (formatted_cursorOffset r) |};
                        ranges_rest := [] |}
    else Js.Rejected (Js.VError "Selection points outside of document").
Proof.
  unfold transact, format_transaction. simpl.
  rewrite Nat.leb_refl. simpl. rewrite apply_change_all.
  by rewrite Z.min_id, Z.max_id.
Qed.

Lemma transact_format_inside view r :
  (0 ≤ formatted_cursorOffset r ≤ Z.of_nat (String.length (normalise (formatted r))))%Z →
  transact ext (format_transaction (doc view) r) view
  = Js.Resolved {| doc := normalise (formatted r);
                   ranges0 := {| anchor := Z.to_nat (formatted_cursorOffset r);
                                 head := Z.to_nat (formatted_cursorOffset r) |};
                   ranges_rest := [] |}.
Proof.
  intros [Hlo Hhi]. rewrite transact_format.
  by rewrite (proj2 (Z.leb_le _ _) Hlo), (proj2 (Z.leb_le _ _) Hhi).
Qed.


Lemma get_put_view st v view view' :
  get_view st v = Some view → get_view (put_view st v view') v = Some view'.
Proof.
  destruct v; simpl; [done| |]; by destruct (mergeView st).
Qed.

Lemma get_view_emit st e v : get_view (emit e st) v = get_view st v.
Proof. by destruct v. Qed.

Lemma get_view_set_pending st o v : get_view (set_pending o st) v = get_view st v.
Proof. by destruct v. Qed.

Lemma get_view_set_model st content v : get_view (set_model content st) v = get_view st v.
Proof. by destruct v. Qed.

Lemma log_put_view st v view : log (put_view st v view) = log st.
Proof. by destruct v. Qed.

Lemma model_put_view st v view : model (put_view st v view) = model st.
Proof. by destruct v. Qed.

Lemma watched_view_emit st e : watched_view (emit e st) = watched_view st.
Proof. done. Qed.

Lemma watched_view_set_pending st o : watched_view (set_pending o st) = watched_view st.
Proof. done. Qed.

Lemma watched_view_set_model st content :
  watched_view (set_model content st) = watched_view st.
Proof. done. Qed.

Lemma watched_view_put st v view view' :
  get_view st v = Some view → watched_view (put_view st v view') = watched_view st.
Proof.
  unfold watched_view. destruct v; simpl.
  - by intros ->.
  - by destruct (mergeView st).
  - by destruct (mergeView st).
Qed.

(** An accepted dispatch that changes the document: the call is logged,
    the view holds the new state, and [onChange] is waiting with the new
    text; the model is not touched. *)
Lemma dispatch_accepted st v tr view view' :
  get_view st v = Some view →
  transact ext tr view = Js.Resolved view' →
  docChanged tr = true →
  ∃ st', dispatch ext v tr st = Js.Resolved st'
         ∧ get_view st' v = Some view'
         ∧ log st' = log st ++ [Dispatch v tr]
         ∧ pending st' = Some (doc view')
         ∧ model st' = model st.
Proof.
  intros Hview Htr Hchanged. unfold dispatch, updateListener, onChange.
  rewrite Hview, Htr, Hchanged. eexists. split; [reflexivity|].
  rewrite get_view_set_pending. simpl.
  rewrite log_put_view, model_put_view. simpl. split_and!; try done.
  apply (get_put_view _ _ view). by rewrite get_view_emit.
Qed.

Lemma watched_view_get st v : watched_view st = Some v → is_Some (get_view st v).
Proof.
  unfold watched_view.
  destruct (editorView st) as [e|] eqn:He; [intros [= <-]; simpl; rewrite He; eauto|].
  destruct (mergeView st) as [m|] eqn:Hm; [intros [= <-]; simpl; rewrite Hm; eauto|done].
Qed.

(** *** The model watcher *)

Lemma watch_model_none content st :
  watched_view st = None → watch_model ext content st = st.
Proof. unfold watch_model. by intros ->. Qed.

Lemma watch_model_same content st v view :
  watched_view st = Some v →
  get_view st v = Some view →
  content = doc view →
  watch_model ext content st = st.
Proof.
  intros Hv Hview ->. unfold watch_model. rewrite Hv, Hview.
  by rewrite String.eqb_refl.
Qed.

Lemma watch_model_differs content st v view :
  watched_view st = Some v →
  get_view st v = Some view →
  content ≠ doc view →
  ∃ view', get_view (watch_model ext content st) v = Some view'
           ∧ doc view' = normalise content
           ∧ log (watch_model ext content st)
             = log st ++ [Dispatch v (model_transaction view content)]
           ∧ pending (watch_model ext content st) = Some (normalise content)
           ∧ model (watch_model ext content st) = model st
           ∧ watched_view (watch_model ext content st) = Some v.
Proof.
  intros Hv Hview Hne. unfold watch_model. rewrite Hv, Hview.
  rewrite (proj2 (eqb_false_iff _ _) Hne). simpl.
  assert (docChanged (model_transaction view content) = true) as Hch
    by (by apply docChanged_all).
  unfold dispatch, updateListener, onChange.
  rewrite Hview, transact_model, Hch.
  eexists. split_and!.
  - rewrite get_view_set_pending. apply (get_put_view _ _ view). by rewrite get_view_emit.
  - done.
  - simpl. by rewrite log_put_view.
  - done.
  - simpl. by rewrite model_put_view.
  - by rewrite watched_view_set_pending, (watched_view_put _ _ view), watched_view_emit
      by (by rewrite get_view_emit).
Qed.

Lemma dispatches_app st st' (es : list event) :
  log st' = log st ++ es →
  dispatches st' = dispatches st ++ List.filter is_dispatch es.
Proof. unfold dispatches. intros ->. apply List.filter_app. Qed.

(** The watcher adds at most one dispatch; what its dispatch leaves waiting
    for the timer is the text of the watched view. *)
Lemma watch_model_settled content st :
  pending st = None →
  Reference.settled (watch_model ext content st)
  ∧ length (dispatches (watch_model ext content st)) ≤ length (dispatches st) + 1.
Proof.
  intros Hpend.
  destruct (watched_view st) as [v|] eqn:Hv.
  - destruct (watched_view_get st v Hv) as [view Hview].
    destruct (decide (content = doc view)) as [Heq|Hne].
    + rewrite (watch_model_same content st v view Hv Hview Heq).
      unfold Reference.settled. rewrite Hpend. split; [done|lia].
    + destruct (watch_model_differs content st v view Hv Hview Hne)
        as (view' & Hget & Hdoc & Hlog & Hp & _ & Hw).
      split.
      * unfold Reference.settled. rewrite Hp. intros v0 view0 Hv0 Hview0.
        rewrite Hw in Hv0. injection Hv0 as <-. congruence.
      * rewrite (dispatches_app _ _ _ Hlog), length_app. simpl. lia.
  - rewrite (watch_model_none content st Hv).
    unfold Reference.settled. rewrite Hpend. split; [done|lia].
Qed.

(** *** The debounced [onChange] *)

Lemma timer_fires_idle st : pending st = None → timer_fires ext st = st.
Proof. unfold timer_fires. by intros ->. Qed.

(** When the waiting call carries the text of the watched view, the timer
    hands it to the model without any dispatch, and nothing is left
    waiting. *)
Lemma timer_fires_settled st :
  Reference.settled st →
  pending (timer_fires ext st) = None
  ∧ dispatches (timer_fires ext st) = dispatches st.
Proof.
  unfold Reference.settled, timer_fires.
  destruct (pending st) as [content|] eqn:Hp; [|by rewrite Hp].
  intros Hdoc.
  set (st2 := emit (EmitChange content) (set_model content (set_pending None st))).
  assert (dispatches st2 = dispatches st) as Hd.
  { unfold dispatches, st2. simpl. rewrite List.filter_app. simpl. apply app_nil_r. }
  assert (watch_model ext content st2 = st2) as Hquiet.
  { destruct (watched_view st2) as [v|] eqn:Hv; [|by apply watch_model_none].
    destruct (watched_view_get st2 v Hv) as [view Hview].
    apply (watch_model_same content st2 v view Hv Hview).
    symmetry. apply (Hdoc v view).
    - exact Hv.
    - unfold st2 in Hview.
      by rewrite get_view_emit, get_view_set_model, get_view_set_pending in Hview. }
  simpl. destruct (negb _); [rewrite Hquiet|]; done.
Qed.

(** Whatever the state, one firing of the timer costs at most one
    dispatch, and what is left waiting is the text of the watched view. *)
Lemma timer_fires_settles st :
  Reference.settled (timer_fires ext st)
  ∧ length (dispatches (timer_fires ext st)) ≤ length (dispatches st) + 1.
Proof.
  unfold timer_fires.
  destruct (pending st) as [content|] eqn:Hp.
  - set (st2 := emit (EmitChange content) (set_model content (set_pending None st))).
    assert (dispatches st2 = dispatches st) as Hd.
    { unfold dispatches, st2. simpl. rewrite List.filter_app. simpl. apply app_nil_r. }
    simpl. destruct (negb (String.eqb content (model st))).
    + destruct (watch_model_settled content st2 eq_refl) as [Hs Hl].
      split; [done|]. by rewrite <- Hd.
    + split; [done|]. rewrite Hd. lia.
  - unfold Reference.settled. rewrite Hp. split; [done|lia].
Qed.

(** After two firings nothing more happens. *)
Lemma timer_fires_twice st :
  timer_fires ext (timer_fires ext (timer_fires ext st))
  = timer_fires ext (timer_fires ext st)
  ∧ length (dispatches (timer_fires ext (timer_fires ext st)))
    ≤ length (dispatches st) + 1.
Proof.
  destruct (timer_fires_settles st) as [Hs Hl].
  destruct (timer_fires_settled _ Hs) as (Hp & Hd).
  split; [by apply timer_fires_idle|]. by rewrite Hd.
Qed.

Lemma timer_fires_n_idle n st : pending st = None → timer_fires_n ext n st = st.
Proof.
  intros Hp. induction n as [|n IH]; simpl; [done|].
  by rewrite (timer_fires_idle st Hp).
Qed.

Lemma timer_fires_n_stable n st :
  timer_fires_n ext (S (S n)) st = timer_fires ext (timer_fires ext st).
Proof.
  simpl. apply timer_fires_n_idle.
  destruct (timer_fires_settles st) as [Hs _].
  by destruct (timer_fires_settled _ Hs) as (Hp & _).
Qed.

Lemma timer_fires_n_bound n st :
  length (dispatches (timer_fires_n ext n st)) ≤ length (dispatches st) + 1.
Proof.
  destruct n as [|[|n]].
  - simpl. lia.
  - simpl. apply timer_fires_settles.
  - rewrite timer_fires_n_stable. apply timer_fires_twice.
Qed.

(** *** formatDoc *)

Variable props : Props.

Lemma docChanged_format content r :
  formatted r ≠ content → docChanged (format_transaction content r) = true.
Proof. intros Hne. by apply docChanged_all. Qed.

(** The three ways the wait for Prettier can end. *)
Lemma formatDoc_resume_rejected st v content cursor error :
  formatWithCursor ext content (format_options props cursor) = Js.Rejected error →
  formatDoc_resume ext props v content cursor st
  = message_error (Js.message_or_self error) st.
Proof. intros Hrej. unfold formatDoc_resume. by rewrite Hrej. Qed.

Lemma formatDoc_resume_same st v content cursor r :
  formatWithCursor ext content (format_options props cursor) = Js.Resolved r →
  formatted r = content →
  formatDoc_resume ext props v content cursor st = st.
Proof.
  intros Hok Heq. unfold formatDoc_resume. rewrite Hok, Heq.
  by rewrite String.eqb_refl.
Qed.

Lemma formatDoc_resume_differs st v content cursor r view :
  formatWithCursor ext content (format_options props cursor) = Js.Resolved r →
  formatted r ≠ content →
  get_view st v = Some view →
  formatDoc_resume ext props v content cursor st
  = match transact ext (format_transaction content r) view with
    | Js.Resolved view' =>
        set_pending (Some (doc view'))
          (put_view (emit (Dispatch v (format_transaction content r)) st) v view')
    | Js.Rejected error => message_error (Js.message_or_self error) st
    end.
Proof.
  intros Hok Hne Hview. unfold formatDoc_resume. rewrite Hok.
  assert (String.eqb content (formatted r) = false) as ->
    by (apply eqb_false_iff; congruence).
  simpl. unfold dispatch, updateListener, onChange. rewrite Hview.
  destruct (transact ext _ view) as [view'|error]; [|done].
  by rewrite (docChanged_format content r Hne).
Qed.

Lemma formatDoc_rejected st v view error :
  get_view st v = Some view →
  formatWithCursor ext (doc view) (format_options props (range_from (ranges0 view)))
  = Js.Rejected error →
  formatDoc ext props v st = message_error (Js.message_or_self error) st.
Proof.
  intros Hview Hrej. unfold formatDoc, formatDoc_during. rewrite Hview.
  by apply formatDoc_resume_rejected.
Qed.

Lemma formatDoc_same st v view r :
  get_view st v = Some view →
  formatWithCursor ext (doc view) (format_options props (range_from (ranges0 view)))
  = Js.Resolved r →
  formatted r = doc view →
  formatDoc ext props v st = st.
Proof.
  intros Hview Hok Heq. unfold formatDoc, formatDoc_during. rewrite Hview.
  by apply (formatDoc_resume_same _ _ _ _ r).
Qed.

Lemma formatDoc_replaced st v view r :
  get_view st v = Some view →
  formatWithCursor ext (doc view) (format_options props (range_from (ranges0 view)))
  = Js.Resolved r →
  formatted r ≠ doc view →
  (0 ≤ formatted_cursorOffset r
     ≤ Z.of_nat (String.length (normalise (formatted r))))%Z →
  get_view (formatDoc ext props v st) v
  = Some {| doc := normalise (formatted r);
            ranges0 := {| anchor := Z.to_nat (formatted_cursorOffset r);
                          head := Z.to_nat (formatted_cursorOffset r) |};
            ranges_rest := [] |}
  ∧ log (formatDoc ext props v st)
    = log st ++ [Dispatch v (format_transaction (doc view) r)].
Proof.
  intros Hview Hok Hne Hin. unfold formatDoc, formatDoc_during. rewrite Hview.
  rewrite (formatDoc_resume_differs st v _ _ r view Hok Hne Hview).
  rewrite (transact_format_inside view r Hin). split.
  - rewrite get_view_set_pending. apply (get_put_view _ _ view). by rewrite get_view_emit.
  - simpl. by rewrite log_put_view.
Qed.

(** *** Changes that start in the editor *)

(** After a change made in the watched view has reached the model through
    [onChange], the view and the model agree and the watcher has not
    dispatched anything. *)
Lemma editor_change_propagates st v tr view view' :
  watched_view st = Some v →
  get_view st v = Some view →
  transact ext tr view = Js.Resolved view' →
  docChanged tr = true →
  model (timer_fires ext (editor_change ext v tr st)) = doc view'
  ∧ get_view (timer_fires ext (editor_change ext v tr st)) v = Some view'
  ∧ dispatches (timer_fires ext (editor_change ext v tr st))
    = dispatches (editor_change ext v tr st)
  ∧ pending (timer_fires ext (editor_change ext v tr st)) = None.
Proof.
  intros Hv Hview Htr Hch. unfold editor_change, dispatch, updateListener, onChange.
  rewrite Hview, Htr, Hch.
  set (st1 := set_pending (Some (doc view'))
                (put_view (emit (Dispatch v tr) st) v view')).
  assert (get_view st1 v = Some view') as Hget.
  { unfold st1. rewrite get_view_set_pending.
    apply (get_put_view _ _ view). by rewrite get_view_emit. }
  assert (watched_view st1 = Some v) as Hv1.
  { unfold st1. by rewrite watched_view_set_pending, (watched_view_put _ _ view),
      watched_view_emit by (by rewrite get_view_emit). }
  unfold timer_fires. change (pending st1) with (Some (doc view')). cbv iota beta.
  set (st2 := emit (EmitChange (doc view'))
                (set_model (doc view') (set_pending None st1))).
  assert (watch_model ext (doc view') st2 = st2) as Hquiet.
  { apply (watch_model_same _ st2 v view'); [|by unfold st2; rewrite get_view_emit,
      get_view_set_model, get_view_set_pending|done].
    unfold st2. by rewrite watched_view_emit, watched_view_set_model,
      watched_view_set_pending. }
  assert ((if negb (String.eqb (doc view') (model (set_pending None st1)))
           then watch_model ext (doc view') st2 else st2) = st2) as ->.
  { by destruct (negb _). }
  split; [done|]. split.
  { unfold st2. by rewrite get_view_emit, get_view_set_model, get_view_set_pending. }
  split; [|done].
  unfold dispatches, st2. simpl. rewrite List.filter_app. simpl. apply app_nil_r.
Qed.

End Editor.




(** C10: the model watcher dispatches a replacement of the document only
    when the new model value differs from the text of the watched view: with
    no view, or with a view that already holds the value, the watcher does
    nothing; otherwise it dispatches one transaction, after which the view
    holds the value with its line breaks normalised.  After a change made
    in the editor has reached the model through [onChange], the model equals
    the document and the watcher has dispatched nothing.  Whatever the
    state, the chain of [onChange] timers and watcher runs that follows a
    model update contains at most one dispatch and has come to rest after
    two timer rounds: model updates cannot loop. *)
Theorem watch_model_no_loop
    (ext : CodeViewer.Externals) (content : string) (st : CodeViewer.state) :
  (CodeViewer.watched_view st = None → CodeViewer.watch_model ext content st = st)
  ∧ (∀ v view,
       CodeViewer.watched_view st = Some v →
       CodeViewer.get_view st v = Some view →
       (content = CodeViewer.doc view → CodeViewer.watch_model ext content st = st)
       ∧ (content ≠ CodeViewer.doc view →
          ∃ view',
            CodeViewer.get_view (CodeViewer.watch_model ext content st) v = Some view'
            ∧ CodeViewer.doc view' = CodeViewer.normalise content
            ∧ CodeViewer.log (CodeViewer.watch_model ext content st)
              = CodeViewer.log st
                ++ [CodeViewer.Dispatch v (CodeViewer.model_transaction view content)]))
  ∧ (∀ v tr view view',
       CodeViewer.watched_view st = Some v →
       CodeViewer.get_view st v = Some view →
       CodeViewer.transact ext tr view = Js.Resolved view' →
       CodeViewer.docChanged tr = true →
       CodeViewer.model (CodeViewer.timer_fires ext (CodeViewer.editor_change ext v tr st))
       = CodeViewer.doc view'
       ∧ CodeViewer.dispatches
           (CodeViewer.timer_fires ext (CodeViewer.editor_change ext v tr st))
         = CodeViewer.dispatches (CodeViewer.editor_change ext v tr st))
  ∧ (∀ n,
       (length (CodeViewer.dispatches
                  (CodeViewer.timer_fires_n ext n (CodeViewer.assign_model ext content st)))
        ≤ length (CodeViewer.dispatches (CodeViewer.assign_model ext content st)) + 1)%nat
       ∧ (length (CodeViewer.dispatches (CodeViewer.assign_model ext content st))
          ≤ length (CodeViewer.dispatches st) + 1)%nat
       ∧ CodeViewer.timer_fires_n ext (S (S n)) (CodeViewer.assign_model ext content st)
         = CodeViewer.timer_fires_n ext 2 (CodeViewer.assign_model ext content st)).
Proof.
  split; [|split; [|split]].
  - apply watch_model_none.
  - intros v view Hv Hview. split.
    + by apply (watch_model_same ext content st v view).
    + intros Hne.
      destruct (watch_model_differs ext content st v view Hv Hview Hne)
        as (view' & Hget & Hdoc & Hlog & _).
      by exists view'.
  - intros v tr view view' Hv Hview Htr Hch.
    destruct (editor_change_propagates ext st v tr view view' Hv Hview Htr Hch)
      as (Hm & _ & Hd & _).
    done.
  - intros n. split; [apply timer_fires_n_bound|]. split.
    + unfold CodeViewer.assign_model.
      destruct (String.eqb content (CodeViewer.model st)); [cbv iota; lia|].
      destruct (CodeViewer.watched_view (CodeViewer.set_model content st)) as [v|] eqn:Hv.
      * destruct (watched_view_get _ _ Hv) as [view Hview].
        destruct (decide (content = CodeViewer.doc view)) as [Heq|Hne].
        -- rewrite (watch_model_same ext content _ v view Hv Hview Heq).
           unfold CodeViewer.dispatches. simpl. lia.
        -- destruct (watch_model_differs ext content _ v view Hv Hview Hne)
             as (view' & _ & _ & Hlog & _).
           rewrite (dispatches_app _ _ _ Hlog), length_app. simpl.
           unfold CodeViewer.dispatches. simpl. lia.
      * rewrite (watch_model_none ext content _ Hv).
        unfold CodeViewer.dispatches. simpl. lia.
    + rewrite !timer_fires_n_stable. done.
Qed.

Lemma watch_model_no_loop_witness :
  CodeViewer.watch_model Sample.prettier "a: 1" (Sample.editor_on "a: 1" "a: 1")
  = Sample.editor_on "a: 1" "a: 1"
  ∧ ∃ view',
      CodeViewer.get_view
        (CodeViewer.watch_model Sample.prettier "b: 2" (Sample.editor_on "b: 2" "a: 1"))
        CodeViewer.TheEditor = Some view'
      ∧ CodeViewer.doc view' = "b: 2"%string.
Proof.
  destruct (watch_model_no_loop Sample.prettier "a: 1" (Sample.editor_on "a: 1" "a: 1"))
    as (_ & Hsame & _).
  destruct (watch_model_no_loop Sample.prettier "b: 2" (Sample.editor_on "b: 2" "a: 1"))
    as (_ & Hdiff & _).
  split.
  - destruct (Hsame CodeViewer.TheEditor (Sample.view_of "a: 1") eq_refl eq_refl)
      as (Hquiet & _).
    apply Hquiet. reflexivity.
  - destruct (Hdiff CodeViewer.TheEditor (Sample.view_of "a: 1") eq_refl eq_refl)
      as (_ & Hsend).
    destruct Hsend as (view' & Hget & Hdoc & _); [discriminate|].
    exists view'. split; [exact Hget|exact Hdoc].
Defined.

(** * Further properties of the scheduled-task form *)

(** ** Toggling and the selected flag of a card *)

Section Toggle.

Implicit Types (l : list string) (id x : string).

Lemma includes_true l id : Template.includes l id = true ↔ id ∈ l.
Proof.
  induction l as [|v l IH]; simpl.
  - split; [done|]. by intros ?%elem_of_nil.
  - rewrite orb_true_iff, IH, elem_of_cons, String.eqb_eq. intuition congruence.
Qed.

Lemma includes_false l id : Template.includes l id = false ↔ id ∉ l.
Proof.
  rewrite <- includes_true. destruct (Template.includes l id); split; congruence.
Qed.

Lemma includes_app l1 l2 id :
  Template.includes (l1 ++ l2) id = Template.includes l1 id || Template.includes l2 id.
Proof.
  induction l1 as [|v l1 IH]; simpl; [done|]. by rewrite IH, orb_assoc.
Qed.

Lemma handleUse_cases l id :
  ((id ∉ l) ∧ Form.handleUse l id = l ++ [id])
  ∨ (∃ l1 l2, l = l1 ++ id :: l2 ∧ (id ∉ l1) ∧ Form.handleUse l id = l1 ++ l2).
Proof.
  destruct (decide (id ∈ l)) as [Hin|Hnot].
  - right. destruct (first_occurrence id l Hin) as (l1 & l2 & -> & Hnot1).
    exists l1, l2. split_and!; [done..|]. by apply handleUse_present.
  - left. split; [done|]. by apply handleUse_absent.
Qed.

End Toggle.

Lemma handleUse_NoDup_preserved (l : list string) (id : string) :
  NoDup l → NoDup (Form.handleUse l id).
Proof.
  intros Hnd. destruct (handleUse_cases l id) as [[Hnot ->]|(l1 & l2 & -> & _ & ->)].
  - apply NoDup_app. split_and!; [done| |apply NoDup_singleton].
    intros x Hx ->%list_elem_of_singleton. done.
  - apply NoDup_app in Hnd as (Hnd1 & Hcross & Hnd2).
    apply NoDup_cons in Hnd2 as [_ Hnd2].
    apply NoDup_app. split_and!; [done| |done].
    intros x Hx Hx2. apply (Hcross x Hx). by apply list_elem_of_further.
Qed.

(** X1: [handleUse] keeps a list free of duplicates. *)
Theorem handleUse_NoDup (l : list string) (id : string) :
  NoDup l → NoDup (Form.handleUse l id).
Proof.
  intros Hnd. destruct (handleUse_cases l id) as [[Hnot ->]|(l1 & l2 & -> & _ & ->)].
  - (* appended at the end: the id was not there *)
    apply NoDup_app. split_and!; [done| |apply NoDup_singleton].
    intros x Hx ->%list_elem_of_singleton. done.
  - (* first occurrence removed: what is left is a sublist *)
    apply NoDup_app in Hnd as (Hnd1 & Hcross & Hnd2).
    apply NoDup_cons in Hnd2 as [_ Hnd2].
    apply NoDup_app. split_and!; [done| |done].
    intros x Hx Hx2. apply (Hcross x Hx). by apply list_elem_of_further.
Qed.

Lemma handleUse_NoDup_witness :
  NoDup (Form.handleUse ["a"; "b"; "c"]%string "b").
Proof.
  apply handleUse_NoDup. apply (bool_decide_unpack _). vm_compute. reflexivity.
Defined.

(** X2: on a duplicate-free list, [handleUse] with an id flips what
    [includes] answers for that id, and for every list it leaves the answer
    for every other id as it was: a click flips the selected flag of the
    clicked card and of no other card. *)
Theorem handleUse_flips_includes (l : list string) (id : string) :
  (NoDup l →
   Template.includes (Form.handleUse l id) id = negb (Template.includes l id))
  ∧ (∀ x, x ≠ id →
       Template.includes (Form.handleUse l id) x = Template.includes l x).
Proof.
  destruct (handleUse_cases l id) as [[Hnot ->]|(l1 & l2 & -> & Hnot1 & ->)].
  - split.
    + intros _. rewrite includes_app. simpl. rewrite String.eqb_refl.
      rewrite (proj2 (includes_false l id) Hnot). done.
    + intros x Hne. rewrite includes_app. simpl.
      destruct (String.eqb_spec id x) as [->|_]; [done|].
      by rewrite !orb_false_r.
  - split.
    + intros Hnd. apply NoDup_app in Hnd as (_ & _ & Hnd2).
      apply NoDup_cons in Hnd2 as [Hnot2 _].
      rewrite !includes_app. simpl. rewrite String.eqb_refl.
      rewrite (proj2 (includes_false l1 id) Hnot1), (proj2 (includes_false l2 id) Hnot2).
      done.
    + intros x Hne. rewrite !includes_app. simpl.
      destruct (String.eqb_spec id x) as [->|_]; done.
Qed.

Lemma handleUse_flips_includes_witness :
  Template.includes (Form.handleUse ["a"; "b"]%string "b") "b" = false
  ∧ Template.includes (Form.handleUse ["a"; "b"]%string "b") "a" = true.
Proof.
  destruct (handleUse_flips_includes ["a"; "b"]%string "b") as [Hflip Hkeep].
  split.
  - rewrite Hflip; [reflexivity|]. apply (bool_decide_unpack _). vm_compute. reflexivity.
  - rewrite Hkeep; [reflexivity|discriminate].
Defined.

(** X3: [handleUse] changes the length of the list by exactly one: one
    element less when the id is included, one more when it is not. *)
Theorem handleUse_length (l : list string) (id : string) :
  length (Form.handleUse l id)
  = if Template.includes l id then (length l - 1)%nat else (length l + 1)%nat.
Proof.
  destruct (handleUse_cases l id) as [[Hnot ->]|(l1 & l2 & -> & Hnot1 & ->)].
  - rewrite (proj2 (includes_false l id) Hnot), length_app. done.
  - assert (Template.includes (l1 ++ id :: l2) id = true) as ->.
    { apply includes_true. rewrite elem_of_app, elem_of_cons. tauto. }
    rewrite !length_app. simpl. lia.
Qed.

(** ** The filtering of references *)

Section Filtering.

Context {A B : Type}.

Implicit Types (f : A → option B) (xs : list A).

Lemma filter_truthy_elem f xs x :
  x ∈ Js.filter_truthy f xs ↔ x ∈ xs ∧ is_Some (f x).
Proof.
  induction xs as [|y xs IH]; simpl.
  - split; [by intros ?%elem_of_nil|]. by intros [?%elem_of_nil _].
  - destruct (f y) as [b|] eqn:Hy.
    + rewrite !elem_of_cons, IH. split.
      * intros [->|[? ?]]; [by rewrite Hy; eauto|tauto].
      * intros [[->|?] ?]; tauto.
    + rewrite elem_of_cons, IH. split; [tauto|].
      intros [[->|?] Hs]; [|tauto]. rewrite Hy in Hs. by destruct Hs.
Qed.

Lemma filter_truthy_all f xs :
  Forall (λ x, is_Some (f x)) xs → Js.filter_truthy f xs = xs.
Proof.
  induction 1 as [|x xs [b Hx] _ IH]; simpl; [done|]. by rewrite Hx, IH.
Qed.

Lemma filter_truthy_kept f xs : Forall (λ x, is_Some (f x)) (Js.filter_truthy f xs).
Proof.
  induction xs as [|x xs IH]; simpl; [constructor|].
  destruct (f x) eqn:Hx; [constructor; [by rewrite Hx|done]|done].
Qed.

Lemma filter_truthy_idem f xs :
  Js.filter_truthy f (Js.filter_truthy f xs) = Js.filter_truthy f xs.
Proof. apply filter_truthy_all, filter_truthy_kept. Qed.

Lemma filter_truthy_sublist f xs : Js.filter_truthy f xs `sublist_of` xs.
Proof.
  induction xs as [|x xs IH]; simpl; [constructor|].
  destruct (f x); by constructor.
Qed.

Lemma filter_truthy_NoDup f xs : NoDup xs → NoDup (Js.filter_truthy f xs).
Proof.
  intros Hnd. eapply sublist_NoDup; [exact Hnd|apply filter_truthy_sublist].
Qed.

(** [find] answers exactly for the ids that occur in the collection. *)
Lemma find_is_Some (key : A → string) xs (id : string) :
  is_Some (Js.find (λ v, String.eqb (key v) id) xs) ↔ id ∈ List.map key xs.
Proof.
  induction xs as [|x xs IH]; simpl.
  - split; [by intros [? ?]|by intros ?%elem_of_nil].
  - destruct (String.eqb_spec (key x) id) as [<-|Hne].
    + split; [intros _; apply list_elem_of_here|eauto].
    + rewrite IH, elem_of_cons. split; [tauto|]. intros [?|?]; [congruence|done].
Qed.

End Filtering.

Lemma getSubscribeById_is_Some (store : Store.t) (id : string) :
  is_Some (Store.getSubscribeById store id) ↔ Reference.existing_subscription store id.
Proof. apply find_is_Some. Qed.

Lemma getRulesetById_is_Some (store : Store.t) (id : string) :
  is_Some (Store.getRulesetById store id) ↔ Reference.existing_ruleset store id.
Proof. apply find_is_Some. Qed.

Lemma getPluginById_is_Some (store : Store.t) (id : string) :
  is_Some (Store.getPluginById store id) ↔ Reference.existing_plugin store id.
Proof. apply find_is_Some. Qed.

(** X4: the filter of [handleSubmit] keeps, in the list that belongs to the
    type of the task, exactly the ids that were in the list and exist in
    the store collection, in their old order. *)
Theorem filter_references_exact (store : Store.t) (t : ScheduledTask.t) :
  match ScheduledTask.type t with
  | UpdateSubscription =>
      (∀ x, x ∈ ScheduledTask.subscriptions (Form.filter_references store t)
            ↔ x ∈ ScheduledTask.subscriptions t ∧ Reference.existing_subscription store x)
      ∧ ScheduledTask.subscriptions (Form.filter_references store t)
        `sublist_of` ScheduledTask.subscriptions t
  | UpdateRuleset =>
      (∀ x, x ∈ ScheduledTask.rulesets (Form.filter_references store t)
            ↔ x ∈ ScheduledTask.rulesets t ∧ Reference.existing_ruleset store x)
      ∧ ScheduledTask.rulesets (Form.filter_references store t)
        `sublist_of` ScheduledTask.rulesets t
  | UpdatePlugin | RunPlugin =>
      (∀ x, x ∈ ScheduledTask.plugins (Form.filter_references store t)
            ↔ x ∈ ScheduledTask.plugins t ∧ Reference.existing_plugin store x)
      ∧ ScheduledTask.plugins (Form.filter_references store t)
        `sublist_of` ScheduledTask.plugins t
  | RunScript => Form.filter_references store t = t
  end.
Proof.
  unfold Form.filter_references.
  destruct (ScheduledTask.type t); simpl; [done|..];
    (split; [|apply filter_truthy_sublist]); intros x; rewrite filter_truthy_elem.
  - by rewrite getSubscribeById_is_Some.
  - by rewrite getRulesetById_is_Some.
  - by rewrite getPluginById_is_Some.
  - by rewrite getPluginById_is_Some.
Qed.

Lemma filter_references_type (store : Store.t) (t : ScheduledTask.t) :
  ScheduledTask.type (Form.filter_references store t) = ScheduledTask.type t.
Proof.
  destruct t as [i n ty subs rules plugs sc cr no di la].
  unfold Form.filter_references. simpl. by destruct ty.
Qed.

Lemma filter_references_again (store : Store.t) (t : ScheduledTask.t) :
  Form.filter_references store (Form.filter_references store t)
  = Form.filter_references store t.
Proof.
  destruct t as [i n ty subs rules plugs sc cr no di la].
  unfold Form.filter_references. simpl.
  destruct ty; simpl; [done|..];
    unfold Form.set_subscriptions, Form.set_rulesets, Form.set_plugins; simpl;
    by rewrite filter_truthy_idem.
Qed.

Lemma filter_references_scalars (store : Store.t) (t : ScheduledTask.t) :
  ScheduledTask.id (Form.filter_references store t) = ScheduledTask.id t
  ∧ ScheduledTask.name (Form.filter_references store t) = ScheduledTask.name t
  ∧ ScheduledTask.type (Form.filter_references store t) = ScheduledTask.type t
  ∧ ScheduledTask.script (Form.filter_references store t) = ScheduledTask.script t
  ∧ ScheduledTask.cron (Form.filter_references store t) = ScheduledTask.cron t
  ∧ ScheduledTask.notification (Form.filter_references store t)
    = ScheduledTask.notification t
  ∧ ScheduledTask.disabled (Form.filter_references store t) = ScheduledTask.disabled t
  ∧ ScheduledTask.lastTime (Form.filter_references store t) = ScheduledTask.lastTime t.
Proof.
  destruct t as [i n ty subs rules plugs sc cr no di la].
  unfold Form.filter_references; simpl; by destruct ty.
Qed.

(** X5: filtering a second time against the same store changes nothing,
    and filtering never touches the id, name, type, script, cron string,
    flags or last-run time of the task. *)
Theorem filter_references_idempotent (store : Store.t) (t : ScheduledTask.t) :
  Form.filter_references store (Form.filter_references store t)
  = Form.filter_references store t
  ∧ ScheduledTask.id (Form.filter_references store t) = ScheduledTask.id t
  ∧ ScheduledTask.name (Form.filter_references store t) = ScheduledTask.name t
  ∧ ScheduledTask.type (Form.filter_references store t) = ScheduledTask.type t
  ∧ ScheduledTask.script (Form.filter_references store t) = ScheduledTask.script t
  ∧ ScheduledTask.cron (Form.filter_references store t) = ScheduledTask.cron t
  ∧ ScheduledTask.notification (Form.filter_references store t)
    = ScheduledTask.notification t
  ∧ ScheduledTask.disabled (Form.filter_references store t) = ScheduledTask.disabled t
  ∧ ScheduledTask.lastTime (Form.filter_references store t) = ScheduledTask.lastTime t.
Proof.
  destruct t as [i n ty subs rules plugs sc cr no di la].
  unfold Form.filter_references. simpl.
  destruct ty; simpl; split_and!; try done;
    unfold Form.set_subscriptions, Form.set_rulesets, Form.set_plugins; simpl;
    by rewrite filter_truthy_idem.
Qed.

Lemma filter_references_unchanged (store : Store.t) (t : ScheduledTask.t) :
  Reference.selected_references_exist store t → Form.filter_references store t = t.
Proof.
  unfold Reference.selected_references_exist, Form.filter_references.
  destruct t as [i n ty subs rules plugs sc cr no di la]; simpl.
  unfold Form.set_subscriptions, Form.set_rulesets, Form.set_plugins.
  destruct ty; simpl; [done|..]; intros Hall.
  - rewrite filter_truthy_all; [done|]. eapply Forall_impl; [exact Hall|].
    intros x Hx. by apply getSubscribeById_is_Some.
  - rewrite filter_truthy_all; [done|]. eapply Forall_impl; [exact Hall|].
    intros x Hx. by apply getRulesetById_is_Some.
  - rewrite filter_truthy_all; [done|]. eapply Forall_impl; [exact Hall|].
    intros x Hx. by apply getPluginById_is_Some.
  - rewrite filter_truthy_all; [done|]. eapply Forall_impl; [exact Hall|].
    intros x Hx. by apply getPluginById_is_Some.
Qed.

(** X6: the filter leaves a task as it is exactly when the list that
    belongs to its type holds ids of existing entries only. *)
Theorem filter_references_fixpoint (store : Store.t) (t : ScheduledTask.t) :
  Form.filter_references store t = t ↔ Reference.selected_references_exist store t.
Proof.
  split.
  - intros <-. apply filter_references_selected.
  - apply filter_references_unchanged.
Qed.

(** ** handleSubmit over all outcomes *)

Lemma handleSubmit_events
    (ext : Form.Externals) (props : Form.Props) (store : Store.t) (st : Form.state) :
  Form.new_events (Form.handleSubmit ext props store) st
  = match Form.ValidateCron ext (ScheduledTask.cron (Form.task st)) with
    | Js.Rejected error =>
        [Form.CallValidateCron (ScheduledTask.cron (Form.task st));
         Form.MessageError error]
    | Js.Resolved _ =>
        Form.CallValidateCron (ScheduledTask.cron (Form.task st))
        :: Reference.store_call props (Form.filter_references store (Form.task st))
        :: match Reference.store_outcome ext props
                   (Form.filter_references store (Form.task st)) with
           | Js.Resolved _ => Form.CallHandleCancel :: Reference.after_cancel ext
           | Js.Rejected error => [Form.ConsoleError error; Form.MessageError error]
           end
    end.
Proof.
  destruct (Form.ValidateCron ext (ScheduledTask.cron (Form.task st))) as [[]|e] eqn:Hv.
  - apply new_events_app. by rewrite (handleSubmit_validated ext props store st Hv).
  - apply new_events_app. by rewrite (handleSubmit_rejected ext props store st e Hv).
Qed.

Lemma handleSubmit_loading
    (ext : Form.Externals) (props : Form.Props) (store : Store.t) (st : Form.state) :
  Form.loading (snd (Form.handleSubmit ext props store st))
  = match Form.ValidateCron ext (ScheduledTask.cron (Form.task st)) with
    | Js.Rejected _ => Form.loading st
    | Js.Resolved _ => false
    end.
Proof.
  destruct (Form.ValidateCron ext (ScheduledTask.cron (Form.task st))) as [[]|e] eqn:Hv.
  - by rewrite (handleSubmit_validated ext props store st Hv).
  - by rewrite (handleSubmit_rejected ext props store st e Hv).
Qed.

Lemma store_call_is_persist (props : Form.Props) (t : ScheduledTask.t) :
  Form.is_persist (Reference.store_call props t) = true
  ∧ Form.is_cancel (Reference.store_call props t) = false.
Proof.
  unfold Reference.store_call.
  by destruct (Form.props_id props) as [id|]; [destruct (Js.truthy id)|].
Qed.

(** X7: whatever the collaborators answer, [handleSubmit] starts with the
    call of [ValidateCron], calls the store exactly when the cron string
    was accepted (and then once), calls [handleCancel] exactly when the
    store call succeeded as well (and then once), and never leaves the
    loading flag set that was clear before. *)
Theorem handleSubmit_protocol
    (ext : Form.Externals) (props : Form.Props) (store : Store.t) (st : Form.state) :
  head (Form.new_events (Form.handleSubmit ext props store) st)
  = Some (Form.CallValidateCron (ScheduledTask.cron (Form.task st)))
  ∧ Form.count Form.is_persist (Form.new_events (Form.handleSubmit ext props store) st)
    = (if Form.ValidateCron ext (ScheduledTask.cron (Form.task st)) is Js.Resolved _
       then 1 else 0)%nat
  ∧ Form.count Form.is_cancel (Form.new_events (Form.handleSubmit ext props store) st)
    = (if Form.ValidateCron ext (ScheduledTask.cron (Form.task st)) is Js.Resolved _
       then if Reference.store_outcome ext props
                 (Form.filter_references store (Form.task st)) is Js.Resolved _
            then 1 else 0
       else 0)%nat
  ∧ (Form.loading st = false →
     Form.loading (snd (Form.handleSubmit ext props store st)) = false).
Proof.
  rewrite handleSubmit_events, handleSubmit_loading.
  destruct (store_call_is_persist props (Form.filter_references store (Form.task st)))
    as [Hp Hc].
  destruct (Form.ValidateCron ext (ScheduledTask.cron (Form.task st))) as [[]|e];
    [|by split_and!].
  unfold Form.count. simpl. rewrite Hp, Hc.
  unfold Reference.after_cancel.
  destruct (Reference.store_outcome ext props _) as [[]|e];
    [destruct (Form.handleCancel ext) as [[]|e']|]; simpl; by split_and!.
Qed.

Lemma handleSubmit_protocol_witness :
  Form.loading (snd (Form.handleSubmit Sample.failing_store Sample.no_id Sample.store
                       (Sample.form Sample.update_task))) = false.
Proof.
  destruct (handleSubmit_protocol Sample.failing_store Sample.no_id Sample.store
              (Sample.form Sample.update_task)) as (_ & _ & _ & Hload).
  apply Hload. reflexivity.
Defined.

(** X8: a failed save can be repeated.  When the store call of a first
    [handleSubmit] was rejected, the form is left with the filtered record
    and a clear loading flag, and a second [handleSubmit] whose calls
    succeed hands the store the same record as the first and then calls
    [handleCancel]. *)
Theorem handleSubmit_retry
    (ext1 ext2 : Form.Externals) (props : Form.Props) (store : Store.t)
    (st : Form.state) (error : Js.value) :
  Form.ValidateCron ext1 (ScheduledTask.cron (Form.task st)) = Js.Resolved tt →
  Reference.store_outcome ext1 props (Form.filter_references store (Form.task st))
  = Js.Rejected error →
  Form.ValidateCron ext2 (ScheduledTask.cron (Form.task st)) = Js.Resolved tt →
  Reference.store_outcome ext2 props (Form.filter_references store (Form.task st))
  = Js.Resolved tt →
  Form.task (snd (Form.handleSubmit ext1 props store st))
  = Form.filter_references store (Form.task st)
  ∧ Form.loading (snd (Form.handleSubmit ext1 props store st)) = false
  ∧ Form.new_events (Form.handleSubmit ext2 props store)
      (snd (Form.handleSubmit ext1 props store st))
    = Form.CallValidateCron (ScheduledTask.cron (Form.task st))
      :: Reference.store_call props (Form.filter_references store (Form.task st))
      :: Form.CallHandleCancel
      :: Reference.after_cancel ext2.
Proof.
  intros Hv1 Hs1 Hv2 Hs2.
  pose proof (handleSubmit_validated ext1 props store st Hv1) as Hrun. simpl in Hrun.
  pose proof (filter_references_again store (Form.task st)) as Hidem.
  destruct (filter_references_scalars store (Form.task st)) as (_ & _ & _ & _ & Hcron & _).
  rewrite handleSubmit_events. rewrite Hrun. simpl.
  rewrite Hidem, Hcron, Hv2, Hs2. done.
Qed.

Lemma handleSubmit_retry_witness :
  Form.new_events (Form.handleSubmit Sample.accepting Sample.no_id Sample.store)
    (snd (Form.handleSubmit Sample.failing_store Sample.no_id Sample.store
            (Sample.form Sample.update_task)))
  = [Form.CallValidateCron "0 0 3 * * *";
     Form.CallAddScheduledTask (Form.set_subscriptions ["s1"%string] Sample.update_task);
     Form.CallHandleCancel].
Proof.
  destruct (handleSubmit_retry Sample.failing_store Sample.accepting Sample.no_id
              Sample.store (Sample.form Sample.update_task) (Js.VString "write failed"))
    as (_ & _ & Hev); [reflexivity..|].
  exact Hev.
Defined.

(** ** Opening a stored task *)

Lemma find_first {A} (key : A → string) (xs : list A) (id : string) :
  id ∈ List.map key xs →
  ∃ before s after,
    xs = before ++ s :: after
    ∧ (id ∉ List.map key before)
    ∧ key s = id
    ∧ Js.find (λ v, String.eqb (key v) id) xs = Some s.
Proof.
  induction xs as [|x xs IH]; simpl; [by intros ?%elem_of_nil|].
  intros Hin. destruct (String.eqb_spec (key x) id) as [Heq|Hne].
  - exists [], x, xs. split_and!; [done|apply not_elem_of_nil|done..].
  - apply elem_of_cons in Hin as [?|Hin]; [congruence|].
    destruct (IH Hin) as (before & s & after & -> & Hnot & Hkey & Hfind).
    exists (x :: before), s, after. split_and!; [done| |done..].
    simpl. apply not_elem_of_cons. split; [congruence|done].
Qed.

Lemma find_none {A} (key : A → string) (xs : list A) (id : string) :
  id ∉ List.map key xs → Js.find (λ v, String.eqb (key v) id) xs = None.
Proof.
  intros Hnot. destruct (Js.find _ xs) as [s|] eqn:Hf; [|done].
  destruct Hnot. apply find_is_Some. by rewrite Hf.
Qed.

(** X9: with a non-empty id prop the setup code loads the first stored task
    that carries the id; when no stored task carries it, the form starts
    from the fresh default record, as it does without an id prop. *)
Theorem setup_lookup
    (ext : Form.Externals) (props : Form.Props) (store : Store.t) (id : string) :
  Form.props_id props = Some id →
  Js.truthy id = true →
  (id ∈ List.map ScheduledTask.id (Store.scheduledtasks store) →
   ∃ before s after,
     Store.scheduledtasks store = before ++ s :: after
     ∧ (id ∉ List.map ScheduledTask.id before)
     ∧ ScheduledTask.id s = id
     ∧ Form.task (Form.setup ext props store) = s)
  ∧ (id ∉ List.map ScheduledTask.id (Store.scheduledtasks store) →
     Form.task (Form.setup ext props store) = Form.initial_task ext).
Proof.
  intros Hid Htruthy. unfold Form.setup. rewrite Hid, Htruthy.
  unfold Store.getScheduledTaskById. split.
  - intros Hin.
    destruct (find_first ScheduledTask.id _ id Hin)
      as (before & s & after & Hsplit & Hnot & Hkey & Hfind).
    exists before, s, after. simpl. by rewrite Hfind.
  - intros Hnot. simpl. by rewrite (find_none ScheduledTask.id _ id Hnot).
Qed.

Lemma setup_lookup_witness :
  Form.task (Form.setup Sample.accepting (Sample.with_id "t9") Sample.store)
  = Form.initial_task Sample.accepting.
Proof.
  destruct (setup_lookup Sample.accepting (Sample.with_id "t9") Sample.store "t9"
              eq_refl eq_refl) as [_ Hmiss].
  apply Hmiss. simpl. apply not_elem_of_nil.
Defined.

(** X10: opening a stored task and saving it untouched writes it back as it
    was.  If the task found for the id prop has only existing ids in the
    list of its type, and validation and the store call succeed, then
    [handleSubmit] on the freshly set-up form calls
    [editScheduledTask(props.id, task)] with exactly the stored record,
    whose own id is the id prop, and then [handleCancel]. *)
Theorem open_and_save_unchanged
    (ext : Form.Externals) (props : Form.Props) (store : Store.t)
    (id : string) (s : ScheduledTask.t) :
  Form.props_id props = Some id →
  Js.truthy id = true →
  Store.getScheduledTaskById store id = Some s →
  Reference.selected_references_exist store s →
  Form.ValidateCron ext (ScheduledTask.cron s) = Js.Resolved tt →
  Form.editScheduledTask ext id s = Js.Resolved tt →
  Form.new_events (Form.handleSubmit ext props store) (Form.setup ext props store)
  = Form.CallValidateCron (ScheduledTask.cron s)
    :: Form.CallEditScheduledTask id s
    :: Form.CallHandleCancel
    :: Reference.after_cancel ext
  ∧ ScheduledTask.id s = id.
Proof.
  intros Hid Htruthy Hfound Hexist Hv Hsave.
  assert (Form.task (Form.setup ext props store) = s) as Htask.
  { unfold Form.setup. by rewrite Hid, Htruthy, Hfound. }
  split.
  - rewrite handleSubmit_events, Htask, Hv.
    rewrite (filter_references_unchanged store s Hexist).
    unfold Reference.store_call, Reference.store_outcome.
    by rewrite Hid, Htruthy, Hsave.
  - apply find_some in Hfound as [_ Heq]. by apply String.eqb_eq in Heq.
Qed.

Lemma open_and_save_unchanged_witness :
  Form.new_events (Form.handleSubmit Sample.accepting (Sample.with_id "t1") Fixture.store)
    (Form.setup Sample.accepting (Sample.with_id "t1") Fixture.store)
  = [Form.CallValidateCron "0 0 3 * * *";
     Form.CallEditScheduledTask "t1" Fixture.stored_task;
     Form.CallHandleCancel].
Proof.
  assert (Reference.selected_references_exist Fixture.store Fixture.stored_task) as Hexist.
  { simpl. apply Forall_cons. split; [|constructor].
    unfold Reference.existing_subscription. simpl. apply list_elem_of_here. }
  destruct (open_and_save_unchanged Sample.accepting (Sample.with_id "t1") Fixture.store
              "t1" Fixture.stored_task eq_refl eq_refl eq_refl Hexist eq_refl eq_refl)
    as [Hev _].
  exact Hev.
Defined.

(** ** What the user can reach *)

Section Reachable.

Variable store : Store.t.

Implicit Types (t : ScheduledTask.t) (l : list string) (id x : string).

Lemma handleUse_elem l id x : x ∈ Form.handleUse l id → x ∈ l ∨ x = id.
Proof.
  destruct (handleUse_cases l id) as [[_ ->]|(l1 & l2 & -> & _ & ->)].
  - rewrite elem_of_app, list_elem_of_singleton. tauto.
  - rewrite !elem_of_app, elem_of_cons. tauto.
Qed.

Lemma handleUse_Forall (P : string → Prop) l id :
  Forall P l → P id → Forall P (Form.handleUse l id).
Proof.
  rewrite !Forall_forall. intros Hall Hid x [Hx| ->]%handleUse_elem; auto.
Qed.

(** The keys of the cards are the ids of the collection of the section. *)
Lemma card_keys t :
  List.map Template.key (Template.cards store t)
  = match Template.visible_section (ScheduledTask.type t) with
    | Template.SubscriptionsSection => List.map Store.sub_id (Store.subscribes store)
    | Template.RulesetsSection => List.map Store.rs_id (Store.rulesets store)
    | Template.UpdatePluginsSection | Template.RunPluginsSection =>
        List.map Store.pl_id (Store.plugins store)
    | Template.ScriptSection => []
    end.
Proof.
  unfold Template.cards.
  destruct (Template.visible_section (ScheduledTask.type t)); simpl;
    rewrite ?List.map_map; done.
Qed.

Lemma click_card_tidy k t :
  Template.tidy store t → Template.tidy store (Template.click_card store k t).
Proof.
  intros Htidy. unfold Template.click_card.
  destruct (Template.includes _ k) eqn:Hinc; [|done].
  apply includes_true in Hinc. rewrite card_keys in Hinc.
  destruct Htidy as ((E1 & E2 & E3) & N1 & N2 & N3).
  destruct t as [i n ty subs rules plugs sc cr no di la]. simpl in *.
  destruct ty; simpl in *; [done|..];
    (split; [split_and!|split_and!]); simpl; try done;
    try (by apply handleUse_NoDup_preserved);
    by apply handleUse_Forall.
Qed.

Lemma act_tidy a t : Template.tidy store t → Template.tidy store (Template.act store a t).
Proof.
  intros Htidy. destruct a as [v|v|v|v|v|k]; simpl.
  - by destruct t.
  - by destruct t.
  - by destruct t.
  - by destruct t.
  - by destruct (Template.visible_section _).
  - by apply click_card_tidy.
Qed.

Lemma act_all_tidy actions : ∀ t,
  Template.tidy store t → Template.tidy store (Template.act_all store actions t).
Proof.
  induction actions as [|a actions IH]; intros t Htidy; [done|].
  simpl. apply IH. by apply act_tidy.
Qed.

Lemma tidy_selected t :
  Template.tidy store t → Reference.selected_references_exist store t.
Proof.
  intros ((E1 & E2 & E3) & _). unfold Reference.selected_references_exist.
  by destruct (ScheduledTask.type t).
Qed.

End Reachable.

(** X11: whatever the user types, picks and clicks in a form opened on a
    new task, the three id lists of the task stay free of duplicates and
    hold ids of existing entries only (cards exist for entries of the store
    only); the filter of [handleSubmit] therefore changes nothing, and the
    record handed to the store is the record the form shows. *)
Theorem new_task_stays_tidy
    (ext : Form.Externals) (store : Store.t) (actions : list Template.action) :
  Template.tidy store (Template.act_all store actions (Form.initial_task ext))
  ∧ Form.filter_references store
      (Template.act_all store actions (Form.initial_task ext))
    = Template.act_all store actions (Form.initial_task ext).
Proof.
  assert (Template.tidy store (Template.act_all store actions (Form.initial_task ext)))
    as Htidy.
  { apply act_all_tidy. split; [split_and!; constructor|split_and!; constructor]. }
  split; [done|]. by apply filter_references_unchanged, tidy_selected.
Qed.

(** The same holds for a form opened on a stored task whose lists are free
    of duplicates and hold existing ids only. *)
Lemma tidy_task_stays_tidy
    (store : Store.t) (actions : list Template.action) (t : ScheduledTask.t) :
  Template.tidy store t →
  Template.tidy store (Template.act_all store actions t)
  ∧ Form.filter_references store (Template.act_all store actions t)
    = Template.act_all store actions t.
Proof.
  intros Htidy. pose proof (act_all_tidy store actions t Htidy) as Hafter.
  split; [done|]. by apply filter_references_unchanged, tidy_selected.
Qed.

Lemma tidy_task_stays_tidy_witness :
  Form.filter_references Fixture.store
    (Template.act_all Fixture.store
       [Template.ClickCard "s1"; Template.PickType UpdatePlugin; Template.ClickCard "p1"]
       Fixture.stored_task)
  = Template.act_all Fixture.store
      [Template.ClickCard "s1"; Template.PickType UpdatePlugin; Template.ClickCard "p1"]
      Fixture.stored_task.
Proof.
  destruct (tidy_task_stays_tidy Fixture.store
              [Template.ClickCard "s1"; Template.PickType UpdatePlugin;
               Template.ClickCard "p1"] Fixture.stored_task) as [_ Hsame].
  - split; [split_and!|split_and!]; simpl;
      repeat first [apply Forall_cons; split | apply Forall_nil
                   | apply NoDup_cons; split | apply NoDup_nil
                   | apply not_elem_of_nil
                   | (unfold Reference.existing_subscription; simpl;
                      apply list_elem_of_here) ]; done.
  - exact Hsame.
Defined.

(** * Further properties of the code editor wrapper *)

Section EditorFlows.

Import CodeViewer.

Local Open Scope nat_scope.

Variables (ext : Externals) (props : Props).

Implicit Types (st : state) (view : EditorView) (v : view_ref).

(** The state after an accepted change in the watched view and the firing
    of the [onChange] timer. *)
Lemma editor_change_then_timer st v tr view view' :
  watched_view st = Some v →
  get_view st v = Some view →
  transact ext tr view = Js.Resolved view' →
  docChanged tr = true →
  editor_change ext v tr st
  = set_pending (Some (doc view')) (put_view (emit (Dispatch v tr) st) v view')
  ∧ timer_fires ext (editor_change ext v tr st)
    = emit (EmitChange (doc view'))
        (set_model (doc view')
           (set_pending None (put_view (emit (Dispatch v tr) st) v view'))).
Proof.
  intros Hv Hview Htr Hch.
  assert (editor_change ext v tr st
          = set_pending (Some (doc view')) (put_view (emit (Dispatch v tr) st) v view'))
    as Hrun.
  { unfold editor_change, dispatch, updateListener, onChange.
    by rewrite Hview, Htr, Hch. }
  split; [done|]. rewrite Hrun.
  set (st0 := put_view (emit (Dispatch v tr) st) v view').
  assert (get_view st0 v = Some view') as Hget.
  { apply (get_put_view _ _ view). by rewrite get_view_emit. }
  assert (watched_view st0 = Some v) as Hv0.
  { unfold st0. by rewrite (watched_view_put _ _ view), watched_view_emit
      by (by rewrite get_view_emit). }
  unfold timer_fires. simpl.
  set (st2 := emit (EmitChange (doc view')) (set_model (doc view') (set_pending None _))).
  assert (watch_model ext (doc view') st2 = st2) as Hquiet.
  { apply (watch_model_same ext _ st2 v view'); [| |done].
    - unfold st2. rewrite watched_view_emit, watched_view_set_model,
        watched_view_set_pending, watched_view_set_pending. exact Hv0.
    - unfold st2. rewrite get_view_emit, get_view_set_model, !get_view_set_pending.
      exact Hget. }
  destruct (negb _); [rewrite Hquiet|]; reflexivity.
Qed.

Lemma formatDoc_as_change st v view r :
  get_view st v = Some view →
  formatWithCursor ext (doc view) (format_options props (range_from (ranges0 view)))
  = Js.Resolved r →
  formatted r ≠ doc view →
  (0 ≤ formatted_cursorOffset r
     ≤ Z.of_nat (String.length (normalise (formatted r))))%Z →
  formatDoc ext props v st = editor_change ext v (format_transaction (doc view) r) st.
Proof.
  intros Hview Hok Hne Hin. unfold formatDoc, formatDoc_during. rewrite Hview.
  rewrite (formatDoc_resume_differs ext props st v _ _ r view Hok Hne Hview).
  unfold editor_change, dispatch, updateListener, onChange.
  rewrite Hview, (transact_format_inside ext view r Hin).
  by rewrite (docChanged_format (doc view) r Hne).
Qed.

Lemma get_view_put_other st v v' view :
  v ≠ v' → get_view (put_view st v view) v' = get_view st v'.
Proof.
  intros Hne. destruct v, v'; try done; simpl; by destruct (mergeView st).
Qed.

End EditorFlows.

(** X12: formatting a formatted document does nothing.  When [formatDoc]
    has replaced the document and Prettier, given the document it produced,
    returns that text again, a second [formatDoc] dispatches nothing and
    leaves the component as the first one left it. *)
Theorem formatDoc_twice
    (ext : CodeViewer.Externals) (props : CodeViewer.Props) (v : CodeViewer.view_ref)
    (st : CodeViewer.state) (view : CodeViewer.EditorView) (r r' : CodeViewer.Formatted) :
  CodeViewer.get_view st v = Some view →
  CodeViewer.formatWithCursor ext (CodeViewer.doc view)
    (CodeViewer.format_options props (CodeViewer.range_from (CodeViewer.ranges0 view)))
  = Js.Resolved r →
  CodeViewer.formatted r ≠ CodeViewer.doc view →
  (0 ≤ CodeViewer.formatted_cursorOffset r
     ≤ Z.of_nat (String.length (CodeViewer.normalise (CodeViewer.formatted r)))) →
  CodeViewer.formatWithCursor ext (CodeViewer.normalise (CodeViewer.formatted r))
    (CodeViewer.format_options props (Z.to_nat (CodeViewer.formatted_cursorOffset r)))
  = Js.Resolved r' →
  CodeViewer.formatted r' = CodeViewer.normalise (CodeViewer.formatted r) →
  CodeViewer.formatDoc ext props v (CodeViewer.formatDoc ext props v st)
  = CodeViewer.formatDoc ext props v st.
Proof.
  intros Hview Hok Hne Hin Hok' Hstable.
  destruct (formatDoc_replaced ext props st v view r Hview Hok Hne Hin) as [Hget _].
  apply (formatDoc_same ext props _ v _ r' Hget).
  - simpl. unfold CodeViewer.range_from. simpl. by rewrite Nat.min_id.
  - done.
Qed.

Lemma formatDoc_twice_witness :
  CodeViewer.formatDoc Sample.prettier Sample.yaml_props CodeViewer.TheEditor
    (CodeViewer.formatDoc Sample.prettier Sample.yaml_props CodeViewer.TheEditor
       (Sample.editor_on "a:   1" "a:   1"))
  = CodeViewer.formatDoc Sample.prettier Sample.yaml_props CodeViewer.TheEditor
      (Sample.editor_on "a:   1" "a:   1").
Proof.
  apply (formatDoc_twice Sample.prettier Sample.yaml_props CodeViewer.TheEditor
           (Sample.editor_on "a:   1" "a:   1") (Sample.view_of "a:   1")
           {| CodeViewer.formatted := "a: 1"; CodeViewer.formatted_cursorOffset := 2 |}
           {| CodeViewer.formatted := "a: 1"; CodeViewer.formatted_cursorOffset := 0 |});
    [reflexivity|reflexivity|discriminate|simpl; lia|reflexivity|reflexivity].
Defined.

(** X13: a formatting reaches the model.  After [formatDoc] has replaced
    the document of the watched view and the [onChange] timer has fired,
    the model holds the formatted text as the document holds it (line
    breaks normalised), ['change'] has been emitted once with it, nothing
    is waiting, and the only dispatch is the one of [formatDoc]: the
    watcher does not send the text back. *)
Theorem formatDoc_reaches_model
    (ext : CodeViewer.Externals) (props : CodeViewer.Props) (v : CodeViewer.view_ref)
    (st : CodeViewer.state) (view : CodeViewer.EditorView) (r : CodeViewer.Formatted) :
  CodeViewer.watched_view st = Some v →
  CodeViewer.get_view st v = Some view →
  CodeViewer.formatWithCursor ext (CodeViewer.doc view)
    (CodeViewer.format_options props (CodeViewer.range_from (CodeViewer.ranges0 view)))
  = Js.Resolved r →
  CodeViewer.formatted r ≠ CodeViewer.doc view →
  (0 ≤ CodeViewer.formatted_cursorOffset r
     ≤ Z.of_nat (String.length (CodeViewer.normalise (CodeViewer.formatted r)))) →
  CodeViewer.model (CodeViewer.timer_fires ext (CodeViewer.formatDoc ext props v st))
  = CodeViewer.normalise (CodeViewer.formatted r)
  ∧ CodeViewer.pending (CodeViewer.timer_fires ext (CodeViewer.formatDoc ext props v st))
    = None
  ∧ CodeViewer.log (CodeViewer.timer_fires ext (CodeViewer.formatDoc ext props v st))
    = CodeViewer.log st
      ++ [CodeViewer.Dispatch v (CodeViewer.format_transaction (CodeViewer.doc view) r);
          CodeViewer.EmitChange (CodeViewer.normalise (CodeViewer.formatted r))].
Proof.
  intros Hv Hview Hok Hne Hin.
  rewrite (formatDoc_as_change ext props st v view r Hview Hok Hne Hin).
  destruct (editor_change_then_timer ext st v _ view _ Hv Hview
              (transact_format_inside ext view r Hin)
              (docChanged_all _ _ _ Hne)) as [_ ->].
  simpl. rewrite log_put_view. simpl. by rewrite <- app_assoc.
Qed.

Lemma formatDoc_reaches_model_witness :
  CodeViewer.model
    (CodeViewer.timer_fires Sample.prettier
       (CodeViewer.formatDoc Sample.prettier Sample.yaml_props CodeViewer.TheEditor
          (Sample.editor_on "a:   1" "a:   1")))
  = "a: 1"%string.
Proof.
  destruct (formatDoc_reaches_model Sample.prettier Sample.yaml_props CodeViewer.TheEditor
              (Sample.editor_on "a:   1" "a:   1") (Sample.view_of "a:   1")
              {| CodeViewer.formatted := "a: 1"; CodeViewer.formatted_cursorOffset := 2 |})
    as (Hmodel & _); [reflexivity|reflexivity|reflexivity|discriminate|simpl; lia|].
  exact Hmodel.
Defined.

(** X14: changes made in the watched view while the [onChange] timer is
    running are handed to the model together.  After two accepted changes
    and one firing of the timer, the model holds the text of the second
    change, ['change'] has been emitted once, with that text, and no call
    is waiting. *)
Theorem onChange_coalesces
    (ext : CodeViewer.Externals) (v : CodeViewer.view_ref) (st : CodeViewer.state)
    (tr1 tr2 : CodeViewer.TransactionSpec) (view view1 view2 : CodeViewer.EditorView) :
  CodeViewer.watched_view st = Some v →
  CodeViewer.get_view st v = Some view →
  CodeViewer.transact ext tr1 view = Js.Resolved view1 →
  CodeViewer.docChanged tr1 = true →
  CodeViewer.transact ext tr2 view1 = Js.Resolved view2 →
  CodeViewer.docChanged tr2 = true →
  CodeViewer.model
    (CodeViewer.timer_fires ext
       (CodeViewer.editor_change ext v tr2 (CodeViewer.editor_change ext v tr1 st)))
  = CodeViewer.doc view2
  ∧ CodeViewer.pending
      (CodeViewer.timer_fires ext
         (CodeViewer.editor_change ext v tr2 (CodeViewer.editor_change ext v tr1 st)))
    = None
  ∧ CodeViewer.log
      (CodeViewer.timer_fires ext
         (CodeViewer.editor_change ext v tr2 (CodeViewer.editor_change ext v tr1 st)))
    = CodeViewer.log st
      ++ [CodeViewer.Dispatch v tr1; CodeViewer.Dispatch v tr2;
          CodeViewer.EmitChange (CodeViewer.doc view2)].
Proof.
  intros Hv Hview Htr1 Hch1 Htr2 Hch2.
  destruct (editor_change_then_timer ext st v tr1 view view1 Hv Hview Htr1 Hch1)
    as [Hrun1 _].
  set (st1 := CodeViewer.editor_change ext v tr1 st) in *.
  assert (CodeViewer.get_view st1 v = Some view1) as Hview1.
  { rewrite Hrun1, get_view_set_pending.
    apply (get_put_view _ _ view). by rewrite get_view_emit. }
  assert (CodeViewer.watched_view st1 = Some v) as Hv1.
  { rewrite Hrun1, watched_view_set_pending, (watched_view_put _ _ view),
      watched_view_emit by (by rewrite get_view_emit). done. }
  destruct (editor_change_then_timer ext st1 v tr2 view1 view2 Hv1 Hview1 Htr2 Hch2)
    as [_ ->].
  simpl. rewrite log_put_view. simpl. rewrite Hrun1. simpl. rewrite log_put_view. simpl.
  by rewrite <- !app_assoc.
Qed.

(** X15: the model watcher writes to the watched view only.  It never
    assigns the model, never emits ['change'] or shows a message, and the
    other views (side [a] of a diff in particular) are as before. *)
Theorem watch_model_frame
    (ext : CodeViewer.Externals) (content : string) (st : CodeViewer.state) :
  CodeViewer.model (CodeViewer.watch_model ext content st) = CodeViewer.model st
  ∧ (∀ v, CodeViewer.watched_view st ≠ Some v →
       CodeViewer.get_view (CodeViewer.watch_model ext content st) v
       = CodeViewer.get_view st v)
  ∧ List.filter (λ e, negb (CodeViewer.is_dispatch e))
      (CodeViewer.log (CodeViewer.watch_model ext content st))
    = List.filter (λ e, negb (CodeViewer.is_dispatch e)) (CodeViewer.log st).
Proof.
  destruct (CodeViewer.watched_view st) as [w|] eqn:Hw.
  - destruct (watched_view_get st w Hw) as [view Hview].
    destruct (decide (content = CodeViewer.doc view)) as [Heq|Hne].
    + by rewrite (watch_model_same ext content st w view Hw Hview Heq).
    + assert (CodeViewer.watch_model ext content st
              = CodeViewer.editor_change ext w (CodeViewer.model_transaction view content)
                  st) as ->.
      { unfold CodeViewer.watch_model, CodeViewer.editor_change. rewrite Hw, Hview.
        by rewrite (proj2 (eqb_false_iff _ _) Hne). }
      destruct (editor_change_then_timer ext st w _ view _ Hw Hview
                  (transact_model ext view content)
                  (docChanged_all _ _ None Hne)) as [-> _].
      simpl. rewrite model_put_view, log_put_view. simpl. split; [done|]. split.
      * intros v Hv. rewrite get_view_set_pending, get_view_put_other by congruence.
        apply get_view_emit.
      * rewrite List.filter_app. simpl. apply app_nil_r.
  - by rewrite (watch_model_none ext content st Hw).
Qed.

Lemma watch_model_frame_witness :
  CodeViewer.get_view
    (CodeViewer.watch_model Sample.prettier "b: 2" (Sample.editor_on "b: 2" "a: 1"))
    CodeViewer.MergeA
  = None.
Proof.
  destruct (watch_model_frame Sample.prettier "b: 2" (Sample.editor_on "b: 2" "a: 1"))
    as (_ & Hother & _).
  rewrite (Hother CodeViewer.MergeA); [reflexivity|discriminate].
Defined.

Lemma onChange_coalesces_witness :
  CodeViewer.model
    (CodeViewer.timer_fires Sample.prettier
       (CodeViewer.editor_change Sample.prettier CodeViewer.TheEditor
          {| CodeViewer.changes :=
               Some {| CodeViewer.from := 0; CodeViewer.to := 1; CodeViewer.insert := "y" |};
             CodeViewer.selection := None |}
          (CodeViewer.editor_change Sample.prettier CodeViewer.TheEditor
             {| CodeViewer.changes :=
                  Some {| CodeViewer.from := 0; CodeViewer.to := 0;
                          CodeViewer.insert := "x" |};
                CodeViewer.selection := None |}
             (Sample.editor_on "a: 1" "a: 1"))))
  = "ya: 1"%string.
Proof.
  destruct (onChange_coalesces Sample.prettier CodeViewer.TheEditor
              (Sample.editor_on "a: 1" "a: 1")
              {| CodeViewer.changes :=
                   Some {| CodeViewer.from := 0; CodeViewer.to := 0;
                           CodeViewer.insert := "x" |};
                 CodeViewer.selection := None |}
              {| CodeViewer.changes :=
                   Some {| CodeViewer.from := 0; CodeViewer.to := 1;
                           CodeViewer.insert := "y" |};
                 CodeViewer.selection := None |}
              (Sample.view_of "a: 1") (Sample.view_of "xa: 1") (Sample.view_of "ya: 1"))
    as (Hmodel & _); [reflexivity..|].
  exact Hmodel.
Defined.

(** ** Mounting and the theme *)

Section Mounting.

Import CodeViewer.

Variables (ext : Externals) (props : Props).

Implicit Types (c : CodeViewer.state) (st : Lifecycle.state) (v : view_ref).

Lemma get_view_shape c c' v :
  Lifecycle.shape c' = Lifecycle.shape c →
  (is_Some (get_view c' v) ↔ is_Some (get_view c v)).
Proof.
  unfold Lifecycle.shape. intros Hs.
  destruct v; simpl;
    destruct (editorView c), (editorView c'), (mergeView c), (mergeView c');
    simpl in *; try discriminate; split; intros [? ?]; eauto; discriminate.
Qed.

Lemma shape_put_view c v view view' :
  get_view c v = Some view → Lifecycle.shape (put_view c v view') = Lifecycle.shape c.
Proof.
  unfold Lifecycle.shape. destruct v; simpl.
  - by intros ->.
  - by destruct (mergeView c).
  - by destruct (mergeView c).
Qed.

Lemma shape_dispatch c c' v tr :
  dispatch ext v tr c = Js.Resolved c' → Lifecycle.shape c' = Lifecycle.shape c.
Proof.
  unfold dispatch, updateListener, onChange.
  destruct (get_view c v) as [view|] eqn:Hview; [|done].
  destruct (transact ext tr view) as [view'|]; [|done].
  intros [= <-].
  assert (Lifecycle.shape (put_view (emit (Dispatch v tr) c) v view') = Lifecycle.shape c)
    as Hs by (by rewrite (shape_put_view _ v view) by (by rewrite get_view_emit)).
  by destruct (docChanged tr).
Qed.

Lemma shape_editor_change c v tr :
  Lifecycle.shape (editor_change ext v tr c) = Lifecycle.shape c.
Proof.
  unfold editor_change. destruct (dispatch ext v tr c) eqn:Hd; [|done].
  by apply shape_dispatch in Hd.
Qed.

Lemma shape_watch_model c content :
  Lifecycle.shape (watch_model ext content c) = Lifecycle.shape c.
Proof.
  unfold watch_model. destruct (watched_view c) as [v|]; [|done].
  destruct (get_view c v) as [view|]; [|done].
  destruct (negb _); [|done].
  destruct (dispatch ext v _ c) eqn:Hd; [|done]. by apply shape_dispatch in Hd.
Qed.

Lemma shape_assign_model c content :
  Lifecycle.shape (assign_model ext content c) = Lifecycle.shape c.
Proof.
  unfold assign_model. destruct (String.eqb _ _); [done|].
  by rewrite shape_watch_model.
Qed.

Lemma shape_timer_fires c : Lifecycle.shape (timer_fires ext c) = Lifecycle.shape c.
Proof.
  unfold timer_fires. destruct (pending c) as [content|]; [|done].
  destruct (negb _); [|done]. by rewrite shape_watch_model.
Qed.

Lemma shape_formatDoc c v : Lifecycle.shape (formatDoc ext props v c) = Lifecycle.shape c.
Proof.
  unfold formatDoc, formatDoc_during, formatDoc_resume.
  destruct (get_view c v) as [view|]; [|done].
  destruct (formatWithCursor ext _ _) as [r|e]; [|done].
  destruct (negb _); [|done].
  destruct (dispatch ext v _ c) eqn:Hd; [|done]. by apply shape_dispatch in Hd.
Qed.

(** A dispatch of the theme transaction is accepted by every existing view
    and changes only the log. *)
Lemma dispatch_theme c v view :
  get_view c v = Some view →
  ∃ c', dispatch ext v Lifecycle.theme_transaction c = Js.Resolved c'
        ∧ model c' = model c
        ∧ pending c' = pending c
        ∧ log c' = log c ++ [Dispatch v Lifecycle.theme_transaction]
        ∧ (∀ v', get_view c' v' = get_view c v')
        ∧ editorView c' = editorView c
        ∧ (mergeView c = None ↔ mergeView c' = None).
Proof.
  intros Hview. unfold dispatch, transact, updateListener. rewrite Hview. simpl.
  eexists. split; [reflexivity|].
  assert ({| doc := doc view; ranges0 := ranges0 view; ranges_rest := ranges_rest view |}
          = view) as -> by (by destruct view).
  rewrite model_put_view, log_put_view. simpl. split_and!; try done.
  - by destruct v.
  - intros v'. assert (v = v' ∨ v ≠ v') as [<-|Hne]
      by (destruct v, v'; (by left) || (by right)).
    + rewrite (get_put_view _ _ view) by (by rewrite get_view_emit). done.
    + rewrite get_view_put_other by done. by rewrite get_view_emit.
  - destruct v; simpl in *; [congruence|done|done].
  - destruct v; simpl in *; [done| |]; destruct (mergeView c); simpl; split; done.
Qed.

Lemma theme_flags_app (xs ys : list Lifecycle.extension) :
  Lifecycle.theme_flags (xs ++ ys) = Lifecycle.theme_flags xs ++ Lifecycle.theme_flags ys.
Proof.
  induction xs as [|[] xs IH]; simpl; by rewrite ?IH.
Qed.

Lemma theme_flags_extensions dark (b : bool) :
  Lifecycle.theme_flags (Lifecycle.extensions props dark ++ [Lifecycle.Editable b])
  = [dark].
Proof. unfold Lifecycle.extensions. by destruct (lang props). Qed.

Lemma theme_flags_reconfigure dark (exts : list Lifecycle.extension) :
  Lifecycle.theme_flags (Lifecycle.reconfigure dark exts)
  = List.map (λ _, dark) (Lifecycle.theme_flags exts).
Proof.
  induction exts as [|[] exts IH]; simpl; by rewrite ?IH.
Qed.

(** Reconfiguring an existing view: its extensions change, nothing else
    but the log does. *)
Lemma reconfigure_view_ok st dark v view :
  get_view (Lifecycle.component st) v = Some view →
  ∃ st', Lifecycle.reconfigure_view ext dark v st = Js.Resolved st'
         ∧ model (Lifecycle.component st') = model (Lifecycle.component st)
         ∧ pending (Lifecycle.component st') = pending (Lifecycle.component st)
         ∧ (∀ v', get_view (Lifecycle.component st') v'
                  = get_view (Lifecycle.component st) v')
         ∧ editorView (Lifecycle.component st') = editorView (Lifecycle.component st)
         ∧ (mergeView (Lifecycle.component st) = None
            ↔ mergeView (Lifecycle.component st') = None)
         ∧ Lifecycle.themeMode_dark st' = Lifecycle.themeMode_dark st
         ∧ Lifecycle.config st' v
           = option_map (Lifecycle.reconfigure dark) (Lifecycle.config st v)
         ∧ (∀ v', v' ≠ v → Lifecycle.config st' v' = Lifecycle.config st v')
         ∧ log (Lifecycle.component st')
           = log (Lifecycle.component st) ++ [Dispatch v Lifecycle.theme_transaction].
Proof.
  intros Hview.
  destruct (dispatch_theme (Lifecycle.component st) v view Hview)
    as (c' & Hd & Hm & Hp & Hl & Hviews & He & Hmv).
  unfold Lifecycle.reconfigure_view. rewrite Hd.
  eexists. split; [reflexivity|].
  destruct v; simpl; split_and!; try done; by intros [].
Qed.

(** The theme watcher on a mounted component. *)
Lemma watch_theme_mounted st dark :
  Lifecycle.shape (Lifecycle.component st) ≠ (false, false) →
  ∃ st', Lifecycle.watch_theme ext dark st = Js.Resolved st'
         ∧ model (Lifecycle.component st') = model (Lifecycle.component st)
         ∧ pending (Lifecycle.component st') = pending (Lifecycle.component st)
         ∧ (∀ v, get_view (Lifecycle.component st') v
                 = get_view (Lifecycle.component st) v)
         ∧ editorView (Lifecycle.component st') = editorView (Lifecycle.component st)
         ∧ (mergeView (Lifecycle.component st) = None
            ↔ mergeView (Lifecycle.component st') = None)
         ∧ Lifecycle.themeMode_dark st' = Lifecycle.themeMode_dark st
         ∧ (∀ v, Lifecycle.config st' v
                 = if editorView (Lifecycle.component st) is Some _ then
                     match v with
                     | TheEditor =>
                         option_map (Lifecycle.reconfigure dark) (Lifecycle.config st v)
                     | _ => Lifecycle.config st v
                     end
                   else
                     match v with
                     | TheEditor => Lifecycle.config st v
                     | _ => option_map (Lifecycle.reconfigure dark) (Lifecycle.config st v)
                     end).
Proof.
  intros Hshape. unfold Lifecycle.watch_theme.
  destruct (editorView (Lifecycle.component st)) as [e|] eqn:He.
  - destruct (reconfigure_view_ok st dark TheEditor e He)
      as (st' & -> & Hm & Hp & Hv & He' & Hmv & Hd & Hc & Hother & _).
    exists st'. split_and!; try done; [congruence|].
    intros v. destruct v; [done|by apply Hother..].
  - destruct (mergeView (Lifecycle.component st)) as [m|] eqn:Hmerge.
    + assert (get_view (Lifecycle.component st) MergeA = Some (a m)) as Ha
        by (simpl; by rewrite Hmerge).
      destruct (reconfigure_view_ok st dark MergeA _ Ha)
        as (st1 & -> & Hm1 & Hp1 & Hv1 & He1 & Hmv1 & Hd1 & Hc1 & Hother1 & _).
      assert (get_view (Lifecycle.component st1) MergeB = Some (b m)) as Hb
        by (rewrite Hv1; simpl; by rewrite Hmerge).
      destruct (reconfigure_view_ok st1 dark MergeB _ Hb)
        as (st2 & -> & Hm2 & Hp2 & Hv2 & He2 & Hmv2 & Hd2 & Hc2 & Hother2 & _).
      exists st2. split_and!; try congruence.
      * rewrite <- Hmerge.
        split; intros Hnone; [apply Hmv2, Hmv1, Hnone|apply Hmv1, Hmv2, Hnone].
      * intros v. destruct v.
        -- rewrite Hother2, Hother1 by done. done.
        -- rewrite Hother2 by done. done.
        -- rewrite Hc2, Hother1 by done. done.
    + destruct Hshape. unfold Lifecycle.shape. by rewrite He, Hmerge.
Qed.

Lemma watch_theme_unmounted st dark :
  Lifecycle.shape (Lifecycle.component st) = (false, false) →
  Lifecycle.watch_theme ext dark st
  = Js.Rejected (Js.VError "Cannot read properties of undefined").
Proof.
  unfold Lifecycle.shape, Lifecycle.watch_theme.
  destruct (editorView (Lifecycle.component st)); [done|].
  by destruct (mergeView (Lifecycle.component st)).
Qed.

Lemma shape_cases c :
  Lifecycle.shape c = (false, false) ∨ Lifecycle.shape c ≠ (false, false).
Proof.
  unfold Lifecycle.shape. destruct (editorView c), (mergeView c); (by left) || (by right).
Qed.

(** A change of the application theme, in full. *)
Lemma themeMode_changes_spec st dark :
  model (Lifecycle.component (Lifecycle.themeMode_changes ext dark st))
  = model (Lifecycle.component st)
  ∧ pending (Lifecycle.component (Lifecycle.themeMode_changes ext dark st))
    = pending (Lifecycle.component st)
  ∧ (∀ v, get_view (Lifecycle.component (Lifecycle.themeMode_changes ext dark st)) v
          = get_view (Lifecycle.component st) v)
  ∧ editorView (Lifecycle.component (Lifecycle.themeMode_changes ext dark st))
    = editorView (Lifecycle.component st)
  ∧ (mergeView (Lifecycle.component st) = None
     ↔ mergeView (Lifecycle.component (Lifecycle.themeMode_changes ext dark st)) = None)
  ∧ Lifecycle.themeMode_dark (Lifecycle.themeMode_changes ext dark st) = dark
  ∧ (∀ v, Lifecycle.config (Lifecycle.themeMode_changes ext dark st) v
          = Lifecycle.config st v
          ∨ (Lifecycle.config (Lifecycle.themeMode_changes ext dark st) v
             = option_map (Lifecycle.reconfigure dark) (Lifecycle.config st v)
             ∧ (v = TheEditor ∨ editorView (Lifecycle.component st) = None))).
Proof.
  unfold Lifecycle.themeMode_changes.
  destruct (Bool.eqb dark (Lifecycle.themeMode_dark st)) eqn:Heq.
  - apply Bool.eqb_prop in Heq. split_and!; try done. intros v. by left.
  - set (st1 := {| Lifecycle.component := Lifecycle.component st;
                   Lifecycle.themeMode_dark := dark;
                   Lifecycle.config_editor := Lifecycle.config_editor st;
                   Lifecycle.config_a := Lifecycle.config_a st;
                   Lifecycle.config_b := Lifecycle.config_b st |}).
    destruct (shape_cases (Lifecycle.component st1)) as [Hnone|Hsome].
    + rewrite (watch_theme_unmounted st1 dark Hnone). simpl.
      split_and!; try done. intros v. left. by destruct v.
    + destruct (watch_theme_mounted st1 dark Hsome)
        as (st' & -> & Hm & Hp & Hv & He & Hmv & Hd & Hc).
      simpl in *. split_and!; try done.
      intros v. rewrite (Hc v).
      destruct (editorView (Lifecycle.component st)) eqn:Hed; destruct v; simpl;
        (by left) || (right; split; [done|]; (by left) || (by right)).
Qed.

Lemma with_component_coherent st c :
  Lifecycle.shape c = Lifecycle.shape (Lifecycle.component st) →
  Lifecycle.coherent props st →
  Lifecycle.coherent props (Lifecycle.with_component c st).
Proof.
  intros Hshape (Hviews & Hmode & Hflags). split_and!.
  - intros v. simpl. rewrite (get_view_shape _ _ v Hshape).
    destruct v; [exact (Hviews TheEditor)|exact (Hviews MergeA)|exact (Hviews MergeB)].
  - simpl. unfold Lifecycle.shape in Hshape.
    destruct (mode props);
      destruct (editorView c), (mergeView c),
        (editorView (Lifecycle.component st)), (mergeView (Lifecycle.component st));
      simpl in *; congruence.
  - intros v exts Hc. apply (Hflags v). by destruct v.
Qed.

Lemma initEditor_coherent st :
  Lifecycle.coherent props st → Lifecycle.coherent props (Lifecycle.initEditor props st).
Proof.
  intros (Hviews & Hmode & Hflags). unfold Lifecycle.initEditor.
  destruct (mode props) eqn:Hm; (split_and!; [|by rewrite ?Hm|]); simpl.
  - intros v. destruct v; simpl; [split; eauto|apply (Hviews MergeA)|apply (Hviews MergeB)].
  - intros v exts. destruct v; simpl; [|apply (Hflags MergeA)|apply (Hflags MergeB)].
    intros [= <-]. apply theme_flags_extensions.
  - intros v. destruct v; simpl; [apply (Hviews TheEditor)|split; eauto..].
  - intros v exts. destruct v; simpl; [apply (Hflags TheEditor)|..];
      intros [= <-]; apply theme_flags_extensions.
Qed.

Lemma themeMode_changes_coherent st dark :
  Lifecycle.coherent props st →
  Lifecycle.coherent props (Lifecycle.themeMode_changes ext dark st).
Proof.
  intros (Hviews & Hmode & Hflags).
  destruct (themeMode_changes_spec st dark) as (_ & _ & Hv & He & Hmv & Hd & Hc).
  split_and!.
  - intros v. rewrite Hv, <- Hviews.
    destruct (Hc v) as [->|[-> _]]; [done|].
    destruct (Lifecycle.config st v); simpl; split; intros [? ?]; eauto; discriminate.
  - destruct (mode props); [by apply Hmv|by rewrite He].
  - intros v exts Hcfg. rewrite Hd.
    destruct (Lifecycle.config st v) as [old|] eqn:Hold.
    + pose proof (Hflags v old Hold) as Hone.
      destruct (Hc v) as [Hsame|[Hnew Hwhich]].
      * (* the view was not reconfigured: the theme has not changed, or the
           view does not exist *)
        rewrite Hsame, Hold in Hcfg. injection Hcfg as <-.
        unfold Lifecycle.themeMode_changes in Hd, Hsame.
        destruct (Bool.eqb dark (Lifecycle.themeMode_dark st)) eqn:Heq.
        { apply Bool.eqb_prop in Heq. by rewrite Hone, Heq. }
        exfalso.
        set (st1 := {| Lifecycle.component := Lifecycle.component st;
                       Lifecycle.themeMode_dark := dark;
                       Lifecycle.config_editor := Lifecycle.config_editor st;
                       Lifecycle.config_a := Lifecycle.config_a st;
                       Lifecycle.config_b := Lifecycle.config_b st |}) in *.
        assert (is_Some (get_view (Lifecycle.component st) v)) as Hexists
          by (apply Hviews; rewrite Hold; eauto).
        assert (Lifecycle.shape (Lifecycle.component st1) ≠ (false, false)) as Hsome.
        { unfold Lifecycle.shape. simpl. destruct Hexists as [view Hview].
          destruct v; simpl in Hview;
            destruct (editorView (Lifecycle.component st)),
              (mergeView (Lifecycle.component st)); simpl in *; congruence. }
        destruct (watch_theme_mounted st1 dark Hsome)
          as (st' & Hw & _ & _ & _ & _ & _ & _ & Hc').
        rewrite Hw in Hsame. rewrite (Hc' v) in Hsame. simpl in Hsame.
        assert (Lifecycle.config st1 v = Some old) as Hold1 by (by destruct v).
        assert (option_map (Lifecycle.reconfigure dark) (Lifecycle.config st1 v)
                = Lifecycle.config st v) as Hre.
        { destruct (editorView (Lifecycle.component st)) eqn:Hed; destruct v;
            try exact Hsame.
          - (* side [a] with an editor view: excluded by the mode *)
            destruct Hexists as [view Hview]. simpl in Hview.
            destruct (mode props); [by rewrite Hmode in Hview|congruence].
          - destruct Hexists as [view Hview]. simpl in Hview.
            destruct (mode props); [by rewrite Hmode in Hview|congruence].
          - destruct Hexists as [view Hview]. simpl in Hview. congruence. }
        rewrite Hold1, Hold in Hre. simpl in Hre. injection Hre as Hre.
        pose proof (theme_flags_reconfigure dark old) as Hfl.
        rewrite Hre, Hone in Hfl. simpl in Hfl. injection Hfl as Hfl.
        rewrite <- Hfl in Heq. by rewrite Bool.eqb_reflx in Heq.
      * rewrite Hnew, Hold in Hcfg. injection Hcfg as <-.
        by rewrite theme_flags_reconfigure, Hone.
    + destruct (Hc v) as [Hsame|[Hnew _]]; [rewrite Hsame in Hcfg|rewrite Hnew in Hcfg];
        rewrite Hold in Hcfg; discriminate.
Qed.

Lemma run_step_coherent s st :
  Lifecycle.coherent props st → Lifecycle.coherent props (Lifecycle.run_step ext props s st).
Proof.
  intros Hco. destruct s as [|dark|content| |v tr|v]; simpl.
  - by apply initEditor_coherent.
  - by apply themeMode_changes_coherent.
  - apply with_component_coherent; [apply shape_assign_model|done].
  - apply with_component_coherent; [apply shape_timer_fires|done].
  - apply with_component_coherent; [apply shape_editor_change|done].
  - apply with_component_coherent; [apply shape_formatDoc|done].
Qed.

Lemma run_coherent steps : ∀ st,
  Lifecycle.coherent props st → Lifecycle.coherent props (Lifecycle.run ext props steps st).
Proof.
  induction steps as [|s steps IH]; intros st Hco; [done|].
  simpl. apply IH. by apply run_step_coherent.
Qed.

Lemma unmounted_coherent (m : string) (dark : bool) :
  Lifecycle.coherent props (Lifecycle.unmounted m dark).
Proof.
  split_and!.
  - intros v. destruct v; simpl; split; intros [? ?]; discriminate.
  - by destruct (mode props).
  - intros v exts. by destruct v.
Qed.

End Mounting.

(** X16: every view runs with the theme of the application.  Starting
    from the component before it is mounted, after any sequence of mounts,
    theme changes, model assignments, timer firings, editor changes and
    formatting keys, each view that exists has exactly one theme setting
    among its extensions, and it is the current theme; this includes views
    created after a theme change that found no view to reconfigure. *)
Theorem views_follow_theme
    (ext : CodeViewer.Externals) (props : CodeViewer.Props)
    (steps : list Lifecycle.step) (model : string) (dark : bool) (v : CodeViewer.view_ref) :
  match Lifecycle.config (Lifecycle.run ext props steps (Lifecycle.unmounted model dark)) v
  with
  | Some exts =>
      is_Some (CodeViewer.get_view
                 (Lifecycle.component
                    (Lifecycle.run ext props steps (Lifecycle.unmounted model dark))) v)
      ∧ Lifecycle.theme_flags exts
        = [Lifecycle.themeMode_dark
             (Lifecycle.run ext props steps (Lifecycle.unmounted model dark))]
  | None =>
      CodeViewer.get_view
        (Lifecycle.component
           (Lifecycle.run ext props steps (Lifecycle.unmounted model dark))) v
      = None
  end.
Proof.
  destruct (run_coherent ext props steps _ (unmounted_coherent props model dark))
    as (Hviews & _ & Hflags).
  destruct (Lifecycle.config _ v) as [exts|] eqn:Hc.
  - split; [apply Hviews; rewrite Hc; eauto|by apply (Hflags v)].
  - destruct (CodeViewer.get_view _ v) as [view|] eqn:Hview; [|done].
    assert (is_Some (Lifecycle.config
                       (Lifecycle.run ext props steps (Lifecycle.unmounted model dark)) v))
      as [? Hsome] by (apply Hviews; rewrite Hview; eauto).
    congruence.
Qed.

(** X17: a change of the application theme touches no document.  The
    theme watcher leaves the model, the waiting [onChange] call and the
    text and selection of every view as they were, and [onChange] is not
    called; this holds as well when no view exists yet and the callback
    ends with an exception. *)
Theorem theme_change_keeps_documents
    (ext : CodeViewer.Externals) (dark : bool) (st : Lifecycle.state) :
  CodeViewer.model (Lifecycle.component (Lifecycle.themeMode_changes ext dark st))
  = CodeViewer.model (Lifecycle.component st)
  ∧ CodeViewer.pending (Lifecycle.component (Lifecycle.themeMode_changes ext dark st))
    = CodeViewer.pending (Lifecycle.component st)
  ∧ (∀ v, CodeViewer.get_view
            (Lifecycle.component (Lifecycle.themeMode_changes ext dark st)) v
          = CodeViewer.get_view (Lifecycle.component st) v)
  ∧ Lifecycle.themeMode_dark (Lifecycle.themeMode_changes ext dark st) = dark.
Proof.
  destruct (themeMode_changes_spec ext st dark) as (Hm & Hp & Hv & _ & _ & Hd & _).
  done.
Qed.

(** X18: the editor shows the model it is mounted with.  A value assigned
    to the model before [initEditor] has run is not dispatched anywhere
    (there is no view), but [initEditor] creates every view from that
    value: its document is the value with its line breaks normalised and
    the cursor is at the start.  A run of the model watcher on that value
    then finds nothing to do when the value has no carriage return to
    normalise; when it has one, the watcher dispatches the value to the
    watched view, which leaves the normalised text waiting for [onChange]. *)
Theorem initEditor_shows_model
    (ext : CodeViewer.Externals) (props : CodeViewer.Props)
    (st : Lifecycle.state) (content : string) :
  CodeViewer.editorView (Lifecycle.component st) = None →
  CodeViewer.mergeView (Lifecycle.component st) = None →
  CodeViewer.log
    (Lifecycle.component
       (Lifecycle.run ext props [Lifecycle.ModelAssigned content; Lifecycle.Mounted] st))
  = CodeViewer.log (Lifecycle.component st)
  ∧ CodeViewer.model
      (Lifecycle.component
         (Lifecycle.run ext props [Lifecycle.ModelAssigned content; Lifecycle.Mounted] st))
    = content
  ∧ (∀ v view,
       CodeViewer.get_view
         (Lifecycle.component
            (Lifecycle.run ext props [Lifecycle.ModelAssigned content; Lifecycle.Mounted] st))
         v = Some view →
       view = Lifecycle.new_view content
       ∧ CodeViewer.doc view = CodeViewer.normalise content)
  ∧ (∃ v view,
       CodeViewer.watched_view
         (Lifecycle.component
            (Lifecycle.run ext props
               [Lifecycle.ModelAssigned content; Lifecycle.Mounted] st))
       = Some v
       ∧ CodeViewer.get_view
           (Lifecycle.component
              (Lifecycle.run ext props
                 [Lifecycle.ModelAssigned content; Lifecycle.Mounted] st))
           v = Some view
       ∧ (CodeViewer.normalise content = content →
          CodeViewer.watch_model ext content
            (Lifecycle.component
               (Lifecycle.run ext props
                  [Lifecycle.ModelAssigned content; Lifecycle.Mounted] st))
          = Lifecycle.component
              (Lifecycle.run ext props
                 [Lifecycle.ModelAssigned content; Lifecycle.Mounted] st))
       ∧ (CodeViewer.normalise content ≠ content →
          CodeViewer.log
            (CodeViewer.watch_model ext content
               (Lifecycle.component
                  (Lifecycle.run ext props
                     [Lifecycle.ModelAssigned content; Lifecycle.Mounted] st)))
          = CodeViewer.log (Lifecycle.component st)
            ++ [CodeViewer.Dispatch v (CodeViewer.model_transaction view content)]
          ∧ CodeViewer.pending
              (CodeViewer.watch_model ext content
                 (Lifecycle.component
                    (Lifecycle.run ext props
                       [Lifecycle.ModelAssigned content; Lifecycle.Mounted] st)))
            = Some (CodeViewer.normalise content))).
Proof.
  intros He Hm. simpl.
  assert (CodeViewer.assign_model ext content (Lifecycle.component st)
          = CodeViewer.set_model content (Lifecycle.component st)) as ->.
  { unfold CodeViewer.assign_model.
    destruct (String.eqb_spec content (CodeViewer.model (Lifecycle.component st)))
      as [->|_].
    - by destruct (Lifecycle.component st).
    - apply watch_model_none. unfold CodeViewer.watched_view. simpl. by rewrite He, Hm. }
  unfold Lifecycle.initEditor. simpl.
  destruct (CodeViewer.mode props); simpl; rewrite ?He, ?Hm.
  - split_and!.
    + done.
    + done.
    + intros v view. destruct v; simpl; [|congruence..].
      by intros [= <-].
    + exists CodeViewer.TheEditor, (Lifecycle.new_view content).
      split_and!; [done|done| |].
      * intros Hn.
        apply (watch_model_same ext content _ CodeViewer.TheEditor
                 (Lifecycle.new_view content)); [done|done|by simpl].
      * intros Hn.
        match goal with
        | |- context [CodeViewer.watch_model ext content ?c] =>
            destruct (watch_model_differs ext content c CodeViewer.TheEditor
                        (Lifecycle.new_view content))
              as (view' & _ & _ & Hlog & Hpend & _); [done|done|by simpl|]
        end.
        by rewrite Hlog, Hpend.
  - split_and!.
    + done.
    + done.
    + intros v view. destruct v; simpl; [congruence| |]; by intros [= <-].
    + exists CodeViewer.MergeB, (Lifecycle.new_view content).
      split_and!; [by unfold CodeViewer.watched_view; simpl; rewrite ?He|done| |].
      * intros Hn.
        apply (watch_model_same ext content _ CodeViewer.MergeB
                 (Lifecycle.new_view content));
          [by unfold CodeViewer.watched_view; simpl; rewrite ?He|done|by simpl].
      * intros Hn.
        match goal with
        | |- context [CodeViewer.watch_model ext content ?c] =>
            destruct (watch_model_differs ext content c CodeViewer.MergeB
                        (Lifecycle.new_view content))
              as (view' & _ & _ & Hlog & Hpend & _);
              [by unfold CodeViewer.watched_view; simpl; rewrite ?He|done|by simpl|]
        end.
        by rewrite Hlog, Hpend.
Qed.

Lemma initEditor_shows_model_witness :
  CodeViewer.doc <$>
    CodeViewer.get_view
      (Lifecycle.component
         (Lifecycle.run Sample.prettier Sample.yaml_props
            [Lifecycle.ModelAssigned Fixture.windows_lines; Lifecycle.Mounted]
            (Lifecycle.unmounted "a: 1" false)))
      CodeViewer.TheEditor
  = Some (String.append "a" (String CodeViewer.line_feed "b")).
Proof.
  destruct (initEditor_shows_model Sample.prettier Sample.yaml_props
              (Lifecycle.unmounted "a: 1" false) Fixture.windows_lines eq_refl eq_refl)
    as (_ & _ & Hviews & _).
  destruct (CodeViewer.get_view _ CodeViewer.TheEditor) as [view|] eqn:Hview;
    [|discriminate].
  destruct (Hviews CodeViewer.TheEditor view Hview) as [_ Hdoc].
  simpl. rewrite Hdoc. reflexivity.
Defined.

Section Editable.

Variables (ext : CodeViewer.Externals) (props : CodeViewer.Props).

Implicit Types (st : Lifecycle.state) (v : CodeViewer.view_ref).

Lemma editable_flags_app (xs ys : list Lifecycle.extension) :
  Lifecycle.editable_flags (xs ++ ys)
  = Lifecycle.editable_flags xs ++ Lifecycle.editable_flags ys.
Proof. induction xs as [|[] xs IH]; simpl; by rewrite ?IH. Qed.

Lemma editable_flags_extensions dark (b : bool) :
  Lifecycle.editable_flags (Lifecycle.extensions props dark ++ [Lifecycle.Editable b])
  = [b].
Proof. unfold Lifecycle.extensions. by destruct (CodeViewer.lang props). Qed.

Lemma editable_flags_reconfigure dark (exts : list Lifecycle.extension) :
  Lifecycle.editable_flags (Lifecycle.reconfigure dark exts)
  = Lifecycle.editable_flags exts.
Proof. induction exts as [|[] exts IH]; simpl; by rewrite ?IH. Qed.

Lemma run_step_editable s st :
  (∀ v exts, Lifecycle.config st v = Some exts →
             Lifecycle.editable_flags exts = [Lifecycle.expected_editable props v]) →
  ∀ v exts, Lifecycle.config (Lifecycle.run_step ext props s st) v = Some exts →
            Lifecycle.editable_flags exts = [Lifecycle.expected_editable props v].
Proof.
  intros Hinv v exts. destruct s as [|dark|content| |w tr|w]; simpl.
  - unfold Lifecycle.initEditor.
    destruct (CodeViewer.mode props); destruct v; simpl;
      try (intros [= <-]; apply editable_flags_extensions);
      first [apply (Hinv CodeViewer.TheEditor) | apply (Hinv CodeViewer.MergeA)
            | apply (Hinv CodeViewer.MergeB)].
  - destruct (themeMode_changes_spec ext st dark) as (_ & _ & _ & _ & _ & _ & Hc).
    destruct (Hc v) as [->|[-> _]]; [apply Hinv|].
    destruct (Lifecycle.config st v) as [old|] eqn:Hold; [|done].
    intros [= <-]. rewrite editable_flags_reconfigure. by apply Hinv.
  - intros Hcfg. apply Hinv. by destruct v.
  - intros Hcfg. apply Hinv. by destruct v.
  - intros Hcfg. apply Hinv. by destruct v.
  - intros Hcfg. apply Hinv. by destruct v.
Qed.

Lemma run_editable steps : ∀ st,
  (∀ v exts, Lifecycle.config st v = Some exts →
             Lifecycle.editable_flags exts = [Lifecycle.expected_editable props v]) →
  ∀ v exts, Lifecycle.config (Lifecycle.run ext props steps st) v = Some exts →
            Lifecycle.editable_flags exts = [Lifecycle.expected_editable props v].
Proof.
  induction steps as [|s steps IH]; intros st Hinv; [done|].
  simpl. apply IH. by apply run_step_editable.
Qed.

End Editable.

(** X19: side [a] of a diff stays read-only.  From the unmounted
    component, after any sequence of mounts, theme changes, model
    assignments, timer firings, editor changes and formatting keys, every
    view has exactly one [EditorView.editable] setting among its
    extensions: [false] for side [a] of the merge view, whatever
    [props.editable] says, and [props.editable] for side [b] and for the
    single editor. *)
Theorem diff_original_stays_read_only
    (ext : CodeViewer.Externals) (props : CodeViewer.Props)
    (steps : list Lifecycle.step) (model : string) (dark : bool)
    (v : CodeViewer.view_ref) (exts : list Lifecycle.extension) :
  Lifecycle.config (Lifecycle.run ext props steps (Lifecycle.unmounted model dark)) v
  = Some exts →
  Lifecycle.editable_flags exts
  = [match v with
     | CodeViewer.MergeA => false
     | _ => CodeViewer.editable props
     end].
Proof.
  intros Hcfg.
  apply (run_editable ext props steps (Lifecycle.unmounted model dark)) in Hcfg.
  - rewrite Hcfg. by destruct v.
  - intros w old. by destruct w.
Qed.

Lemma diff_original_stays_read_only_witness :
  ∃ exts,
    Lifecycle.config
      (Lifecycle.run Sample.prettier
         {| CodeViewer.editable := true; CodeViewer.lang := CodeViewer.json;
            CodeViewer.mode := CodeViewer.diff; CodeViewer.placeholder := "" |}
         [Lifecycle.Mounted; Lifecycle.ThemeModeChanges true]
         (Lifecycle.unmounted "{}" false)) CodeViewer.MergeA = Some exts
    ∧ Lifecycle.editable_flags exts = [false].
Proof.
  eexists. split; [reflexivity|].
  apply (diff_original_stays_read_only Sample.prettier
           {| CodeViewer.editable := true; CodeViewer.lang := CodeViewer.json;
              CodeViewer.mode := CodeViewer.diff; CodeViewer.placeholder := "" |}
           [Lifecycle.Mounted; Lifecycle.ThemeModeChanges true] "{}" false
           CodeViewer.MergeA).
  reflexivity.
Defined.
